(** * Resilience layer of the traffic-signal relay (server.js)

    A shallow embedding of the request handlers of [server.js]: the
    module-level variables become a record of globals threaded through a
    small state-and-exception monad, every assignment to a global and every
    call that leaves the process (fetch, readFile, console.warn) is recorded
    in an effect log, and the values that the runtime supplies while one
    request is served (clock readings, upstream responses, file contents,
    random draws) come from a per-request environment.

    [serve] runs a handler from its first line to its last: the
    continuation after each [await] is applied to the awaited result at
    once. That is the process as long as requests do not overlap. For
    requests that do, the resolvers are cut at their [await]s into the
    stretches that run without interruption, and [sys_step] runs the
    stretches of different requests in any order on the shared variables. *)

From Stdlib Require Import ZArith QArith Qround String Ascii List Bool Lia.
From Stdlib Require Import DecimalString.
Import ListNotations.

Local Open Scope string_scope.
Local Open Scope list_scope.
Local Open Scope Z_scope.
Local Set Warnings "-register-all".

(** ** JavaScript values *)

(** The values that flow through the handlers: what [JSON.parse] yields,
    plus [undefined] for a property that is not there.  Object fields keep
    their order. Numbers are integers here; no handler computes with the
    numbers of a payload. *)
Inductive value : Type :=
| VUndefined
| VNull
| VBool (b : bool)
| VNum (n : Z)
| VStr (s : string)
| VArr (xs : list value)
| VObj (fields : list (string * value)).

(** [if (v)]: the falsy values are undefined, null, false, 0 and the empty
    string; arrays and objects are truthy even when empty. *)
Definition truthy (v : value) : bool :=
  match v with
  | VUndefined | VNull => false
  | VBool b => b
  | VNum n => negb (n =? 0)
  | VStr s => negb (s =? "")%string
  | VArr _ | VObj _ => true
  end.

Definition truthy_str (s : string) : bool := negb (s =? "")%string.

(** Truthiness of a value that is a string or null ([toAbs]'s result). *)
Definition truthy_opt (o : option string) : bool :=
  match o with
  | None => false
  | Some s => truthy_str s
  end.

(** First binding of a key. *)
Fixpoint lookup (k : string) (fields : list (string * value)) : option value :=
  match fields with
  | [] => None
  | (k', v) :: rest => if (k' =? k)%string then Some v else lookup k rest
  end.

(** [{ ...fields, k: v }]: an existing key keeps its place and takes the
    new value, a new key goes last. *)
Fixpoint set_field (k : string) (v : value) (fields : list (string * value))
  : list (string * value) :=
  match fields with
  | [] => [(k, v)]
  | (k', v') :: rest =>
      if (k' =? k)%string then (k', v) :: rest
      else (k', v') :: set_field k v rest
  end.

(** ** Strings *)

Definition lower_ascii (c : ascii) : ascii :=
  let n := nat_of_ascii c in
  if (Nat.leb 65 n && Nat.leb n 90)%bool then ascii_of_nat (n + 32) else c.

Fixpoint toLowerCase (s : string) : string :=
  match s with
  | EmptyString => EmptyString
  | String c rest => String (lower_ascii c) (toLowerCase rest)
  end.

(** [hay.includes(needle)]. *)
Fixpoint includes (needle hay : string) : bool :=
  if String.prefix needle hay then true
  else match hay with
       | EmptyString => false
       | String _ rest => includes needle rest
       end.

(** [s.replace(/^\/+/, "")]. *)
Fixpoint strip_leading_slashes (s : string) : string :=
  match s with
  | String "/"%char rest => strip_leading_slashes rest
  | _ => s
  end.

(** [s.replace(/\/+$/, "")]. *)
Fixpoint strip_trailing_slashes (s : string) : string :=
  match s with
  | EmptyString => EmptyString
  | String c rest =>
      match strip_trailing_slashes rest with
      | EmptyString => if Ascii.eqb c "/"%char then EmptyString else String c EmptyString
      | r => String c r
      end
  end.

(** [/^https?:\/\//i.test(s)]. *)
Definition is_http_url (s : string) : bool :=
  let l := toLowerCase s in
  (String.prefix "http://" l || String.prefix "https://" l)%bool.

(** Decimal rendering of an integer, as a template literal does. *)
Definition show_Z (n : Z) : string := NilZero.string_of_int (Z.to_int n).

(** ** Configuration: the module-level constants *)

Record Config : Type := {
  BASE : string;
  LOCATIONS_URL : string;
  STATES_URL : string;
  DEMO_CONFIGURED : bool;
  POLL_MS : Z;
  UPSTREAM_TIMEOUT_MS : Z;
  BACKOFF_AFTER_FAILS : Z;
  BACKOFF_WINDOW_MS : Z
}.

(** [BASE] is the configured origin with its trailing slashes removed. *)
Definition base_of_env (raw : string) : string := strip_trailing_slashes raw.

(** ** Module-level state *)

Record Cache : Type := {
  data : value;
  contentType : string;
  at_ : Z
}.

Definition emptyCache : Cache :=
  {| data := VNull; contentType := "application/json"; at_ := 0 |}.

Record Globals : Type := {
  lastLocationsFallback : bool;
  lastStatesFallback : bool;
  cacheLocations : Cache;
  cacheStates : Cache;
  locFailCount : Z;
  statesFailCount : Z;
  locNextTryAt : Z;
  statesNextTryAt : Z
}.

(** The state at process start. *)
Definition initial : Globals :=
  {| lastLocationsFallback := false;
     lastStatesFallback := false;
     cacheLocations := emptyCache;
     cacheStates := emptyCache;
     locFailCount := 0;
     statesFailCount := 0;
     locNextTryAt := 0;
     statesNextTryAt := 0 |}.

(** The [kind] argument: the three string literals the callers pass. *)
Inductive Kind : Type := Locations | States | Proxy.

Definition kind_name (k : Kind) : string :=
  match k with
  | Locations => "locations"
  | States => "states"
  | Proxy => "proxy"
  end.

(** [kind === "locations"]. *)
Definition is_locations (k : Kind) : bool := (kind_name k =? "locations")%string.

(** ** Exceptions, effects and the request environment *)

Record JsError : Type := {
  err_name : string;
  err_message : string
}.

(** [String(e)] for an Error object. *)
Definition String_of_error (e : JsError) : string :=
  if (err_name e =? "")%string then err_message e
  else if (err_message e =? "")%string then err_name e
  else (err_name e ++ ": " ++ err_message e)%string.

Inductive Result (A : Type) : Type :=
| Ok (a : A)
| Throw (e : JsError).
Arguments Ok {A} a.
Arguments Throw {A} e.

(** What [fetch] resolves to, as far as [tryRemote] looks at it. Reading
    the body can fail, and so can parsing it. *)
Record RawResponse : Type := {
  r_ok : bool;
  r_status : Z;
  r_content_type : option string;
  r_text : Result string;
  r_json : Result value
}.

(** One request's view of the runtime. [clock n] is the reading of the
    n-th [Date.now()] call made while the request is served, [net n url]
    the result of its n-th [fetch] that reaches the network, [random n] its
    n-th [Math.random()], a rational in place of the double. [files] is
    [readFile] on a path under [__dirname], [parse_json] is [JSON.parse]
    and [url_origin u] is [new URL(u).origin]; each may throw. *)
Record Env : Type := {
  clock : nat -> Z;
  net : nat -> string -> Result RawResponse;
  files : string -> Result string;
  parse_json : string -> Result value;
  random : nat -> Q;
  url_origin : string -> Result string
}.

(** Assignments to globals and calls that leave the process. *)
Inductive effect : Type :=
| SetFallback (k : Kind) (b : bool)
| SetCache (k : Kind) (c : Cache)
| SetFailCount (k : Kind) (n : Z)
| SetNextTryAt (k : Kind) (t : Z)
| CallFetch (url : string)
| CallReadFile (path : string)
| Warn (k : Kind) (msg : string).

(** The state of one running handler: the globals and how many clock
    readings, fetches and random draws it has consumed. *)
Record Proc : Type := {
  globals : Globals;
  ticks : nat;
  calls : nat;
  draws : nat
}.

Definition start (g : Globals) : Proc :=
  {| globals := g; ticks := 0%nat; calls := 0%nat; draws := 0%nat |}.

(** ** The handler monad *)

Definition M (A : Type) : Type := Proc -> Result A * Proc * list effect.

Definition ret {A} (a : A) : M A := fun p => (Ok a, p, []).

Definition throw {A} (e : JsError) : M A := fun p => (Throw e, p, []).

Definition bind {A B} (m : M A) (f : A -> M B) : M B :=
  fun p =>
    match m p with
    | (Ok a, p1, l1) =>
        match f a p1 with
        | (r, p2, l2) => (r, p2, l1 ++ l2)
        end
    | (Throw e, p1, l1) => (Throw e, p1, l1)
    end.

(** [try { m } catch (e) { h(e) }]. *)
Definition try_catch {A} (m : M A) (h : JsError -> M A) : M A :=
  fun p =>
    match m p with
    | (Ok a, p1, l1) => (Ok a, p1, l1)
    | (Throw e, p1, l1) =>
        match h e p1 with
        | (r, p2, l2) => (r, p2, l1 ++ l2)
        end
    end.

Declare Scope js_scope.
Delimit Scope js_scope with js.
Notation "x <- m ;; k" := (bind m (fun x => k))
  (at level 61, m at next level, right associativity) : js_scope.
Notation "m ;; k" := (bind m (fun _ => k))
  (at level 61, right associativity) : js_scope.
Local Open Scope js_scope.

Definition lift {A} (r : Result A) : M A := fun p => (r, p, []).

Definition emit (e : effect) : M unit := fun p => (Ok tt, p, [e]).

Definition read : M Globals := fun p => (Ok (globals p), p, []).

Definition write (g : Globals) : M unit :=
  fun p => (Ok tt, {| globals := g; ticks := ticks p; calls := calls p; draws := draws p |}, []).

(** ** Primitive operations *)

(** [Date.now()]. *)
Definition Date_now (e : Env) : M Z :=
  fun p =>
    (Ok (clock e (ticks p)),
     {| globals := globals p; ticks := S (ticks p); calls := calls p; draws := draws p |},
     []).

(** [Math.random()]. *)
Definition Math_random (e : Env) : M Q :=
  fun p =>
    (Ok (random e (draws p)),
     {| globals := globals p; ticks := ticks p; calls := calls p; draws := S (draws p) |},
     []).

Definition invalid_url (shown : string) : JsError :=
  {| err_name := "TypeError"; err_message := ("Failed to parse URL from " ++ shown)%string |}.

(** How a template literal shows a string-or-null. *)
Definition show_opt (o : option string) : string :=
  match o with
  | Some s => s
  | None => "null"
  end.

(** [fetch(url, ...)]. Null and the empty string do not parse as a URL:
    the call is rejected while the request is built, before anything is
    sent. Any other string goes to the network. *)
Definition fetch (e : Env) (url : option string) : M RawResponse :=
  fun p =>
    match url with
    | Some u =>
        if truthy_str u then
          (net e (calls p) u,
           {| globals := globals p; ticks := ticks p; calls := S (calls p); draws := draws p |},
           [CallFetch u])
        else (Throw (invalid_url u), p, [])
    | None => (Throw (invalid_url (show_opt None)), p, [])
    end.

(** [readFile(path.join(__dirname, rel), "utf8")]. *)
Definition readFile (e : Env) (rel : string) : M string :=
  fun p => (files e rel, p, [CallReadFile rel]).

(** Assignments to the module-level variables. *)
Definition set_fallback (k : Kind) (b : bool) : M unit :=
  g <- read ;;
  write (if is_locations k then
           {| lastLocationsFallback := b;
              lastStatesFallback := lastStatesFallback g;
              cacheLocations := cacheLocations g;
              cacheStates := cacheStates g;
              locFailCount := locFailCount g;
              statesFailCount := statesFailCount g;
              locNextTryAt := locNextTryAt g;
              statesNextTryAt := statesNextTryAt g |}
         else
           {| lastLocationsFallback := lastLocationsFallback g;
              lastStatesFallback := b;
              cacheLocations := cacheLocations g;
              cacheStates := cacheStates g;
              locFailCount := locFailCount g;
              statesFailCount := statesFailCount g;
              locNextTryAt := locNextTryAt g;
              statesNextTryAt := statesNextTryAt g |}) ;;
  emit (SetFallback k b).

Definition set_cache (k : Kind) (c : Cache) : M unit :=
  g <- read ;;
  write (if is_locations k then
           {| lastLocationsFallback := lastLocationsFallback g;
              lastStatesFallback := lastStatesFallback g;
              cacheLocations := c;
              cacheStates := cacheStates g;
              locFailCount := locFailCount g;
              statesFailCount := statesFailCount g;
              locNextTryAt := locNextTryAt g;
              statesNextTryAt := statesNextTryAt g |}
         else
           {| lastLocationsFallback := lastLocationsFallback g;
              lastStatesFallback := lastStatesFallback g;
              cacheLocations := cacheLocations g;
              cacheStates := c;
              locFailCount := locFailCount g;
              statesFailCount := statesFailCount g;
              locNextTryAt := locNextTryAt g;
              statesNextTryAt := statesNextTryAt g |}) ;;
  emit (SetCache k c).

Definition set_failCount (k : Kind) (n : Z) : M unit :=
  g <- read ;;
  write (if is_locations k then
           {| lastLocationsFallback := lastLocationsFallback g;
              lastStatesFallback := lastStatesFallback g;
              cacheLocations := cacheLocations g;
              cacheStates := cacheStates g;
              locFailCount := n;
              statesFailCount := statesFailCount g;
              locNextTryAt := locNextTryAt g;
              statesNextTryAt := statesNextTryAt g |}
         else
           {| lastLocationsFallback := lastLocationsFallback g;
              lastStatesFallback := lastStatesFallback g;
              cacheLocations := cacheLocations g;
              cacheStates := cacheStates g;
              locFailCount := locFailCount g;
              statesFailCount := n;
              locNextTryAt := locNextTryAt g;
              statesNextTryAt := statesNextTryAt g |}) ;;
  emit (SetFailCount k n).

Definition set_nextTryAt (k : Kind) (t : Z) : M unit :=
  g <- read ;;
  write (if is_locations k then
           {| lastLocationsFallback := lastLocationsFallback g;
              lastStatesFallback := lastStatesFallback g;
              cacheLocations := cacheLocations g;
              cacheStates := cacheStates g;
              locFailCount := locFailCount g;
              statesFailCount := statesFailCount g;
              locNextTryAt := t;
              statesNextTryAt := statesNextTryAt g |}
         else
           {| lastLocationsFallback := lastLocationsFallback g;
              lastStatesFallback := lastStatesFallback g;
              cacheLocations := cacheLocations g;
              cacheStates := cacheStates g;
              locFailCount := locFailCount g;
              statesFailCount := statesFailCount g;
              locNextTryAt := locNextTryAt g;
              statesNextTryAt := t |}) ;;
  emit (SetNextTryAt k t).

(** The variables of a resource, read by kind the way the two mirrored
    branches of the source name them. *)
Definition fallbackOf (k : Kind) (g : Globals) : bool :=
  if is_locations k then lastLocationsFallback g else lastStatesFallback g.

Definition cacheOf (k : Kind) (g : Globals) : Cache :=
  if is_locations k then cacheLocations g else cacheStates g.

Definition failCountOf (k : Kind) (g : Globals) : Z :=
  if is_locations k then locFailCount g else statesFailCount g.

Definition nextTryAtOf (k : Kind) (g : Globals) : Z :=
  if is_locations k then locNextTryAt g else statesNextTryAt g.

(** ** Responses *)

Inductive Body : Type :=
| NoBody
| Json (v : value)
| Sent (v : value).

Record Response : Type := {
  status : Z;
  headers : list (string * string);
  ctype : option string;
  body : Body
}.

(** A fresh [res]. *)
Definition res0 : Response :=
  {| status := 200; headers := []; ctype := None; body := NoBody |}.

Definition res_setHeader (name val : string) (r : Response) : Response :=
  {| status := status r; headers := headers r ++ [(name, val)];
     ctype := ctype r; body := body r |}.

Definition res_status (code : Z) (r : Response) : Response :=
  {| status := code; headers := headers r; ctype := ctype r; body := body r |}.

Definition res_type (t : string) (r : Response) : Response :=
  {| status := status r; headers := headers r; ctype := Some t; body := body r |}.

(** [res.json(v)] declares JSON unless a content type is already set. *)
Definition res_json (v : value) (r : Response) : Response :=
  {| status := status r; headers := headers r;
     ctype := match ctype r with Some t => Some t | None => Some "application/json" end;
     body := Json v |}.

Definition res_send (v : value) (r : Response) : Response :=
  {| status := status r; headers := headers r; ctype := ctype r; body := Sent v |}.

Definition has_header (name val : string) (r : Response) : bool :=
  existsb (fun h => (fst h =? name)%string && (snd h =? val)%string)%bool (headers r).

(** ** Object spread, property access and [Array.prototype.map] *)

Fixpoint enumerate (i : Z) (xs : list value) : list (string * value) :=
  match xs with
  | [] => []
  | x :: rest => (show_Z i, x) :: enumerate (i + 1) rest
  end.

Fixpoint chars (s : string) : list value :=
  match s with
  | EmptyString => []
  | String c rest => VStr (String c EmptyString) :: chars rest
  end.

(** The own enumerable properties that [{ ...s }] copies. *)
Definition spread (s : value) : list (string * value) :=
  match s with
  | VObj fields => fields
  | VArr xs => enumerate 0 xs
  | VStr str => enumerate 0 (chars str)
  | _ => []
  end.

Definition type_error (msg : string) : JsError :=
  {| err_name := "TypeError"; err_message := msg |}.

(** The TypeError of reading property [name] of [undefined] or [null]. *)
Definition no_properties (of_what name : string) : JsError :=
  type_error ("Cannot read properties of " ++ of_what ++ " (reading '" ++ name ++ "')")%string.

(** [s.state]: undefined and null have no properties to read; a boolean, a
    number, a string and an array have no property of that name. *)
Definition get_state (s : value) : Result value :=
  match s with
  | VUndefined => Throw (no_properties "undefined" "state")
  | VNull => Throw (no_properties "null" "state")
  | VObj fields =>
      Ok (match lookup "state" fields with Some v => v | None => VUndefined end)
  | _ => Ok VUndefined
  end.

Fixpoint mapM {A B} (f : A -> M B) (xs : list A) : M (list B) :=
  match xs with
  | [] => ret []
  | x :: rest =>
      y <- f x ;;
      ys <- mapM f rest ;;
      ret (y :: ys)
  end.

(** What calling [base.map] throws when [base] is not an array: reading
    [map] off undefined or null fails; any other value has no [map], or one
    that JSON gave it, which is not a function. *)
Definition no_map (base : value) : JsError :=
  match base with
  | VUndefined => no_properties "undefined" "map"
  | VNull => no_properties "null" "map"
  | _ => type_error "base.map is not a function"
  end.

(** [base.map(f)]; only an array has a [map] to call. *)
Definition array_map (f : value -> M value) (base : value) : M value :=
  match base with
  | VArr xs => ys <- mapM f xs ;; ret (VArr ys)
  | _ => throw (no_map base)
  end.

(** [q < r] on the rationals that stand for [Math.random()]'s results. *)
Definition Qltb (q r : Q) : bool := negb (Qle_bool r q).

(** The pool of line 225. *)
Definition candidates : list string :=
  ["1"; "4"; "5"; "9"; "12"; "14"; "16"; "17"; "18"; "19"; "22"; "23"]%string.

(** [candidates[i]]. *)
Definition candidate_at (i : Z) : value :=
  if i <? 0 then VUndefined
  else match nth_error candidates (Z.to_nat i) with
       | Some c => VStr c
       | None => VUndefined
       end.

(** ** Outcome of [tryRemote]: its three object shapes *)

Inductive Outcome : Type :=
| Failed (st : Z) (error : string) (text : option string)
| OkJson (d : value)
| OkText (text : string) (ct : string).

Definition out_ok (o : Outcome) : bool :=
  match o with
  | Failed _ _ _ => false
  | _ => true
  end.

Definition out_status (o : Outcome) : option Z :=
  match o with
  | Failed st _ _ => Some st
  | _ => None
  end.

Definition out_error (o : Outcome) : option string :=
  match o with
  | Failed _ err _ => Some err
  | _ => None
  end.

Definition out_text (o : Outcome) : option string :=
  match o with
  | Failed _ _ t => t
  | OkJson _ => None
  | OkText t _ => Some t
  end.

Definition out_data (o : Outcome) : value :=
  match o with
  | OkJson d => d
  | _ => VUndefined
  end.

Definition out_contentType (o : Outcome) : option string :=
  match o with
  | Failed _ _ _ => None
  | OkJson _ => Some "application/json"%string
  | OkText _ ct => Some ct
  end.

(** A string-or-undefined as a value. *)
Definition of_opt (o : option string) : value :=
  match o with
  | Some s => VStr s
  | None => VUndefined
  end.

Definition is_json_type (o : option string) : bool :=
  match o with
  | Some t => (t =? "application/json")%string
  | None => false
  end.

Definition type_or_empty (o : option string) : string :=
  match o with
  | Some t => t
  | None => ""
  end.

(** [a || b] on a string-or-undefined. *)
Definition or_str (a : option string) (b : string) : string :=
  match a with
  | Some s => if truthy_str s then s else b
  | None => b
  end.

(** [n || d] on a number-or-undefined. *)
Definition or_num (a : option Z) (d : Z) : Z :=
  match a with
  | Some n => if n =? 0 then d else n
  | None => d
  end.

Section Server.

Variable cfg : Config.

(** ** The functions of server.js *)

Definition toAbs (urlOrPath : string) : option string :=
  if negb (truthy_str urlOrPath) then None
  else if is_http_url urlOrPath then Some urlOrPath
  else if negb (truthy_str (BASE cfg)) then None
  else Some (BASE cfg ++ "/" ++ strip_leading_slashes urlOrPath)%string.

(** The timer only turns a late answer into a rejection with
    [Error("timeout")], which [net] may return like any other rejection. *)
Definition fetchWithTimeout (e : Env) (url : option string) (ms : Z) : M RawResponse :=
  fetch e url.

Definition tryRemote (e : Env) (url : option string) (kind : Kind) : M Outcome :=
  try_catch
    (r <- fetchWithTimeout e url (UPSTREAM_TIMEOUT_MS cfg) ;;
     if negb (r_ok r) then
       let txt := match r_text r with Ok t => t | Throw _ => ""%string end in
       ret (Failed (r_status r) ("Upstream " ++ show_Z (r_status r))%string (Some txt))
     else
       let ct := toLowerCase (type_or_empty (r_content_type r)) in
       if (includes "application/json" ct || includes "+json" ct)%bool then
         d <- lift (r_json r) ;;
         ret (OkJson d)
       else
         text <- lift (r_text r) ;;
         ret (OkText text (if truthy_str ct then ct else "text/plain; charset=utf-8"%string)))
    (fun err =>
       emit (Warn kind ("fetch error: " ++ err_name err ++ " " ++ err_message err)%string) ;;
       ret (Failed 502 (String_of_error err) None)).

Definition readDemoJSON (e : Env) (relPath : string) : M value :=
  text <- readFile e relPath ;;
  lift (parse_json e text).

Definition shouldBackoff (e : Env) (nextTryAt : Z) : M bool :=
  t <- Date_now e ;;
  ret (t <? nextTryAt).

(** The two branches of [onFail] and of [onSuccess] differ only in the
    variables they name; [set_failCount] and [set_nextTryAt] pick them by
    the same test [kind === "locations"]. *)
Definition onFail (e : Env) (kind : Kind) : M unit :=
  g <- read ;;
  set_failCount kind (failCountOf kind g + 1) ;;
  g' <- read ;;
  if BACKOFF_AFTER_FAILS cfg <=? failCountOf kind g' then
    t <- Date_now e ;;
    set_nextTryAt kind (t + BACKOFF_WINDOW_MS cfg) ;;
    set_failCount kind 0
  else ret tt.

Definition onSuccess (kind : Kind) : M unit :=
  set_failCount kind 0 ;;
  set_nextTryAt kind 0.

(** ** The request handlers *)

(** The text after the bracketed kind in the warning of lines 167 and 208. *)
Definition failure_message (out : Outcome) : string :=
  match out with
  | Failed st err _ => ("upstream failed (" ++ show_Z st ++ "): " ++ err)%string
  | _ => "upstream failed (undefined): undefined"%string
  end.

(** A handler either returns early with a response or falls through. *)
Definition or_else (early : option Response) (rest : M Response) : M Response :=
  match early with
  | Some r => ret r
  | None => rest
  end.

(* ---------- LOCATIONS ---------- *)
Definition api_locations (e : Env) : M Response :=
  set_fallback Locations false ;;
  let remoteUrl := toAbs (LOCATIONS_URL cfg) in
  now <- Date_now e ;;
  g <- read ;;
  go <- (if truthy_opt remoteUrl
         then b <- shouldBackoff e (locNextTryAt g) ;; ret (negb b)
         else ret false) ;;
  live <- (if go : bool then
             out <- tryRemote e remoteUrl Locations ;;
             if out_ok out then
               onSuccess Locations ;;
               if is_json_type (out_contentType out) then
                 set_cache Locations
                   {| data := out_data out;
                      contentType := type_or_empty (out_contentType out);
                      at_ := now |} ;;
                 ret (Some (res_json (out_data out) res0))
               else
                 set_cache Locations
                   {| data := of_opt (out_text out);
                      contentType := type_or_empty (out_contentType out);
                      at_ := now |} ;;
                 ret (Some (res_send (of_opt (out_text out))
                              (res_type (type_or_empty (out_contentType out)) res0)))
             else
               emit (Warn Locations (failure_message out)) ;;
               onFail e Locations ;;
               ret None
           else ret None) ;;
  or_else live (
    (* Serve cached if available *)
    g1 <- read ;;
    if truthy (data (cacheLocations g1)) then
      let res := res_setHeader "X-Cache" "hit-locations" res0 in
      ret (if (contentType (cacheLocations g1) =? "application/json")%string
           then res_json (data (cacheLocations g1)) res
           else res_send (data (cacheLocations g1))
                  (res_type (contentType (cacheLocations g1)) res))
    else
    (* Demo fallback *)
    if DEMO_CONFIGURED cfg then
      set_fallback Locations true ;;
      let res := res_setHeader "X-Demo-Fallback" "locations" res0 in
      text <- readFile e "sample-data/locations.geojson" ;;
      ret (res_send (VStr text) (res_type "application/json" res))
    else
      ret (res_json (VObj [("error"%string,
                            VStr "LOCATIONS_URL failed, and demo mode disabled")])
             (res_status 500 res0))).

(** The callback of [base.map] on line 226. *)
Definition reroll (e : Env) (s : value) : M value :=
  r <- Math_random e ;;
  st <- (if Qltb r (1 # 4)
         then r' <- Math_random e ;;
              ret (candidate_at (Qfloor (r' * inject_Z (Z.of_nat (length candidates)))))
         else lift (get_state s)) ;;
  ret (VObj (set_field "state" st (spread s))).

(* ---------- STATES ---------- *)
Definition api_states (e : Env) : M Response :=
  set_fallback States false ;;
  let remoteUrl := toAbs (STATES_URL cfg) in
  now <- Date_now e ;;
  g <- read ;;
  go <- (if truthy_opt remoteUrl
         then b <- shouldBackoff e (statesNextTryAt g) ;; ret (negb b)
         else ret false) ;;
  live <- (if go : bool then
             out <- tryRemote e remoteUrl States ;;
             if out_ok out then
               onSuccess States ;;
               if is_json_type (out_contentType out) then
                 set_cache States
                   {| data := out_data out;
                      contentType := type_or_empty (out_contentType out);
                      at_ := now |} ;;
                 ret (Some (res_json (out_data out) res0))
               else
                 set_cache States
                   {| data := of_opt (out_text out);
                      contentType := type_or_empty (out_contentType out);
                      at_ := now |} ;;
                 ret (Some (res_send (of_opt (out_text out))
                              (res_type (type_or_empty (out_contentType out)) res0)))
             else
               emit (Warn States (failure_message out)) ;;
               onFail e States ;;
               ret None
           else ret None) ;;
  or_else live (
    (* Serve cached states if we have any *)
    g1 <- read ;;
    if truthy (data (cacheStates g1)) then
      let res := res_setHeader "X-Cache" "hit-states" res0 in
      ret (if (contentType (cacheStates g1) =? "application/json")%string
           then res_json (data (cacheStates g1)) res
           else res_send (data (cacheStates g1))
                  (res_type (contentType (cacheStates g1)) res))
    else
    (* Demo fallback with gentle randomization *)
    if DEMO_CONFIGURED cfg then
      set_fallback States true ;;
      let res := res_setHeader "X-Demo-Fallback" "states" res0 in
      base <- readDemoJSON e "sample-data/states.json" ;;
      randomized <- array_map (reroll e) base ;;
      ret (res_json randomized res)
    else
      ret (res_json (VObj [("error"%string,
                            VStr "STATES_URL failed, and demo mode disabled")])
             (res_status 500 res0))).

(* ---------- OPTIONAL: proxy ---------- *)
Definition api_proxy (e : Env) (query_path : string) : M Response :=
  let p := query_path in
  let url := toAbs p in
  if negb (truthy_opt url) then
    ret (res_json (VObj [("error"%string, VStr "Invalid path or base not set")])
           (res_status 400 res0))
  else
    out <- tryRemote e url Proxy ;;
    if negb (out_ok out) then
      ret (res_send (VStr (or_str (out_text out) (or_str (out_error out) "Proxy error")))
             (res_status (or_num (out_status out) 502) res0))
    else if is_json_type (out_contentType out) then
      ret (res_json (out_data out) res0)
    else
      ret (res_send (of_opt (out_text out))
             (res_type (type_or_empty (out_contentType out)) res0)).

Definition probe (r : Outcome) : value :=
  VObj [("ok"%string, VBool (out_ok r));
        ("status"%string, VNum (or_num (out_status r) 200))].

Definition not_probed : value :=
  VObj [("ok"%string, VBool false); ("status"%string, VNum 400)].

(* ---------- health ---------- *)
Definition health (e : Env) : M Response :=
  locations <- (if truthy_str (LOCATIONS_URL cfg)
                then r <- tryRemote e (toAbs (LOCATIONS_URL cfg)) Locations ;;
                     ret (probe r)
                else ret not_probed) ;;
  states <- (if truthy_str (STATES_URL cfg)
             then r <- tryRemote e (toAbs (STATES_URL cfg)) States ;;
                  ret (probe r)
             else ret not_probed) ;;
  ret (res_json
         (VObj [("results"%string,
                 VObj [("locations"%string, locations); ("states"%string, states)])])
         res0).

Definition config (e : Env) : M Response :=
  g <- read ;;
  base <- (if truthy_str (BASE cfg)
           then o <- lift (url_origin e (BASE cfg)) ;; ret (VStr o)
           else ret VNull) ;;
  ret (res_json
         (VObj [("pollIntervalMs"%string, VNum (POLL_MS cfg));
                ("demoConfigured"%string, VBool (DEMO_CONFIGURED cfg));
                ("fallbackActive"%string,
                 VObj [("locations"%string, VBool (lastLocationsFallback g));
                       ("states"%string, VBool (lastStatesFallback g))]);
                ("usingRemote"%string,
                 VBool (truthy_str (LOCATIONS_URL cfg) && truthy_str (STATES_URL cfg)));
                ("base"%string, base);
                ("upstream"%string,
                 VObj [("timeoutMs"%string, VNum (UPSTREAM_TIMEOUT_MS cfg));
                       ("backoffAfterFails"%string, VNum (BACKOFF_AFTER_FAILS cfg));
                       ("backoffWindowMs"%string, VNum (BACKOFF_WINDOW_MS cfg));
                       ("locFailCount"%string, VNum (locFailCount g));
                       ("statesFailCount"%string, VNum (statesFailCount g));
                       ("locNextTryAt"%string, VNum (locNextTryAt g));
                       ("statesNextTryAt"%string, VNum (statesNextTryAt g))])])
         res0).

(** ** Serving requests *)

Inductive Request : Type :=
| GetLocations
| GetStates
| GetProxy (path : string)
| GetHealth
| GetConfig.

Definition handler (rq : Request) (e : Env) : M Response :=
  match rq with
  | GetLocations => api_locations e
  | GetStates => api_states e
  | GetProxy p => api_proxy e p
  | GetHealth => health e
  | GetConfig => config e
  end.

(** What one request leaves behind when no other request is handled
    between its first line and its last. *)
Record Served : Type := {
  asked : Request;
  answer : Result Response;
  after : Globals;
  log : list effect
}.

Definition serve (rq : Request) (e : Env) (g : Globals) : Served :=
  match handler rq e (start g) with
  | (r, p, l) => {| asked := rq; answer := r; after := globals p; log := l |}
  end.

(** Requests that do not overlap: each is served to its end before the
    next one comes in, each with its own environment. *)
Fixpoint serve_all (rqs : list (Request * Env)) (g : Globals) : Globals * list Served :=
  match rqs with
  | [] => (g, [])
  | (rq, e) :: rest =>
      let s := serve rq e g in
      let '(g', ss) := serve_all rest (after s) in
      (g', s :: ss)
  end.

End Server.

(** ** Vocabulary of the properties *)

Definition is_fetch (x : effect) : bool :=
  match x with
  | CallFetch _ => true
  | _ => false
  end.

(** Number of upstream calls in a log. *)
Definition fetches (l : list effect) : nat := length (filter is_fetch l).

Definition is_write (x : effect) : bool :=
  match x with
  | SetFallback _ _ | SetCache _ _ | SetFailCount _ _ | SetNextTryAt _ _ => true
  | _ => false
  end.



(** The clock readings a resolver takes: [const now = Date.now()] on entry,
    then the one inside [shouldBackoff], made only when a URL resolved. *)
Definition time_on_entry (e : Env) : Z := clock e 0.

Definition time_at_gate (e : Env) : Z := clock e 1.

(** The resource a request resolves, if it is one of the two resolvers. *)
Definition resource (rq : Request) : option Kind :=
  match rq with
  | GetLocations => Some Locations
  | GetStates => Some States
  | _ => None
  end.

Definition resolves (k : Kind) (rq : Request) : bool :=
  match resource rq, k with
  | Some Locations, Locations => true
  | Some States, States => true
  | _, _ => false
  end.

(** Upstream calls made by the resolutions of one resource. *)
Fixpoint live_calls (k : Kind) (ss : list Served) : nat :=
  match ss with
  | [] => 0%nat
  | s :: rest =>
      ((if resolves k (asked s) then fetches (log s) else 0) + live_calls k rest)%nat
  end.

(** Setting the fallback flag and reading a sample file happen on the demo
    path only. *)
Definition is_demo_effect (x : effect) : bool :=
  match x with
  | SetFallback _ true | CallReadFile _ => true
  | _ => false
  end.

(** What a call of [tryRemote] leaves in the log. *)
Definition is_remote_effect (x : effect) : bool :=
  match x with
  | CallFetch _ | Warn _ _ => true
  | _ => false
  end.

(** The [fallbackActive] object of a /config answer. *)
Definition fallbackActive (r : Response) : option value :=
  match body r with
  | Json (VObj fields) => lookup "fallbackActive" fields
  | _ => None
  end.

(** The environment variable named in the error of lines 187 and 233. *)
Definition url_variable (k : Kind) : string :=
  if is_locations k then "LOCATIONS_URL" else "STATES_URL".

(** The process state after [tryRemote] has been called with [url]. *)
Definition called (url : option string) (p : Proc) : Proc :=
  if truthy_opt url then
    {| globals := globals p; ticks := ticks p; calls := S (calls p); draws := draws p |}
  else p.

Section Probe.

Variable cfg : Config.

(** The locator configured for a resource. *)
Definition configured (k : Kind) : string :=
  if is_locations k then LOCATIONS_URL cfg else STATES_URL cfg.

(** [tryRemote] run on its own as the call that consumes the [n]-th
    network answer of the request. *)
Definition tryRemote_at (e : Env) (n : nat) (url : option string) (k : Kind)
  : Result Outcome * Proc * list effect :=
  tryRemote cfg e url k {| globals := initial; ticks := 0; calls := n; draws := 0 |}.

Definition outcome_at (e : Env) (n : nat) (url : option string) (k : Kind) : Outcome :=
  match tryRemote_at e n url k with
  | (Ok out, _, _) => out
  | (Throw err, _, _) => Failed 502 (String_of_error err) None
  end.

Definition effects_at (e : Env) (n : nat) (url : option string) (k : Kind) : list effect :=
  snd (tryRemote_at e n url k).

(** The live call of a resolution: it is the request's first fetch. *)
Definition live_outcome (e : Env) (k : Kind) : Outcome :=
  outcome_at e 0 (toAbs cfg (configured k)) k.

(** A resolution made its live call and the call succeeded. *)
Definition live_ok (e : Env) (k : Kind) (s : Served) : bool :=
  (Nat.ltb 0 (fetches (log s)) && out_ok (live_outcome e k))%bool.

(** The globals a computation leaves, and what it logs. *)
Definition state_after {A} (m : M A) (p : Proc) : Globals := globals (snd (fst (m p))).

Definition log_of {A} (m : M A) (p : Proc) : list effect := snd (m p).


(** A resolution goes down the demo path: no live success, nothing truthy
    in the cache, demo mode on. *)
Definition demo_path (e : Env) (k : Kind) (rq : Request) (g : Globals) : bool :=
  (negb (live_ok e k (serve cfg rq e g))
   && negb (truthy (data (cacheOf k g)))
   && DEMO_CONFIGURED cfg)%bool.

(** Resolutions of [k] in a run whose live call succeeds. *)
Fixpoint live_successes (k : Kind) (rqs : list (Request * Env)) (g : Globals) : nat :=
  match rqs with
  | [] => 0%nat
  | (rq, e) :: rest =>
      let s := serve cfg rq e g in
      ((if (resolves k rq && live_ok e k s)%bool then 1 else 0)
       + live_successes k rest (after s))%nat
  end.

(** The states the process can be in between requests that do not
    overlap: the initial one and whatever a request served to its end
    leaves. [reachable_sys] has the states under overlapping requests. *)
Inductive reachable : Globals -> Prop :=
| reach_initial : reachable initial
| reach_serve rq e g : reachable g -> reachable (after (serve cfg rq e g)).

End Probe.

(** ** Sample deployment *)

Module Sample.

Definition cfg : Config :=
  {| BASE := base_of_env "https://feed.example/";
     LOCATIONS_URL := "/locations";
     STATES_URL := "https://feed.example/states";
     DEMO_CONFIGURED := true;
     POLL_MS := 2000;
     UPSTREAM_TIMEOUT_MS := 3000;
     BACKOFF_AFTER_FAILS := 3;
     BACKOFF_WINDOW_MS := 30000 |}.

(** The same deployment with demo mode switched off. *)
Definition cfg_no_demo : Config :=
  {| BASE := BASE cfg;
     LOCATIONS_URL := LOCATIONS_URL cfg;
     STATES_URL := STATES_URL cfg;
     DEMO_CONFIGURED := false;
     POLL_MS := POLL_MS cfg;
     UPSTREAM_TIMEOUT_MS := UPSTREAM_TIMEOUT_MS cfg;
     BACKOFF_AFTER_FAILS := BACKOFF_AFTER_FAILS cfg;
     BACKOFF_WINDOW_MS := BACKOFF_WINDOW_MS cfg |}.

Definition unavailable : RawResponse :=
  {| r_ok := false; r_status := 503; r_content_type := Some "text/html";
     r_text := Ok "Service Unavailable";
     r_json := Throw {| err_name := "SyntaxError"; err_message := "Unexpected token" |} |}.

(** A 200 answer whose text body is empty. *)
Definition empty_text : RawResponse :=
  {| r_ok := true; r_status := 200; r_content_type := Some "text/csv";
     r_text := Ok "";
     r_json := Throw {| err_name := "SyntaxError"; err_message := "Unexpected end of JSON input" |} |}.

Definition two_states : value :=
  VArr [VObj [("id", VStr "TRE101"); ("state", VStr "3")];
        VObj [("id", VStr "TRE102"); ("state", VStr "0")]].

Definition json_states : RawResponse :=
  {| r_ok := true; r_status := 200; r_content_type := Some "application/json; charset=utf-8";
     r_text := Ok "two states"; r_json := Ok two_states |}.

(** A request served at time [t] (each clock reading one millisecond after
    the last) to which upstream gives the answer [r]. *)
Definition env_at (t : Z) (r : Result RawResponse) : Env :=
  {| clock := fun n => t + Z.of_nat n;
     net := fun _ _ => r;
     files := fun path => Ok ("contents of " ++ path)%string;
     parse_json := fun _ => Ok two_states;
     random := fun n => if Nat.even n then 1 # 8 else 11 # 12;
     url_origin := fun u => Ok u |}.

(** The deployment without a locator for the locations. *)
Definition cfg_no_locations : Config :=
  {| BASE := BASE cfg;
     LOCATIONS_URL := "";
     STATES_URL := STATES_URL cfg;
     DEMO_CONFIGURED := true;
     POLL_MS := POLL_MS cfg;
     UPSTREAM_TIMEOUT_MS := UPSTREAM_TIMEOUT_MS cfg;
     BACKOFF_AFTER_FAILS := BACKOFF_AFTER_FAILS cfg;
     BACKOFF_WINDOW_MS := BACKOFF_WINDOW_MS cfg |}.

(** Four requests for the states, two seconds apart, upstream answering
    503 each time it is asked. *)
Definition four_polls : list (Request * Env) :=
  [(GetStates, env_at 1000 (Ok unavailable));
   (GetStates, env_at 3000 (Ok unavailable));
   (GetStates, env_at 5000 (Ok unavailable));
   (GetStates, env_at 7000 (Ok unavailable))].

(** A state in which the locations resource backs off until time 40000. *)
Definition backing_off : Globals :=
  {| lastLocationsFallback := false;
     lastStatesFallback := false;
     cacheLocations := emptyCache;
     cacheStates := emptyCache;
     locFailCount := 0;
     statesFailCount := 0;
     locNextTryAt := 40000;
     statesNextTryAt := 0 |}.


(** The process after one successful fetch of the states. *)
Definition states_cached : Globals :=
  after (serve cfg GetStates (env_at 1000 (Ok json_states)) initial).

(** The process after one successful fetch of locations that came back as
    an empty text body. *)
Definition empty_cached : Globals :=
  after (serve cfg GetLocations (env_at 1000 (Ok empty_text)) initial).

End Sample.

(** ** The demo states, draw by draw *)

(** The state code an entry gets when its own first draw is the request's
    [n]-th: with a draw below 1/4 it is re-rolled to the candidate picked by
    the next draw, otherwise it stays the baseline code. *)
Definition rerolled_state (e : Env) (n : nat) (baseline : value) : value :=
  if Qltb (random e n) (1 # 4)
  then candidate_at (Qfloor (random e (S n) * 12))
  else baseline.

(** The draw at which the next entry starts. *)
Definition next_draw (e : Env) (n : nat) : nat :=
  if Qltb (random e n) (1 # 4) then S (S n) else S n.

(** Position of the first draw of each entry of a list. *)
Fixpoint draw_positions (e : Env) (n : nat) (xs : list value) : list nat :=
  match xs with
  | [] => []
  | _ :: rest => n :: draw_positions e (next_draw e n) rest
  end.

(** [base.map(...)] as a function of the draws; an entry whose [state]
    cannot be read stops it. *)
Fixpoint reroll_all (e : Env) (n : nat) (xs : list value) : Result (list value) * nat :=
  match xs with
  | [] => (Ok [], n)
  | s :: rest =>
      if Qltb (random e n) (1 # 4) then
        match reroll_all e (S (S n)) rest with
        | (Ok ys, m) =>
            (Ok (VObj (set_field "state" (rerolled_state e n VUndefined) (spread s)) :: ys), m)
        | (Throw err, m) => (Throw err, m)
        end
      else
        match get_state s with
        | Throw err => (Throw err, S n)
        | Ok st =>
            match reroll_all e (S n) rest with
            | (Ok ys, m) =>
                (Ok (VObj (set_field "state" (rerolled_state e n st) (spread s)) :: ys), m)
            | (Throw err, m) => (Throw err, m)
            end
        end
  end.

Definition is_object (v : value) : bool :=
  match v with
  | VObj _ => true
  | _ => false
  end.

(** The baseline state code of an entry; undefined when it has none. *)
Definition state_of (s : value) : value :=
  match get_state s with
  | Ok v => v
  | Throw _ => VUndefined
  end.

(** The fields of an entry other than [state], in their order. *)
Definition others (fields : list (string * value)) : list (string * value) :=
  filter (fun kv => negb (fst kv =? "state")%string) fields.

(** The demo entries as the specification describes them: entry by entry,
    same identity, state code re-rolled or kept. *)
Fixpoint demo_entries (e : Env) (n : nat) (xs : list value) : list value :=
  match xs with
  | [] => []
  | s :: rest =>
      VObj (set_field "state" (rerolled_state e n (state_of s)) (spread s))
      :: demo_entries e (next_draw e n) rest
  end.

(** ** Vocabulary for the behaviour around the claims *)

(** A run of [n] slashes. *)
Fixpoint slashes (n : nat) : string :=
  match n with
  | O => EmptyString
  | S m => String "/" (slashes m)
  end.

Definition starts_with_slash (s : string) : bool :=
  match s with
  | String c _ => Ascii.eqb c "/"
  | EmptyString => false
  end.

Fixpoint ends_with_slash (s : string) : bool :=
  match s with
  | EmptyString => false
  | String c EmptyString => Ascii.eqb c "/"
  | String _ rest => ends_with_slash rest
  end.

(** [c] occurs in [s]. *)
Fixpoint occurs (c : ascii) (s : string) : bool :=
  match s with
  | EmptyString => false
  | String a rest => (Ascii.eqb a c || occurs c rest)%bool
  end.

(** The test of line 101 on a response: its declared content type,
    lowercased, mentions JSON. *)
Definition declares_json (r : RawResponse) : bool :=
  let ct := toLowerCase (type_or_empty (r_content_type r)) in
  (includes "application/json" ct || includes "+json" ct)%bool.

(** What a cache holds fits its content type. *)
Definition cache_coherent (c : Cache) : Prop :=
  contentType c = "application/json"
  \/ ((exists t, data c = VStr t)
      /\ contentType c <> ""
      /\ includes "application/json" (contentType c) = false
      /\ includes "+json" (contentType c) = false).

(** The sample file a resolver reads on the demo path. *)
Definition sample_file (k : Kind) : string :=
  if is_locations k then "sample-data/locations.geojson" else "sample-data/states.json".

(** A top-level field of a JSON answer. *)
Definition json_field (name : string) (r : Response) : option value :=
  match body r with
  | Json (VObj fields) => lookup name fields
  | _ => None
  end.

(** An entry of the [results] object of a /health answer. *)
Definition health_result (name : string) (r : Response) : option value :=
  match json_field "results" r with
  | Some (VObj entries) => lookup name entries
  | _ => None
  end.

(** A poll of resource [k] that finds the gate open at deadline [d] and
    whose live call fails. *)
Definition failing_poll (cfg : Config) (k : Kind) (d : Z) (rqe : Request * Env) : Prop :=
  resource (fst rqe) = Some k
  /\ d <= time_at_gate (snd rqe)
  /\ out_ok (live_outcome cfg (snd rqe) k) = false.

(** ** The client's HTML escaper (app.js) *)

(** [s.replaceAll(c, rep)] for a one-character pattern. *)
Fixpoint replaceAll (c : ascii) (rep : string) (s : string) : string :=
  match s with
  | EmptyString => EmptyString
  | String a rest =>
      if Ascii.eqb a c then (rep ++ replaceAll c rep rest)%string
      else String a (replaceAll c rep rest)
  end.

(** The double quote, which a string literal here cannot hold. *)
Definition dquote : ascii := "034"%char.

(** [escapeHTML(s)] on [String(s)]: the five replacements in the order of
    the source, the ampersand first. *)
Definition escapeHTML (s : string) : string :=
  replaceAll "'" "&#039;"
    (replaceAll dquote "&quot;"
       (replaceAll ">" "&gt;"
          (replaceAll "<" "&lt;"
             (replaceAll "&" "&amp;" s)))).

(** What one character becomes. *)
Definition escape_char (a : ascii) : string :=
  if Ascii.eqb a "&" then "&amp;"
  else if Ascii.eqb a "<" then "&lt;"
  else if Ascii.eqb a ">" then "&gt;"
  else if Ascii.eqb a dquote then "&quot;"
  else if Ascii.eqb a "'" then "&#039;"
  else String a EmptyString.

(** ** More sample deployments *)

Module Sample2.

(** Relative locators and no base to resolve them against. *)
Definition cfg_no_base : Config :=
  {| BASE := base_of_env "";
     LOCATIONS_URL := "/locations";
     STATES_URL := "states";
     DEMO_CONFIGURED := true;
     POLL_MS := 2000;
     UPSTREAM_TIMEOUT_MS := 3000;
     BACKOFF_AFTER_FAILS := 3;
     BACKOFF_WINDOW_MS := 30000 |}.

(** A 200 answer declared as JSON whose body does not parse. *)
Definition broken_json : RawResponse :=
  {| r_ok := true; r_status := 200; r_content_type := Some "Application/JSON";
     r_text := Ok "<html>";
     r_json := Throw {| err_name := "SyntaxError"; err_message := "Unexpected token <" |} |}.

(** A 200 answer with a CSV body. *)
Definition csv_text : RawResponse :=
  {| r_ok := true; r_status := 200; r_content_type := Some "Text/CSV; Charset=UTF-8";
     r_text := Ok "id,lat,lon";
     r_json := Throw {| err_name := "SyntaxError"; err_message := "Unexpected token i" |} |}.

(** A request at time [t] for which the sample files cannot be read. *)
Definition env_no_files (t : Z) (r : Result RawResponse) : Env :=
  {| clock := fun n => t + Z.of_nat n;
     net := fun _ _ => r;
     files := fun _ => Throw {| err_name := "Error"; err_message := "ENOENT" |};
     parse_json := fun _ => Ok Sample.two_states;
     random := fun n => if Nat.even n then 1 # 8 else 11 # 12;
     url_origin := fun u => Ok u |}.

End Sample2.

(** ** Requests that overlap *)

(** An [async] handler runs until its next [await] and is resumed later;
    in between, the handlers of other requests run on the same module-level
    variables. A resolver suspends at its live call (lines 157 and 198,
    inside [tryRemote] at the [fetch] of line 85) and at the read of its
    sample file (line 183, and line 224 inside [readDemoJSON] at line 115).
    Each stretch between two of these points runs without interruption. *)

Section Segments.

Variable cfg : Config.

(** [tryRemote] as far as its first [await]: [fetch] has been called, and
    what the call settles to is handed over when the handler resumes. *)
Definition tryRemote_begin (e : Env) (url : option string) : M (Result RawResponse) :=
  fun p =>
    match fetchWithTimeout e url (UPSTREAM_TIMEOUT_MS cfg) p with
    | (settled, p1, l1) => (Ok settled, p1, l1)
    end.

(** The rest of [tryRemote], from the settled [fetch] on. It suspends
    again to read the body (lines 97, 102 and 105) but touches no
    module-level variable, so it is run in one piece with the continuation
    of the handler that awaits it. *)
Definition tryRemote_end (kind : Kind) (settled : Result RawResponse) : M Outcome :=
  try_catch
    (r <- lift settled ;;
     if negb (r_ok r) then
       let txt := match r_text r with Ok t => t | Throw _ => ""%string end in
       ret (Failed (r_status r) ("Upstream " ++ show_Z (r_status r))%string (Some txt))
     else
       let ct := toLowerCase (type_or_empty (r_content_type r)) in
       if (includes "application/json" ct || includes "+json" ct)%bool then
         d <- lift (r_json r) ;;
         ret (OkJson d)
       else
         text <- lift (r_text r) ;;
         ret (OkText text (if truthy_str ct then ct else "text/plain; charset=utf-8"%string)))
    (fun err =>
       emit (Warn kind ("fetch error: " ++ err_name err ++ " " ++ err_message err)%string) ;;
       ret (Failed 502 (String_of_error err) None)).

(** Where a suspended resolver waits: for its live call, holding the
    [now] of line 154 and what the call will settle to (the environment of
    the request fixes it, the handler sees it when it is resumed), or for
    its sample file. *)
Inductive Pending : Type :=
| AwaitRemote (k : Kind) (now : Z) (settled : Result RawResponse)
| AwaitSample (k : Kind).

(** A stretch of a handler ends with the response or at an [await]. *)
Definition Stretch : Type := (Response + Pending)%type.

(** Lines 171-187 and 212-233 as far as the read of the sample file: the
    cache, the demo fallback up to the call of [readFile], the 500. *)
Definition fall_back (k : Kind) : M Stretch :=
  g1 <- read ;;
  if truthy (data (cacheOf k g1)) then
    let res := res_setHeader "X-Cache" ("hit-" ++ kind_name k) res0 in
    ret (inl (if (contentType (cacheOf k g1) =? "application/json")%string
              then res_json (data (cacheOf k g1)) res
              else res_send (data (cacheOf k g1))
                     (res_type (contentType (cacheOf k g1)) res)))
  else
  if DEMO_CONFIGURED cfg then
    set_fallback k true ;;
    emit (CallReadFile (sample_file k)) ;;
    ret (inr (AwaitSample k))
  else
    ret (inl (res_json (VObj [("error"%string,
                               VStr (url_variable k ++ " failed, and demo mode disabled"))])
                (res_status 500 res0))).

(** Lines 151-157 and 192-198: from the first line of a resolver to the
    call of [tryRemote], or on to the fallbacks when the call is skipped. *)
Definition enter (k : Kind) (e : Env) : M Stretch :=
  set_fallback k false ;;
  let remoteUrl := toAbs cfg (configured cfg k) in
  now <- Date_now e ;;
  g <- read ;;
  go <- (if truthy_opt remoteUrl
         then b <- shouldBackoff e (nextTryAtOf k g) ;; ret (negb b)
         else ret false) ;;
  if go : bool then
    settled <- tryRemote_begin e remoteUrl ;;
    ret (inr (AwaitRemote k now settled))
  else fall_back k.

(** Lines 158-169 and 199-210, then the fallbacks: what a resolver does
    when its live call has settled. *)
Definition after_remote (k : Kind) (e : Env) (now : Z) (settled : Result RawResponse)
  : M Stretch :=
  out <- tryRemote_end k settled ;;
  if out_ok out then
    onSuccess k ;;
    if is_json_type (out_contentType out) then
      set_cache k
        {| data := out_data out;
           contentType := type_or_empty (out_contentType out);
           at_ := now |} ;;
      ret (inl (res_json (out_data out) res0))
    else
      set_cache k
        {| data := of_opt (out_text out);
           contentType := type_or_empty (out_contentType out);
           at_ := now |} ;;
      ret (inl (res_send (of_opt (out_text out))
                  (res_type (type_or_empty (out_contentType out)) res0)))
  else
    emit (Warn k (failure_message out)) ;;
    onFail cfg e k ;;
    fall_back k.

(** Lines 184 and 224-230: what a resolver does with its sample file. *)
Definition after_sample (k : Kind) (e : Env) : M Response :=
  let res := res_setHeader "X-Demo-Fallback" (kind_name k) res0 in
  text <- lift (files e (sample_file k)) ;;
  if is_locations k then
    ret (res_send (VStr text) (res_type "application/json" res))
  else
    base <- lift (parse_json e text) ;;
    randomized <- array_map (reroll e) base ;;
    ret (res_json randomized res).

Definition resume (e : Env) (at_await : Pending) : M Stretch :=
  match at_await with
  | AwaitRemote k now settled => after_remote k e now settled
  | AwaitSample k => r <- after_sample k e ;; ret (inl r)
  end.

(** A stretch followed at once by the next one, if there is one. *)
Definition and_then (e : Env) (x : Stretch) : M Stretch :=
  match x with
  | inl r => ret (inl r)
  | inr at_await => resume e at_await
  end.

(** A resolver that nothing interrupts: its three stretches back to back. *)
Definition uninterrupted (k : Kind) (e : Env) : M Stretch :=
  x <- enter k e ;;
  y <- and_then e x ;;
  and_then e y.

(** *** The process with its suspended handlers *)

(** A suspended handler: its request's environment, the readings it has
    used up, and where it waits. *)
Record Task : Type := {
  task_env : Env;
  task_ticks : nat;
  task_calls : nat;
  task_draws : nat;
  task_at : Pending
}.

Record System : Type := {
  shared : Globals;
  waiting : list Task
}.

(** What the event loop runs next: the handler of a request that comes
    in, or the continuation of the [i]-th suspended handler. *)
Inductive Event : Type :=
| Arrive (rq : Request) (e : Env)
| Resume (i : nat).

(** What one stretch leaves behind: the resource whose resolver ran, the
    response if the handler finished (or what it threw), and the log. *)
Record Report : Type := {
  step_kind : option Kind;
  answered : option (Result Response);
  step_log : list effect
}.

Definition proc_of (g : Globals) (t : Task) : Proc :=
  {| globals := g; ticks := task_ticks t; calls := task_calls t; draws := task_draws t |}.

Fixpoint remove_nth {A} (i : nat) (xs : list A) : list A :=
  match xs, i with
  | [], _ => []
  | _ :: rest, O => rest
  | x :: rest, S j => x :: remove_nth j rest
  end.

(** The end of a stretch: the globals are as the stretch left them, and a
    handler that reached an [await] joins the suspended ones. *)
Definition settle (k : Kind) (e : Env) (others : list Task)
  (out : Result Stretch * Proc * list effect) : System * Report :=
  match out with
  | (Ok (inl r), p, l) =>
      ({| shared := globals p; waiting := others |},
       {| step_kind := Some k; answered := Some (Ok r); step_log := l |})
  | (Ok (inr at_await), p, l) =>
      ({| shared := globals p;
          waiting := others ++ [{| task_env := e; task_ticks := ticks p;
                                   task_calls := calls p; task_draws := draws p;
                                   task_at := at_await |}] |},
       {| step_kind := Some k; answered := None; step_log := l |})
  | (Throw err, p, l) =>
      ({| shared := globals p; waiting := others |},
       {| step_kind := Some k; answered := Some (Throw err); step_log := l |})
  end.

Definition kind_of (at_await : Pending) : Kind :=
  match at_await with
  | AwaitRemote k _ _ => k
  | AwaitSample k => k
  end.

(** One turn of the event loop: a request comes in and its handler runs
    to its first [await], or a suspended handler is resumed and runs to its
    next [await] or to its end, on the globals as the turn before left
    them. Any suspended handler may be resumed at any turn. The proxy, the
    probe and /config are served in one piece: /config has no [await], and
    the other two neither read nor write a module-level variable. *)
Definition sys_step (ev : Event) (sys : System) : System * Report :=
  match ev with
  | Arrive rq e =>
      match resource rq with
      | Some k => settle k e (waiting sys) (enter k e (start (shared sys)))
      | None =>
          let s := serve cfg rq e (shared sys) in
          ({| shared := after s; waiting := waiting sys |},
           {| step_kind := None; answered := Some (answer s); step_log := log s |})
      end
  | Resume i =>
      match nth_error (waiting sys) i with
      | Some t =>
          settle (kind_of (task_at t)) (task_env t) (remove_nth i (waiting sys))
            (resume (task_env t) (task_at t) (proc_of (shared sys) t))
      | None => (sys, {| step_kind := None; answered := None; step_log := [] |})
      end
  end.

Fixpoint run_events (evs : list Event) (sys : System) : System * list Report :=
  match evs with
  | [] => (sys, [])
  | ev :: rest =>
      let '(sys1, r) := sys_step ev sys in
      let '(sys2, rs) := run_events rest sys1 in
      (sys2, r :: rs)
  end.

End Segments.

(** The process at start: nothing suspended. *)
Definition idle : System := {| shared := initial; waiting := [] |}.

(** Two kinds name the same resource when the test [kind === "locations"]
    does not tell them apart. *)
Definition same_resource (k k' : Kind) : bool := Bool.eqb (is_locations k) (is_locations k').

Definition awaits_remote (k : Kind) (t : Task) : bool :=
  match task_at t with
  | AwaitRemote k' _ _ => same_resource k k'
  | AwaitSample _ => false
  end.

(** Live calls of a resource that have not settled yet. *)
Definition in_flight (k : Kind) (ts : list Task) : nat := length (filter (awaits_remote k) ts).

(** A stretch of a resolver of resource [k]. *)
Definition about (k : Kind) (r : Report) : bool :=
  match step_kind r with
  | Some k' => same_resource k k'
  | None => false
  end.

(** Upstream calls made by the resolvers of one resource in a run. *)
Fixpoint live_calls_in (k : Kind) (rs : list Report) : nat :=
  match rs with
  | [] => 0%nat
  | r :: rest => ((if about k r then fetches (step_log r) else 0) + live_calls_in k rest)%nat
  end.

(** What the [fetch] of a call of [tryRemote] settles to when it is the
    request's [n]-th, and what the rest of [tryRemote] makes of it: the
    outcome it returns and the warning it logs. *)
Definition settles_to (cfg : Config) (e : Env) (n : nat) (url : option string)
  : Result RawResponse :=
  match tryRemote_begin cfg e url {| globals := initial; ticks := 0; calls := n; draws := 0 |} with
  | (Ok settled, _, _) => settled
  | (Throw err, _, _) => Throw err
  end.

Definition ended (k : Kind) (settled : Result RawResponse) : Outcome :=
  match tryRemote_end k settled (start initial) with
  | (Ok out, _, _) => out
  | (Throw err, _, _) => Failed 502 (String_of_error err) None
  end.

Definition warned (k : Kind) (settled : Result RawResponse) : list effect :=
  snd (tryRemote_end k settled (start initial)).

(** The responses of a run, in the order they were sent. *)
Definition answers (rs : list Report) : list (Result Response) :=
  flat_map (fun r => match answered r with Some a => [a] | None => [] end) rs.


(** An event that lets no request for resource [k] in while a live call
    for [k] is still out. *)
Definition no_overlap (k : Kind) (ev : Event) (sys : System) : Prop :=
  forall rq e, ev = Arrive rq e -> resolves k rq = true -> in_flight k (waiting sys) = 0%nat.

(** The states of the process under every order of arrivals and
    resumptions. *)
Inductive reachable_sys (cfg : Config) : System -> Prop :=
| reach_idle : reachable_sys cfg idle
| reach_step ev sys : reachable_sys cfg sys -> reachable_sys cfg (fst (sys_step cfg ev sys)).

(** ... and under those in which the requests for resource [k] do not
    overlap a live call for [k]. *)
Inductive reachable_apart (cfg : Config) (k : Kind) : System -> Prop :=
| apart_idle : reachable_apart cfg k idle
| apart_step ev sys :
    reachable_apart cfg k sys -> no_overlap k ev sys ->
    reachable_apart cfg k (fst (sys_step cfg ev sys)).

(** The variables of one resource: its flag, cache, counter and deadline. *)
Definition view (k : Kind) (g : Globals) : bool * Cache * Z * Z :=
  (fallbackOf k g, cacheOf k g, failCountOf k g, nextTryAtOf k g).

(** The suspended handlers of the resolver of a resource. *)
Definition of_resource (k : Kind) (t : Task) : bool := same_resource k (kind_of (task_at t)).

Definition suspended (k : Kind) (ts : list Task) : list Task := filter (of_resource k) ts.

(** A suspended handler resumed and followed to its end with nothing in
    between. *)
Definition complete (cfg : Config) (e : Env) (at_await : Pending) : M Stretch :=
  y <- resume cfg e at_await ;; and_then cfg e y.

(** How a handler ended, if it did, and the variables of resource [k] as
    it left them. *)
Definition ending (k : Kind) (m : Result Stretch * Proc * list effect)
  : option (Result Response) * (bool * Cache * Z * Z) :=
  (match fst (fst m) with
   | Ok (inl r) => Some (Ok r)
   | Ok (inr _) => None
   | Throw err => Some (Throw err)
   end,
   view k (globals (snd (fst m)))).

(** What holds of the flag of a resource while its requests keep clear of
    its live calls: at most one call is out, the flag is false while one is,
    and the flag is true only with demo mode on and nothing truthy cached. *)
Definition flag_sound (cfg : Config) (k : Kind) (sys : System) : Prop :=
  (in_flight k (waiting sys) <= 1)%nat
  /\ (in_flight k (waiting sys) = 1%nat -> fallbackOf k (shared sys) = false)
  /\ (fallbackOf k (shared sys) = true ->
      DEMO_CONFIGURED cfg = true /\ truthy (data (cacheOf k (shared sys))) = false).

(** ** Sample runs with overlapping requests *)

Module Overlap.

Import Sample.

(** Two polls of the locations fail one after the other. Then a request
    comes in at 5000 and another at 5010, both call upstream; the call of
    the second fails first, which is the third failure and sets the
    deadline 35012. *)
Definition until_trip : list Event :=
  [Arrive GetLocations (env_at 1000 (Ok unavailable)); Resume 0; Resume 0;
   Arrive GetLocations (env_at 3000 (Ok unavailable)); Resume 0; Resume 0;
   Arrive GetLocations (env_at 5000 (Ok json_states));
   Arrive GetLocations (env_at 5010 (Ok unavailable));
   Resume 1].

Definition tripped : System := fst (run_events cfg until_trip idle).

(** Then the call of the first settles, with a 200. *)
Definition late_success : System := fst (sys_step cfg (Resume 0) tripped).

(** A request at 1000 whose live call fails and a request at 1010 whose
    live call succeeds; the first is served to its end, the sample file
    included, before the call of the second settles. *)
Definition slow_success : list Event :=
  [Arrive GetLocations (env_at 1000 (Ok unavailable));
   Arrive GetLocations (env_at 1010 (Ok json_states));
   Resume 0; Resume 1; Resume 0].

(** What happens while a request for the locations, come in at 1000 with
    upstream down, is served: a request for the states comes in and is
    answered from upstream, and /config is asked. *)
Definition meanwhile : list Event :=
  [Arrive GetStates (env_at 1005 (Ok json_states));
   Resume 0;
   Arrive GetConfig (env_at 1010 (Ok unavailable));
   Resume 0;
   Resume 0].

End Overlap.

(** ** Running the monad *)

Section Run.

Variable cfg : Config.

(** [tryRemote] never throws and touches neither the globals nor the
    clock; its outcome depends only on which network answer it consumes. *)
Lemma tryRemote_eq (e : Env) (url : option string) (k : Kind) (p : Proc) :
  tryRemote cfg e url k p
  = (Ok (outcome_at cfg e (calls p) url k), called url p, effects_at cfg e (calls p) url k).
Proof.
  unfold outcome_at, effects_at, tryRemote_at, called, tryRemote, try_catch,
    fetchWithTimeout, fetch, bind, lift, ret, emit.
  destruct url as [u|]; cbn; [|reflexivity].
  destruct (truthy_str u); cbn; [|reflexivity].
  destruct (net e (calls p) u) as [r|err]; cbn; [|reflexivity].
  destruct (r_ok r); cbn; [|reflexivity].
  destruct (_ || _)%bool; cbn.
  - destruct (r_json r); reflexivity.
  - destruct (r_text r); reflexivity.
Qed.

(** What [tryRemote] logs: the call, if the URL is worth one, and then at
    most a warning. *)
Lemma effects_at_shape (e : Env) (n : nat) (url : option string) (k : Kind) :
  exists w,
    effects_at cfg e n url k
    = (if truthy_opt url then [CallFetch (show_opt url)] else []) ++ w
    /\ (w = [] \/ exists m, w = [Warn k m]).
Proof.
  unfold effects_at, tryRemote_at, tryRemote, try_catch,
    fetchWithTimeout, fetch, bind, lift, ret, emit.
  destruct url as [u|]; cbn.
  - destruct (truthy_str u); cbn.
    + destruct (net e n u) as [r|err]; cbn.
      * destruct (r_ok r); cbn.
        -- destruct (_ || _)%bool; cbn.
           ++ destruct (r_json r); cbn; eauto.
           ++ destruct (r_text r); cbn; eauto.
        -- eauto.
      * eauto.
    + eauto.
  - eauto.
Qed.

Lemma effects_at_fetches e n url k :
  fetches (effects_at cfg e n url k) = if truthy_opt url then 1%nat else 0%nat.
Proof.
  destruct (effects_at_shape e n url k) as (w & -> & [-> | [m ->]]);
    destruct (truthy_opt url); reflexivity.
Qed.

Lemma effects_at_no_write e n url k :
  filter is_write (effects_at cfg e n url k) = [].
Proof.
  destruct (effects_at_shape e n url k) as (w & -> & [-> | [m ->]]);
    destruct (truthy_opt url); reflexivity.
Qed.


Lemma effects_at_In e n url k x :
  In x (effects_at cfg e n url k) ->
  (truthy_opt url = true /\ x = CallFetch (show_opt url)) \/ exists m, x = Warn k m.
Proof.
  destruct (effects_at_shape e n url k) as (w & -> & [-> | [m ->]]);
    destruct (truthy_opt url); cbn; intuition eauto.
Qed.

Lemma fetches_app l1 l2 : fetches (l1 ++ l2) = (fetches l1 + fetches l2)%nat.
Proof. unfold fetches. now rewrite filter_app, length_app. Qed.


(** The demo randomisation only consumes draws. *)
Lemma mapM_reroll_eq (e : Env) (xs : list value) (p : Proc) :
  mapM (reroll e) xs p
  = (fst (reroll_all e (draws p) xs),
     {| globals := globals p; ticks := ticks p; calls := calls p;
        draws := snd (reroll_all e (draws p) xs) |},
     []).
Proof.
  revert p. induction xs as [|s rest IH]; intros p.
  - destruct p; reflexivity.
  - cbn [mapM reroll_all]. unfold bind at 1. unfold reroll at 1.
    unfold bind, Math_random, lift, ret, rerolled_state. cbn.
    destruct (Qltb (random e (draws p)) (1 # 4)) eqn:Hq; cbn.
    + rewrite IH. cbn.
      destruct (reroll_all e (S (S (draws p))) rest) as [[ys|err] m]; reflexivity.
    + destruct (get_state s) as [st|err]; cbn; [|reflexivity].
      rewrite IH. cbn.
      destruct (reroll_all e (S (draws p)) rest) as [[ys|err] m]; reflexivity.
Qed.

Lemma fetches_cons x l :
  fetches (x :: l) = ((if is_fetch x then 1 else 0) + fetches l)%nat.
Proof. unfold fetches. cbn. destruct (is_fetch x); reflexivity. Qed.

Lemma fetches_nil : fetches [] = 0%nat.
Proof. reflexivity. Qed.

End Run.

(** Counts the upstream calls of a log built by a handler. *)
Ltac count_fetches :=
  repeat first [ rewrite fetches_cons | rewrite fetches_app | rewrite fetches_nil
               | rewrite effects_at_fetches ];
  cbn.

(** Rewrites with the tests whose value is known. *)
Ltac use_tests :=
  repeat match goal with
         | H : ?b = _ |- context [?b] => rewrite H
         end;
  cbn.
Arguments fetches : simpl never.

Arguments tryRemote : simpl never.
Arguments outcome_at : simpl never.
Arguments effects_at : simpl never.
Arguments live_outcome : simpl never.
Arguments toAbs : simpl never.
Arguments truthy : simpl never.
Arguments show_Z : simpl never.
Arguments Qfloor : simpl never.
Arguments rerolled_state : simpl never.

(** Unfolds a handler down to the primitives of the monad. *)
Ltac unfold_handler :=
  unfold serve, handler, api_locations, api_states, api_proxy, health, config,
    or_else, shouldBackoff, onSuccess, onFail, readDemoJSON, array_map,
    set_fallback, set_cache, set_failCount, set_nextTryAt,
    read, write, emit, lift, ret, throw, readFile, Date_now, bind.

(** One step of symbolic execution: replace a call of [tryRemote] by its
    result, use a test whose value is known, or split on the next test. *)
Ltac run_step :=
  match goal with
  | |- context [tryRemote ?c ?e ?u ?k ?p] =>
      rewrite (tryRemote_eq c e u k p); unfold called
  | |- context [mapM (reroll ?e) ?xs ?p] =>
      rewrite (mapM_reroll_eq e xs p)
  | H : ?b = _ |- context [match ?b with _ => _ end] => rewrite H
  | |- context [match ?x with _ => _ end] =>
      lazymatch x with
      | context [match _ with _ => _ end] => fail
      | context [tryRemote] => fail
      | context [mapM] => fail
      | _ => destruct x eqn:?
      end
  end.

Ltac run := unfold_handler; cbn; repeat (run_step; cbn).

(** ** Running the stretches *)

Arguments tryRemote_begin : simpl never.
Arguments tryRemote_end : simpl never.
Arguments ended : simpl never.
Arguments warned : simpl never.
Arguments settles_to : simpl never.
Arguments in_flight : simpl never.




Lemma in_flight_app k a b : in_flight k (a ++ b) = (in_flight k a + in_flight k b)%nat.
Proof. unfold in_flight. now rewrite filter_app, length_app. Qed.

(** Resuming a handler takes it off the list of the suspended ones. *)
Lemma in_flight_remove k ws : forall i t,
  nth_error ws i = Some t ->
  in_flight k ws = ((if awaits_remote k t then 1 else 0) + in_flight k (remove_nth i ws))%nat.
Proof.
  unfold in_flight.
  induction ws as [|w ws IH]; intros [|i] t H; cbn in *; try discriminate.
  - inversion H; subst. destruct (awaits_remote k t); reflexivity.
  - specialize (IH i t H). destruct (awaits_remote k w), (awaits_remote k t); cbn in *; lia.
Qed.

Section Parts.

Variable cfg : Config.

Lemma tryRemote_begin_eq e url p :
  tryRemote_begin cfg e url p
  = (Ok (settles_to cfg e (calls p) url), called url p,
     if truthy_opt url then [CallFetch (show_opt url)] else []).
Proof.
  unfold settles_to, tryRemote_begin, fetchWithTimeout, fetch, called.
  destruct url as [u|]; cbn; [|reflexivity].
  destruct (truthy_str u); reflexivity.
Qed.

(** The rest of [tryRemote] touches neither the globals nor a counter. *)
Lemma tryRemote_end_eq k settled p :
  tryRemote_end k settled p = (Ok (ended k settled), p, warned k settled).
Proof.
  unfold ended, warned, tryRemote_end, try_catch, bind, lift, ret, emit.
  destruct settled as [r|err]; cbn; [|reflexivity].
  destruct (r_ok r); cbn; [|reflexivity].
  destruct (_ || _)%bool; cbn.
  - destruct (r_json r); reflexivity.
  - destruct (r_text r); reflexivity.
Qed.

Lemma warned_shape k settled :
  warned k settled = [] \/ exists m, warned k settled = [Warn k m].
Proof.
  unfold warned, tryRemote_end, try_catch, bind, lift, ret, emit.
  destruct settled as [r|err]; cbn; [|eauto].
  destruct (r_ok r); cbn; [|eauto].
  destruct (_ || _)%bool; cbn.
  - destruct (r_json r); cbn; eauto.
  - destruct (r_text r); cbn; eauto.
Qed.

Lemma warned_In k settled x : In x (warned k settled) -> exists m, x = Warn k m.
Proof.
  destruct (warned_shape k settled) as [-> | [m ->]]; cbn; [intros []|].
  intros [<- | []]. eauto.
Qed.

(** [tryRemote] is its two parts, one after the other. *)
Lemma tryRemote_split e url k p :
  tryRemote cfg e url k p
  = (settled <- tryRemote_begin cfg e url ;; tryRemote_end k settled) p.
Proof.
  unfold bind at 1. rewrite tryRemote_begin_eq, tryRemote_end_eq.
  unfold ended, warned, settles_to, tryRemote_begin, tryRemote_end, tryRemote, try_catch,
    fetchWithTimeout, fetch, called, bind, lift, ret, emit.
  destruct url as [u|]; cbn; [|reflexivity].
  destruct (truthy_str u); cbn; [|reflexivity].
  destruct (net e (calls p) u) as [r|err]; cbn; [|reflexivity].
  destruct (r_ok r); cbn; [|reflexivity].
  destruct (_ || _)%bool; cbn.
  - destruct (r_json r); reflexivity.
  - destruct (r_text r); reflexivity.
Qed.

Lemma outcome_at_ended e n url k :
  outcome_at cfg e n url k = ended k (settles_to cfg e n url).
Proof.
  pose proof (tryRemote_split e url k
                {| globals := initial; ticks := 0; calls := n; draws := 0 |}) as H.
  rewrite tryRemote_eq in H. unfold bind in H.
  rewrite tryRemote_begin_eq, tryRemote_end_eq in H. cbn in H.
  inversion H. reflexivity.
Qed.

Lemma effects_at_warned e n url k :
  effects_at cfg e n url k
  = (if truthy_opt url then [CallFetch (show_opt url)] else [])
    ++ warned k (settles_to cfg e n url).
Proof.
  pose proof (tryRemote_split e url k
                {| globals := initial; ticks := 0; calls := n; draws := 0 |}) as H.
  rewrite tryRemote_eq in H. unfold bind in H.
  rewrite tryRemote_begin_eq, tryRemote_end_eq in H. cbn in H.
  inversion H. reflexivity.
Qed.

End Parts.

(** Unfolds a turn of the event loop down to the primitives of the monad. *)
Ltac unfold_stretch :=
  unfold sys_step, settle, proc_of, uninterrupted, and_then, resume,
    enter, after_remote, after_sample, fall_back.

Ltac run_stretch_step :=
  match goal with
  | |- context [tryRemote_begin ?c ?e ?u ?p] =>
      rewrite (tryRemote_begin_eq c e u p); unfold called
  | |- context [tryRemote_end ?k ?s ?p] =>
      rewrite (tryRemote_end_eq k s p)
  | |- context [outcome_at ?c ?e ?n ?u ?k] =>
      rewrite (outcome_at_ended c e n u k)
  | |- context [effects_at ?c ?e ?n ?u ?k] =>
      rewrite (effects_at_warned c e n u k)
  | _ => run_step
  end.

Ltac run_stretch := unfold_stretch; unfold_handler; cbn; repeat (run_stretch_step; cbn).



(** A member of the log of a stretch, case by case. *)
Ltac stretch_log H :=
  repeat first [ apply in_app_or in H; destruct H as [H | H]
               | apply warned_In in H; destruct H as [? H]; try discriminate H
               | apply effects_at_In in H;
                 destruct H as [[? H] | [? H]]; try discriminate H
               | destruct H as [H | H]; try discriminate H
               | contradiction H ].

Section Turns.

Variable cfg : Config.

(** The stretches of a resolver, run back to back, are its handler. *)
Lemma uninterrupted_is_handler rq k e p :
  resource rq = Some k ->
  uninterrupted cfg k e p = (r <- handler cfg rq e ;; ret (inl r)) p.
Proof.
  intros Hk. destruct rq; inversion Hk; subst k.
  all: run_stretch.
  all: rewrite <- ?app_assoc; cbn; try reflexivity.
Qed.


(** The live call is made in the stretch that starts the handler, under
    the gate as it stands when the request comes in. *)
Lemma arrival_fetches rq k e sys :
  resource rq = Some k ->
  fetches (step_log (snd (sys_step cfg (Arrive rq e) sys)))
  = if (truthy_opt (toAbs cfg (configured cfg k))
        && negb (clock e 1 <? nextTryAtOf k (shared sys)))%bool
    then 1%nat else 0%nat.
Proof.
  intros Hk.
  destruct rq; inversion Hk; subst k; unfold configured, nextTryAtOf; cbn -[Z.ltb].
  all: run_stretch; count_fetches; use_tests; reflexivity || discriminate.
Qed.

(** A handler that is resumed calls upstream no more. *)
Lemma resume_no_fetch i sys :
  fetches (step_log (snd (sys_step cfg (Resume i) sys))) = 0%nat.
Proof.
  cbn. destruct (nth_error (waiting sys) i) as [[te tt tc td [k now settled|k]]|]; [| |reflexivity].
  - destruct (warned_shape k settled) as [Hw | [m Hw]].
    all: destruct k; run_stretch; rewrite ?Hw; count_fetches; reflexivity.
  - destruct k; run_stretch; count_fetches; reflexivity.
Qed.

(** One turn of the event loop inside a window, no live call of the
    resource being out: the deadline stays, no call is started. *)
Lemma window_turn k ev sys :
  k <> Proxy ->
  in_flight k (waiting sys) = 0%nat ->
  (forall rq e, ev = Arrive rq e -> resolves k rq = true ->
                time_at_gate e < nextTryAtOf k (shared sys)) ->
  nextTryAtOf k (shared (fst (sys_step cfg ev sys))) = nextTryAtOf k (shared sys)
  /\ in_flight k (waiting (fst (sys_step cfg ev sys))) = 0%nat
  /\ (about k (snd (sys_step cfg ev sys)) = true ->
      fetches (step_log (snd (sys_step cfg ev sys))) = 0%nat).
Proof.
  intros Hk Hnone Hgate. destruct ev as [rq e | i].
  - assert (Hlt : resolves k rq = true -> (clock e 1 <? nextTryAtOf k (shared sys)) = true).
    { intros Hr. apply Z.ltb_lt. exact (Hgate rq e eq_refl Hr). }
    clear Hgate. revert Hlt.
    destruct k; try congruence; destruct rq; unfold nextTryAtOf, about; cbn -[Z.ltb].
    all: intros Hlt; try specialize (Hlt eq_refl).
    all: run_stretch.
    all: try match goal with
             | H : negb (_ <? _) = true |- _ => rewrite Hlt in H; discriminate H
             end.
    all: rewrite ?in_flight_app, ?Hnone; cbn.
    all: repeat split; try reflexivity; try discriminate.
    all: try (intros _; count_fetches; reflexivity).
  - cbn. destruct (nth_error (waiting sys) i) as [t|] eqn:Ht.
    2:{ cbn. repeat split; assumption. }
    pose proof (in_flight_remove k _ _ _ Ht) as Hrem. rewrite Hnone in Hrem.
    assert (Hrest : in_flight k (remove_nth i (waiting sys)) = 0%nat)
      by (destruct (awaits_remote k t); lia).
    assert (Ht' : awaits_remote k t = false) by (destruct (awaits_remote k t); [lia|reflexivity]).
    clear Hrem. revert Ht'. unfold awaits_remote.
    destruct t as [te tt tc td [k' now settled|k']]; cbn [task_at task_env].
    + intros Hother.
      destruct (warned_shape k' settled) as [Hw | [m Hw]].
      all: destruct k; try congruence; destruct k'; try discriminate Hother.
      all: unfold nextTryAtOf, about; cbn.
      all: run_stretch.
      all: rewrite ?in_flight_app, ?Hrest; cbn.
      all: repeat split; try reflexivity; try discriminate.
    + intros _.
      destruct k; try congruence; destruct k'.
      all: unfold nextTryAtOf, about; cbn.
      all: run_stretch.
      all: rewrite ?in_flight_app, ?Hrest; cbn.
      all: repeat split; try reflexivity; try discriminate.
      all: intros _; count_fetches; reflexivity.
Qed.

(** ... and so over any run: while no live call of the resource is out
    and every resolution of it reads a clock before the deadline, none of
    them calls upstream, the deadline stays and no call gets out. *)
Lemma window_holds_overlapping k evs :
  k <> Proxy ->
  forall sys,
    in_flight k (waiting sys) = 0%nat ->
    (forall rq e, In (Arrive rq e) evs -> resolves k rq = true ->
                  time_at_gate e < nextTryAtOf k (shared sys)) ->
    live_calls_in k (snd (run_events cfg evs sys)) = 0%nat
    /\ nextTryAtOf k (shared (fst (run_events cfg evs sys))) = nextTryAtOf k (shared sys)
    /\ in_flight k (waiting (fst (run_events cfg evs sys))) = 0%nat.
Proof.
  intros Hk. induction evs as [|ev rest IH]; intros sys Hnone Hall; [repeat split; assumption|].
  cbn [run_events].
  destruct (window_turn k ev sys Hk Hnone) as (Hd & Hn & Hf).
  { intros rq e -> Hr. apply (Hall rq e); [left; reflexivity|exact Hr]. }
  destruct (sys_step cfg ev sys) as [sys1 r] eqn:Hstep. cbn [fst snd] in *.
  destruct (IH sys1 Hn) as (Hc & Hd' & Hn').
  { intros rq e Hin Hr. rewrite Hd. apply (Hall rq e); [right; exact Hin|exact Hr]. }
  destruct (run_events cfg rest sys1) as [sys2 rs]. cbn [fst snd] in *.
  repeat split; [|congruence|exact Hn'].
  cbn [live_calls_in]. rewrite Hc.
  destruct (about k r); [rewrite Hf by reflexivity|]; reflexivity.
Qed.

(** A deadline written in a turn is the one in force at its end. *)
Lemma turn_deadline_written k ev sys D :
  In (SetNextTryAt k D) (step_log (snd (sys_step cfg ev sys))) ->
  nextTryAtOf k (shared (fst (sys_step cfg ev sys))) = D.
Proof.
  destruct ev as [rq e | i].
  - destruct rq; unfold nextTryAtOf; cbn -[Z.ltb].
    all: run_stretch; intros H; stretch_log H.
  - cbn. destruct (nth_error (waiting sys) i) as [[te tt tc td [k' now settled|k']]|];
      cbn [task_at task_env]; [| |intros []].
    + destruct k'; unfold nextTryAtOf; cbn.
      all: run_stretch; intros H; stretch_log H.
      all: inversion H; subst; try reflexivity.
      all: match goal with Hb : is_locations _ = _ |- _ => discriminate Hb end.
    + destruct k'; unfold nextTryAtOf; cbn.
      all: run_stretch; intros H; stretch_log H.
Qed.

(** A resolver starts by putting its flag to false, whatever is suspended. *)
Lemma arrival_clears_flag_first rq k e sys :
  resource rq = Some k ->
  hd_error (step_log (snd (sys_step cfg (Arrive rq e) sys))) = Some (SetFallback k false).
Proof.
  intros Hk. destruct rq; inversion Hk; subst k.
  all: run_stretch; reflexivity.
Qed.

(** The turn that puts a flag to true: demo mode is on, the cache holds
    nothing truthy and is left alone, and the turn ends at the read of the
    sample file, nothing answered yet. *)
Lemma flag_set_in_turn k ev sys :
  In (SetFallback k true) (step_log (snd (sys_step cfg ev sys))) ->
  DEMO_CONFIGURED cfg = true
  /\ truthy (data (cacheOf k (shared (fst (sys_step cfg ev sys))))) = false
  /\ cacheOf k (shared (fst (sys_step cfg ev sys))) = cacheOf k (shared sys)
  /\ fallbackOf k (shared (fst (sys_step cfg ev sys))) = true
  /\ answered (snd (sys_step cfg ev sys)) = None.
Proof.
  destruct ev as [rq e | i].
  - destruct rq; unfold fallbackOf, cacheOf; cbn -[Z.ltb].
    all: run_stretch; intros H; stretch_log H.
    all: inversion H; subst; cbn in *; try discriminate.
    all: repeat split; try reflexivity; try assumption.
  - cbn. destruct (nth_error (waiting sys) i) as [[te tt tc td [k' now settled|k']]|];
      cbn [task_at task_env]; [| |intros []].
    + destruct k'; unfold fallbackOf, cacheOf; cbn.
      all: run_stretch; intros H; stretch_log H.
      all: inversion H; subst; cbn in *; try discriminate.
      all: repeat split; try reflexivity; try assumption.
    + destruct k'; unfold fallbackOf, cacheOf; cbn.
      all: run_stretch; intros H; stretch_log H.
Qed.

(** One turn of the event loop that lets no request for the resource in
    while a live call for it is out. *)
Lemma flag_sound_turn k ev sys :
  k <> Proxy ->
  no_overlap k ev sys ->
  flag_sound cfg k sys ->
  flag_sound cfg k (fst (sys_step cfg ev sys)).
Proof.
  intros Hk Hapart (Hle & Hfl & Hinv). unfold flag_sound.
  destruct ev as [rq e | i].
  - assert (Hnone : resolves k rq = true -> in_flight k (waiting sys) = 0%nat)
      by (intros Hr; exact (Hapart rq e eq_refl Hr)).
    clear Hapart. revert Hnone Hfl Hinv.
    destruct k; try congruence; destruct rq; unfold fallbackOf, cacheOf; cbn -[Z.ltb].
    all: intros Hnone Hfl Hinv; try specialize (Hnone eq_refl).
    all: run_stretch.
    all: rewrite ?in_flight_app; cbn; rewrite ?Nat.add_0_r.
    all: try match goal with H : in_flight _ _ = 0%nat |- _ => rewrite H end.
    all: repeat split; intros; try discriminate; try assumption; try lia; auto.
    all: try (apply Hinv; assumption).
  - clear Hapart. cbn. destruct (nth_error (waiting sys) i) as [t|] eqn:Ht.
    2:{ exact (conj Hle (conj Hfl Hinv)). }
    pose proof (in_flight_remove k _ _ _ Ht) as Hrem.
    revert Hrem Hfl Hinv. unfold awaits_remote.
    destruct t as [te tt tc td [k' now settled|k']]; cbn [task_at task_env].
    + destruct k; try congruence; destruct k'; unfold fallbackOf, cacheOf; cbn.
      all: intros Hrem Hfl Hinv.
      all: run_stretch.
      all: rewrite ?in_flight_app; cbn; rewrite ?Nat.add_0_r.
      all: repeat split; intros; try discriminate; try assumption; try lia; auto.
      all: try (apply Hinv; assumption).
      all: try (apply Hfl; lia).
      all: try (assert (Hf : false = true) by (rewrite <- Hfl by lia; assumption);
                discriminate Hf).
    + destruct k; try congruence; destruct k'; unfold fallbackOf, cacheOf; cbn.
      all: intros Hrem Hfl Hinv.
      all: run_stretch.
      all: rewrite ?in_flight_app; cbn; rewrite ?Nat.add_0_r.
      all: repeat split; intros; try discriminate; try assumption; try lia; auto.
      all: try (apply Hinv; assumption).
      all: try (apply Hfl; lia).
Qed.

(** The counters stay in range under every order of arrivals and
    resumptions: [onFail] counts and wraps in one stretch. *)
Lemma counters_in_range_sys sys :
  reachable_sys cfg sys ->
  (0 <= locFailCount (shared sys) < Z.max 1 (BACKOFF_AFTER_FAILS cfg))
  /\ (0 <= statesFailCount (shared sys) < Z.max 1 (BACKOFF_AFTER_FAILS cfg)).
Proof.
  intros Hr. induction Hr as [|ev sys Hr IH]; [cbn; lia|].
  destruct IH as [Hl Hs]. revert Hl Hs.
  destruct ev as [rq e | i].
  - destruct rq; run_stretch; intros; lia.
  - cbn. destruct (nth_error (waiting sys) i) as [[te tt tc td [k' now settled|k']]|];
      cbn [task_at task_env]; [| |cbn; auto].
    + destruct k'; run_stretch; intros; lia.
    + destruct k'; run_stretch; intros; lia.
Qed.

End Turns.

(** ** One resolution among the turns of other requests *)

Arguments suspended : simpl never.

Lemma suspended_app k a b : suspended k (a ++ b) = suspended k a ++ suspended k b.
Proof. apply filter_app. Qed.

Lemma suspended_remove_other k ws : forall i t,
  nth_error ws i = Some t -> of_resource k t = false ->
  suspended k (remove_nth i ws) = suspended k ws.
Proof.
  unfold suspended.
  induction ws as [|w ws IH]; intros [|i] t H Hf; cbn in *; try discriminate.
  - inversion H; subst. rewrite Hf. reflexivity.
  - rewrite (IH i t H Hf). reflexivity.
Qed.

Lemma suspended_remove_own k ws : forall i t t0,
  nth_error ws i = Some t -> of_resource k t = true ->
  suspended k ws = [t0] ->
  t = t0 /\ suspended k (remove_nth i ws) = [].
Proof.
  unfold suspended.
  induction ws as [|w ws IH]; intros [|i] t t0 H Hf Hs; cbn in *; try discriminate.
  - inversion H; subst. rewrite Hf in Hs. inversion Hs. auto.
  - destruct (of_resource k w) eqn:Hw.
    + inversion Hs; subst.
      assert (Hin : In t (filter (of_resource k) ws)).
      { apply filter_In. split; [eapply nth_error_In; eassumption|exact Hf]. }
      rewrite H2 in Hin. destruct Hin.
    + exact (IH i t t0 H Hf Hs).
Qed.

Lemma suspended_none k ws i t :
  nth_error ws i = Some t -> suspended k ws = [] -> of_resource k t = false.
Proof.
  intros H Hs. destruct (of_resource k t) eqn:Hf; [|reflexivity].
  assert (Hin : In t (suspended k ws)).
  { unfold suspended. apply filter_In. split; [eapply nth_error_In; eassumption|exact Hf]. }
  rewrite Hs in Hin. destruct Hin.
Qed.

Lemma answers_cons r rs :
  answers (r :: rs) = match answered r with Some a => [a] | None => [] end ++ answers rs.
Proof. reflexivity. Qed.

Section Among.

Variable cfg : Config.

Lemma settle_kind k e ws out : step_kind (snd (settle k e ws out)) = Some k.
Proof. destruct out as [[[[r|pd]|err] p] l]; reflexivity. Qed.

Lemma about_arrive k rq e sys :
  k <> Proxy ->
  about k (snd (sys_step cfg (Arrive rq e) sys)) = resolves k rq.
Proof.
  intros Hk. unfold about. cbn [sys_step].
  destruct rq; cbn [resource]; rewrite ?settle_kind; destruct k; try congruence; reflexivity.
Qed.

Lemma about_resume k i sys t :
  nth_error (waiting sys) i = Some t ->
  about k (snd (sys_step cfg (Resume i) sys)) = of_resource k t.
Proof.
  intros Ht. unfold about. cbn [sys_step]. rewrite Ht, settle_kind. reflexivity.
Qed.

(** A turn of another resource or endpoint leaves the variables of the
    resource and its suspended handlers as they are. *)
Lemma foreign_turn k ev sys :
  about k (snd (sys_step cfg ev sys)) = false ->
  view k (shared (fst (sys_step cfg ev sys))) = view k (shared sys)
  /\ suspended k (waiting (fst (sys_step cfg ev sys))) = suspended k (waiting sys).
Proof.
  intros Hf. split; revert Hf.
  - destruct ev as [rq e | i].
    + destruct rq, k; unfold about, view, fallbackOf, cacheOf, failCountOf, nextTryAtOf;
        cbn -[Z.ltb].
      all: run_stretch; intros Hf; try discriminate Hf; reflexivity.
    + cbn. destruct (nth_error (waiting sys) i) as [[te tt tc td [k' now settled|k']]|];
        cbn [task_at task_env]; [| |reflexivity].
      * destruct k, k'; unfold about, view, fallbackOf, cacheOf, failCountOf, nextTryAtOf; cbn.
        all: run_stretch; intros Hf; try discriminate Hf; reflexivity.
      * destruct k, k'; unfold about, view, fallbackOf, cacheOf, failCountOf, nextTryAtOf; cbn.
        all: run_stretch; intros Hf; try discriminate Hf; reflexivity.
  - destruct ev as [rq e | i].
    + destruct rq, k; unfold about; cbn -[Z.ltb].
      all: run_stretch; intros Hf; try discriminate Hf; try reflexivity.
      all: rewrite suspended_app; unfold suspended; cbn; rewrite ?app_nil_r; reflexivity.
    + cbn. destruct (nth_error (waiting sys) i) as [t|] eqn:Ht; [|reflexivity].
      destruct t as [te tt tc td [k' now settled|k']]; cbn [task_at task_env].
      * destruct k, k'; unfold about; cbn.
        all: run_stretch; intros Hf; try discriminate Hf.
        all: rewrite ?suspended_app; unfold suspended; cbn; rewrite ?app_nil_r.
        all: eapply suspended_remove_other; [exact Ht|reflexivity].
      * destruct k, k'; unfold about; cbn.
        all: run_stretch; intros Hf; try discriminate Hf.
        all: rewrite ?suspended_app; unfold suspended; cbn; rewrite ?app_nil_r.
        all: eapply suspended_remove_other; [exact Ht|reflexivity].
Qed.

(** What a handler makes of the variables of its resource, and what it
    answers, depends on nothing else in the globals. *)
Lemma complete_respects_view k e pd g g' tk cl dr :
  same_resource k (kind_of pd) = true ->
  view k g = view k g' ->
  ending k (complete cfg e pd {| globals := g; ticks := tk; calls := cl; draws := dr |})
  = ending k (complete cfg e pd {| globals := g'; ticks := tk; calls := cl; draws := dr |}).
Proof.
  intros Hsame Hview. revert Hsame Hview.
  destruct g, g'.
  destruct pd as [k' now settled | k']; destruct k, k';
    unfold view, fallbackOf, cacheOf, failCountOf, nextTryAtOf, ending, complete; cbn.
  all: intros Hsame Hview; try discriminate Hsame; inversion Hview; subst.
  all: run_stretch; reflexivity.
Qed.

(** A resolver that suspends as it comes in is a handler of its resource. *)
Lemma enter_pending k e p pd p' l :
  enter cfg k e p = (Ok (inr pd), p', l) -> kind_of pd = k.
Proof.
  run_stretch; intros H; inversion H; reflexivity.
Qed.

(** A handler that suspends a second time waits for its sample file ... *)
Lemma resume_pending e pd p pd' p' l :
  resume cfg e pd p = (Ok (inr pd'), p', l) -> pd' = AwaitSample (kind_of pd).
Proof.
  destruct pd as [k now settled|k]; cbn [kind_of].
  - run_stretch; intros H; inversion H; reflexivity.
  - run_stretch; intros H; inversion H.
Qed.

(** ... and then runs to its end. *)
Lemma resume_sample_ends e k p :
  complete cfg e (AwaitSample k) p
  = (fst (fst (resume cfg e (AwaitSample k) p)),
     snd (fst (resume cfg e (AwaitSample k) p)),
     snd (resume cfg e (AwaitSample k) p) ++ []).
Proof.
  unfold complete. run_stretch; reflexivity.
Qed.

Lemma proc_of_settled (p : Proc) e pd :
  proc_of (globals p)
    {| task_env := e; task_ticks := ticks p; task_calls := calls p; task_draws := draws p;
       task_at := pd |} = p.
Proof. destruct p; reflexivity. Qed.

(** The turn in which a suspended handler is resumed: it ends as it
    would have if followed to its end at once, or is that much further. *)
Lemma own_turn k i sys t :
  nth_error (waiting sys) i = Some t ->
  of_resource k t = true ->
  let sys' := fst (sys_step cfg (Resume i) sys) in
  let rep := snd (sys_step cfg (Resume i) sys) in
  let target := ending k (complete cfg (task_env t) (task_at t) (proc_of (shared sys) t)) in
  match answered rep with
  | Some a =>
      waiting sys' = remove_nth i (waiting sys)
      /\ target = (Some a, view k (shared sys'))
  | None =>
      exists t',
        waiting sys' = remove_nth i (waiting sys) ++ [t']
        /\ of_resource k t' = true
        /\ ending k (complete cfg (task_env t') (task_at t') (proc_of (shared sys') t')) = target
  end.
Proof.
  intros Ht Hof. cbv zeta. cbn [sys_step]. rewrite Ht.
  destruct (resume cfg (task_env t) (task_at t) (proc_of (shared sys) t))
    as [[[[r|pd']|err] p] l] eqn:Hres; cbn [settle fst snd answered waiting shared].
  - split; [reflexivity|]. unfold complete, bind. rewrite Hres. reflexivity.
  - pose proof (resume_pending _ _ _ _ _ _ Hres) as ->.
    eexists. split; [reflexivity|]. split; [exact Hof|].
    cbn [task_env task_at]. rewrite proc_of_settled.
    assert (Htarget :
              ending k (complete cfg (task_env t) (task_at t) (proc_of (shared sys) t))
              = ending k (resume cfg (task_env t) (AwaitSample (kind_of (task_at t))) p)).
    { unfold complete, bind. rewrite Hres. cbn [and_then].
      destruct (resume cfg (task_env t) (AwaitSample (kind_of (task_at t))) p)
        as [[x2 p2] l2]. reflexivity. }
    rewrite Htarget, resume_sample_ends. reflexivity.
  - split; [reflexivity|]. unfold complete, bind. rewrite Hres. reflexivity.
Qed.

(** The turn in which a request for the resource comes in, against the
    handler run from its first line to its last. *)
Lemma arrival_turn rq k e sys :
  resource rq = Some k ->
  let sys' := fst (sys_step cfg (Arrive rq e) sys) in
  let rep := snd (sys_step cfg (Arrive rq e) sys) in
  let s := serve cfg rq e (shared sys) in
  match answered rep with
  | Some a =>
      waiting sys' = waiting sys
      /\ a = answer s
      /\ view k (shared sys') = view k (after s)
  | None =>
      exists t',
        waiting sys' = waiting sys ++ [t']
        /\ of_resource k t' = true
        /\ ending k (complete cfg (task_env t') (task_at t') (proc_of (shared sys') t'))
           = (Some (answer s), view k (after s))
  end.
Proof.
  intros Hk. cbv zeta. cbn [sys_step]. rewrite Hk.
  pose proof (uninterrupted_is_handler cfg rq k e (start (shared sys)) Hk) as Hun.
  unfold uninterrupted, serve in *. unfold bind in Hun.
  destruct (enter cfg k e (start (shared sys))) as [[[[r|pd]|err] p] l] eqn:Hent;
    cbn [settle fst snd answered waiting shared].
  - cbn in Hun.
    destruct (handler cfg rq e (start (shared sys))) as [[[r'|err'] p'] l']; cbn in *;
      inversion Hun; subst; repeat split; reflexivity.
  - pose proof (enter_pending _ _ _ _ _ _ Hent) as Hkind.
    eexists. split; [reflexivity|]. split.
    { unfold of_resource. cbn [task_at]. rewrite Hkind. unfold same_resource.
      destruct (is_locations k); reflexivity. }
    cbn [task_env task_at]. rewrite proc_of_settled.
    unfold complete, bind. cbn [and_then] in Hun.
    destruct (resume cfg e pd p) as [[[y|err2] p2] l2]; cbn [fst snd] in *.
    + destruct (and_then cfg e y p2) as [[z p3] l3].
      destruct (handler cfg rq e (start (shared sys))) as [[[r'|err'] p'] l']; cbn in *;
        inversion Hun; subst; reflexivity.
    + destruct (handler cfg rq e (start (shared sys))) as [[[r'|err'] p'] l']; cbn in *;
        inversion Hun; subst; reflexivity.
  - cbn in Hun.
    destruct (handler cfg rq e (start (shared sys))) as [[[r'|err'] p'] l']; cbn in *;
      inversion Hun; subst; repeat split; reflexivity.
Qed.

(** While no handler of the resource is suspended and no request for it
    comes in, nothing touches its variables. *)
Lemma left_alone k evs :
  k <> Proxy ->
  forall sys,
    suspended k (waiting sys) = [] ->
    (forall rq e, In (Arrive rq e) evs -> resolves k rq = false) ->
    view k (shared (fst (run_events cfg evs sys))) = view k (shared sys)
    /\ suspended k (waiting (fst (run_events cfg evs sys))) = []
    /\ filter (about k) (snd (run_events cfg evs sys)) = [].
Proof.
  intros Hk. induction evs as [|ev rest IH]; intros sys Hnone Hall; [repeat split; assumption|].
  cbn [run_events].
  assert (Hforeign : about k (snd (sys_step cfg ev sys)) = false).
  { destruct ev as [rq e | i].
    - rewrite about_arrive by exact Hk. apply (Hall rq e). left. reflexivity.
    - destruct (nth_error (waiting sys) i) as [t|] eqn:Ht.
      + rewrite (about_resume k i sys t Ht). exact (suspended_none k _ i t Ht Hnone).
      + unfold about. cbn [sys_step]. rewrite Ht. reflexivity. }
  destruct (foreign_turn k ev sys Hforeign) as (Hv & Hs).
  destruct (sys_step cfg ev sys) as [sys1 r]. cbn [fst snd] in *.
  destruct (IH sys1) as (Hv' & Hs' & Hf').
  { rewrite Hs. exact Hnone. }
  { intros rq e Hin. apply (Hall rq e). right. exact Hin. }
  destruct (run_events cfg rest sys1) as [sys2 rs]. cbn [fst snd] in *.
  repeat split; [congruence|exact Hs'|].
  cbn [filter]. rewrite Hforeign. exact Hf'.
Qed.

(** A suspended handler of the resource, the only one, followed through
    the turns of the others to its end. *)
Lemma followed k evs :
  k <> Proxy ->
  forall sys t a v,
    suspended k (waiting sys) = [t] ->
    (forall rq e, In (Arrive rq e) evs -> resolves k rq = false) ->
    ending k (complete cfg (task_env t) (task_at t) (proc_of (shared sys) t)) = (Some a, v) ->
    suspended k (waiting (fst (run_events cfg evs sys))) = [] ->
    view k (shared (fst (run_events cfg evs sys))) = v
    /\ answers (filter (about k) (snd (run_events cfg evs sys))) = [a].
Proof.
  intros Hk. induction evs as [|ev rest IH]; intros sys t a v Hone Hall Htarget Hend.
  { cbn in Hend. rewrite Hone in Hend. discriminate Hend. }
  cbn [run_events] in *.
  assert (Hrest : forall rq e, In (Arrive rq e) rest -> resolves k rq = false)
    by (intros rq e Hin; apply (Hall rq e); right; exact Hin).
  destruct (about k (snd (sys_step cfg ev sys))) eqn:Habout.
  - (* the handler's own turn *)
    destruct ev as [rq e | i].
    { rewrite about_arrive in Habout by exact Hk.
      rewrite (Hall rq e (or_introl eq_refl)) in Habout. discriminate Habout. }
    destruct (nth_error (waiting sys) i) as [t'|] eqn:Ht.
    2:{ unfold about in Habout. cbn [sys_step] in Habout. rewrite Ht in Habout.
        discriminate Habout. }
    rewrite (about_resume k i sys t' Ht) in Habout.
    destruct (suspended_remove_own k _ i t' t Ht Habout Hone) as [-> Hgone].
    pose proof (own_turn k i sys t Ht Habout) as Hown. cbv zeta in Hown.
    rewrite Htarget in Hown.
    assert (Hab : about k (snd (sys_step cfg (Resume i) sys)) = true)
      by (rewrite (about_resume k i sys t Ht); exact Habout).
    destruct (sys_step cfg (Resume i) sys) as [sys1 r]. cbn [fst snd] in *.
    destruct (answered r) as [a'|] eqn:Hans.
    + destruct Hown as [Hw Heq]. inversion Heq; subst a' v.
      destruct (left_alone k rest Hk sys1) as (Hv' & _ & Hf'); [rewrite Hw; exact Hgone|exact Hrest|].
      destruct (run_events cfg rest sys1) as [sys2 rs]. cbn [fst snd] in *.
      split; [exact Hv'|].
      cbn [filter]. rewrite Hab, Hf'. rewrite answers_cons, Hans. reflexivity.
    + destruct Hown as (t1 & Hw & Hof1 & Hend1).
      destruct (IH sys1 t1 a v) as (Hv' & Ha'); [|exact Hrest|exact Hend1| |].
      { rewrite Hw, suspended_app, Hgone. unfold suspended. cbn. rewrite Hof1. reflexivity. }
      { destruct (run_events cfg rest sys1) as [sys2 rs]. exact Hend. }
      destruct (run_events cfg rest sys1) as [sys2 rs]. cbn [fst snd] in *.
      split; [exact Hv'|].
      cbn [filter]. rewrite Hab. rewrite answers_cons, Hans. exact Ha'.
  - (* a turn of the others *)
    destruct (foreign_turn k ev sys Habout) as (Hv & Hs).
    destruct (sys_step cfg ev sys) as [sys1 r]. cbn [fst snd] in *.
    destruct (IH sys1 t a v) as (Hv' & Ha'); [rewrite Hs; exact Hone|exact Hrest| | |].
    { rewrite <- Htarget. destruct t as [te tt tc td pd]. unfold proc_of. cbn.
      apply complete_respects_view; [|exact Hv].
      assert (Hin : In {| task_env := te; task_ticks := tt; task_calls := tc;
                          task_draws := td; task_at := pd |} (suspended k (waiting sys)))
        by (rewrite Hone; left; reflexivity).
      unfold suspended in Hin. apply filter_In in Hin. exact (proj2 Hin). }
    { destruct (run_events cfg rest sys1) as [sys2 rs]. exact Hend. }
    destruct (run_events cfg rest sys1) as [sys2 rs]. cbn [fst snd] in *.
    split; [exact Hv'|].
    cbn [filter]. rewrite Habout. exact Ha'.
Qed.

(** A resolution that no other request for its resource overlaps, whatever
    else comes in or is resumed before it has ended, leaves the variables of
    the resource as the handler run from its first line to its last leaves
    them, and sends the same answer. *)
Lemma resolution_among_others rq k e evs sys :
  resource rq = Some k ->
  suspended k (waiting sys) = [] ->
  (forall rq' e', In (Arrive rq' e') evs -> resolves k rq' = false) ->
  suspended k (waiting (fst (run_events cfg (Arrive rq e :: evs) sys))) = [] ->
  view k (shared (fst (run_events cfg (Arrive rq e :: evs) sys)))
  = view k (after (serve cfg rq e (shared sys)))
  /\ answers (filter (about k) (snd (run_events cfg (Arrive rq e :: evs) sys)))
     = [answer (serve cfg rq e (shared sys))].
Proof.
  intros Hk Hnone Hall Hend.
  assert (HkP : k <> Proxy) by (destruct rq; inversion Hk; discriminate).
  cbn [run_events] in *.
  pose proof (arrival_turn rq k e sys Hk) as Harr. cbv zeta in Harr.
  assert (Hab : about k (snd (sys_step cfg (Arrive rq e) sys)) = true).
  { rewrite about_arrive by exact HkP. destruct rq; inversion Hk; reflexivity. }
  destruct (sys_step cfg (Arrive rq e) sys) as [sys1 r]. cbn [fst snd] in *.
  destruct (answered r) as [a|] eqn:Hans.
  - destruct Harr as (Hw & -> & Hv).
    destruct (left_alone k evs HkP sys1) as (Hv' & _ & Hf'); [rewrite Hw; exact Hnone|exact Hall|].
    destruct (run_events cfg evs sys1) as [sys2 rs]. cbn [fst snd] in *.
    split; [congruence|].
    cbn [filter]. rewrite Hab, Hf'. rewrite answers_cons, Hans. reflexivity.
  - destruct Harr as (t1 & Hw & Hof1 & Hend1).
    destruct (followed k evs HkP sys1 t1 (answer (serve cfg rq e (shared sys)))
                (view k (after (serve cfg rq e (shared sys)))))
      as (Hv' & Ha'); [|exact Hall|exact Hend1| |].
    { rewrite Hw, suspended_app, Hnone. unfold suspended. cbn. rewrite Hof1. reflexivity. }
    { destruct (run_events cfg evs sys1) as [sys2 rs]. exact Hend. }
    destruct (run_events cfg evs sys1) as [sys2 rs]. cbn [fst snd] in *.
    split; [exact Hv'|].
    cbn [filter]. rewrite Hab. rewrite answers_cons, Hans. exact Ha'.
Qed.

End Among.

Section Claims.

Variable cfg : Config.

Lemma resolves_spec k rq : resource rq = Some k -> resolves k rq = true.
Proof. destruct rq, k; cbn; congruence. Qed.

(** *** The gate in front of the live call *)

(** A resolution makes its live call exactly when the configured locator
    resolves to a URL and the clock reading taken by [shouldBackoff] is not
    before the deadline. *)
Lemma resolution_fetches rq k e g :
  resource rq = Some k ->
  fetches (log (serve cfg rq e g))
  = if (truthy_opt (toAbs cfg (configured cfg k))
        && negb (clock e 1 <? nextTryAtOf k g))%bool
    then 1%nat else 0%nat.
Proof.
  intros Hk.
  destruct rq; inversion Hk; subst k; unfold configured, nextTryAtOf; cbn -[Z.ltb].
  all: run; count_fetches; use_tests; reflexivity || discriminate.
Qed.

(** A member of a handler's log, case by case. *)
Ltac log_member H :=
  repeat first [ apply in_app_or in H; destruct H as [H | H]
               | apply effects_at_In in H;
                 destruct H as [[_ H] | [? H]]; try discriminate H
               | destruct H as [H | H]; try discriminate H
               | contradiction H ].

Lemma served_asked rq e g : asked (serve cfg rq e g) = rq.
Proof. unfold serve. destruct (handler cfg rq e (start g)) as [[r p] l]. reflexivity. Qed.

(** C1, as amended. A request to /api/locations or /api/states makes at
    most one upstream call; it makes none when the clock read by
    [shouldBackoff] is strictly before the resource's deadline as it stands
    when the request comes in, and none when no URL resolves for the
    resource. Whatever else is suspended, the call is made in the stretch
    that starts the handler, a handler that is resumed makes none, and a
    deadline written in a turn of the event loop is the one in force at its
    end. From any state in which no live call of the resource is still out,
    as long as the resolutions that come in read a clock before the
    deadline, none of them calls upstream, in whatever order the handlers
    are resumed; the deadline stays in force and no call gets out. *)
Theorem C1_live_call_gate (rq : Request) (k : Kind) (e : Env) (g : Globals) :
  resource rq = Some k ->
  let s := serve cfg rq e g in
  (fetches (log s) <= 1)%nat
  /\ (time_at_gate e < nextTryAtOf k g -> fetches (log s) = 0%nat)
  /\ (toAbs cfg (configured cfg k) = None -> fetches (log s) = 0%nat)
  /\ (forall sys, shared sys = g ->
        fetches (step_log (snd (sys_step cfg (Arrive rq e) sys))) = fetches (log s))
  /\ (forall i sys, fetches (step_log (snd (sys_step cfg (Resume i) sys))) = 0%nat)
  /\ (forall ev sys D,
        In (SetNextTryAt k D) (step_log (snd (sys_step cfg ev sys))) ->
        nextTryAtOf k (shared (fst (sys_step cfg ev sys))) = D)
  /\ (forall evs sys,
        in_flight k (waiting sys) = 0%nat ->
        (forall rq' e', In (Arrive rq' e') evs -> resolves k rq' = true ->
                        time_at_gate e' < nextTryAtOf k (shared sys)) ->
        live_calls_in k (snd (run_events cfg evs sys)) = 0%nat
        /\ nextTryAtOf k (shared (fst (run_events cfg evs sys)))
           = nextTryAtOf k (shared sys)
        /\ in_flight k (waiting (fst (run_events cfg evs sys))) = 0%nat).
Proof.
  intros Hk s. subst s. unfold time_at_gate.
  rewrite (resolution_fetches rq k e g Hk).
  split; [destruct (_ && _)%bool; lia|].
  split; [intros Hlt; apply Z.ltb_lt in Hlt; rewrite Hlt, andb_false_r; reflexivity|].
  split; [intros Hnone; rewrite Hnone; reflexivity|].
  split; [intros sys <-; apply arrival_fetches; exact Hk|].
  split; [apply resume_no_fetch|].
  split; [intros ev sys D; apply turn_deadline_written|].
  intros evs sys. apply window_holds_overlapping.
  destruct rq; inversion Hk; discriminate.
Qed.

(** *** The failure and success transitions *)

Lemma onFail_run e k p :
  onFail cfg e k p
  = if BACKOFF_AFTER_FAILS cfg <=? failCountOf k (globals p) + 1
    then
      (Ok tt,
       {| globals := state_after (onFail cfg e k) p;
          ticks := S (ticks p); calls := calls p; draws := draws p |},
       [SetFailCount k (failCountOf k (globals p) + 1);
        SetNextTryAt k (clock e (ticks p) + BACKOFF_WINDOW_MS cfg);
        SetFailCount k 0])
    else
      (Ok tt,
       {| globals := state_after (onFail cfg e k) p;
          ticks := ticks p; calls := calls p; draws := draws p |},
       [SetFailCount k (failCountOf k (globals p) + 1)]).
Proof.
  unfold state_after, failCountOf. destruct k; cbn -[Z.leb].
  all: run; reflexivity.
Qed.

Lemma onFail_state e k p :
  let c := failCountOf k (globals p) + 1 in
  let g' := state_after (onFail cfg e k) p in
  if BACKOFF_AFTER_FAILS cfg <=? c
  then failCountOf k g' = 0
       /\ nextTryAtOf k g' = clock e (ticks p) + BACKOFF_WINDOW_MS cfg
  else failCountOf k g' = c
       /\ nextTryAtOf k g' = nextTryAtOf k (globals p).
Proof.
  unfold state_after, failCountOf, nextTryAtOf. destruct k; cbn -[Z.leb].
  all: run; split; reflexivity.
Qed.

Lemma onSuccess_state k p :
  failCountOf k (state_after (onSuccess k) p) = 0
  /\ nextTryAtOf k (state_after (onSuccess k) p) = 0.
Proof.
  unfold state_after, failCountOf, nextTryAtOf. destruct k; cbn.
  all: run; split; reflexivity.
Qed.

(** The counters of a running process never reach the threshold: they are
    put back to 0 the moment they would. *)
Lemma counters_below_threshold g :
  reachable cfg g ->
  1 <= BACKOFF_AFTER_FAILS cfg ->
  (0 <= locFailCount g < BACKOFF_AFTER_FAILS cfg)
  /\ (0 <= statesFailCount g < BACKOFF_AFTER_FAILS cfg).
Proof.
  intros Hr HT. induction Hr as [|rq e g Hr IH]; [cbn; lia|].
  destruct IH as [Hl Hs]. revert Hl Hs.
  destruct rq; run; intros; lia.
Qed.

(** C2. [onFail] first adds one to the resource's failure counter; when the
    counter has then reached [BACKOFF_AFTER_FAILS] it sets the deadline to
    the current clock reading plus [BACKOFF_WINDOW_MS] and puts the counter
    back to 0, and otherwise it leaves the deadline alone. On every state
    the process can be in, with a threshold of at least 1, reaching the
    threshold means being equal to it. [onSuccess] puts the counter to 0 and
    the deadline to 0 whatever they were. *)
Theorem C2_fail_and_success_transitions (e : Env) (k : Kind) (p : Proc) :
  let c := failCountOf k (globals p) + 1 in
  let failed := state_after (onFail cfg e k) p in
  let succeeded := state_after (onSuccess k) p in
  hd_error (log_of (onFail cfg e k) p) = Some (SetFailCount k c)
  /\ (if BACKOFF_AFTER_FAILS cfg <=? c
      then failCountOf k failed = 0
           /\ nextTryAtOf k failed = clock e (ticks p) + BACKOFF_WINDOW_MS cfg
      else failCountOf k failed = c
           /\ nextTryAtOf k failed = nextTryAtOf k (globals p))
  /\ (reachable cfg (globals p) -> 1 <= BACKOFF_AFTER_FAILS cfg ->
      (BACKOFF_AFTER_FAILS cfg <=? c) = (c =? BACKOFF_AFTER_FAILS cfg))
  /\ failCountOf k succeeded = 0
  /\ nextTryAtOf k succeeded = 0.
Proof.
  intros c failed succeeded.
  split.
  { unfold log_of. rewrite onFail_run.
    destruct (BACKOFF_AFTER_FAILS cfg <=? failCountOf k (globals p) + 1); reflexivity. }
  split; [apply onFail_state|].
  split; [|apply onSuccess_state].
  intros Hr HT.
  destruct (counters_below_threshold _ Hr HT) as [Hl Hs].
  subst c. unfold failCountOf.
  destruct (is_locations k);
    destruct (Z.leb_spec (BACKOFF_AFTER_FAILS cfg) (locFailCount (globals p) + 1));
    destruct (Z.leb_spec (BACKOFF_AFTER_FAILS cfg) (statesFailCount (globals p) + 1));
    destruct (Z.eqb_spec (locFailCount (globals p) + 1) (BACKOFF_AFTER_FAILS cfg));
    destruct (Z.eqb_spec (statesFailCount (globals p) + 1) (BACKOFF_AFTER_FAILS cfg));
    try reflexivity; lia.
Qed.

(** *** Failures in a row *)



Lemma live_ok_eq rq k e g :
  resource rq = Some k ->
  live_ok cfg e k (serve cfg rq e g)
  = (truthy_opt (toAbs cfg (configured cfg k))
     && negb (clock e 1 <? nextTryAtOf k g)
     && out_ok (outcome_at cfg e 0 (toAbs cfg (configured cfg k)) k))%bool.
Proof.
  intros Hk. unfold live_ok. rewrite (resolution_fetches rq k e g Hk).
  unfold live_outcome.
  destruct (truthy_opt (toAbs cfg (configured cfg k)) && negb (clock e 1 <? nextTryAtOf k g))%bool;
    reflexivity.
Qed.



(** *** Serving from the cache *)

(** With truthy cached data and no live success the handler answers from
    the cache. *)
Lemma cache_hit rq k e g :
  resource rq = Some k ->
  truthy (data (cacheOf k g)) = true ->
  live_ok cfg e k (serve cfg rq e g) = false ->
  answer (serve cfg rq e g)
  = Ok {| status := 200;
          headers := [("X-Cache", "hit-" ++ kind_name k)%string];
          ctype := Some (contentType (cacheOf k g));
          body := if (contentType (cacheOf k g) =? "application/json")%string
                  then Json (data (cacheOf k g))
                  else Sent (data (cacheOf k g)) |}
  /\ fallbackOf k (after (serve cfg rq e g)) = false
  /\ cacheOf k (after (serve cfg rq e g)) = cacheOf k g
  /\ filter is_demo_effect (log (serve cfg rq e g)) = [].
Proof.
  intros Hk Hc. rewrite (live_ok_eq rq k e g Hk).
  destruct rq; inversion Hk; subst k;
    unfold configured, nextTryAtOf, cacheOf, fallbackOf in *; cbn -[Z.ltb Z.leb] in *.
  all: run; use_tests; intros Hlive; try discriminate Hlive.
  all: rewrite ?filter_app; cbn.
  all: try match goal with
           | |- context [filter is_demo_effect (effects_at ?c ?e ?n ?u ?k)] =>
               destruct (effects_at_shape c e n u k) as (w & -> & [-> | [m ->]]);
               destruct (truthy_opt u)
           end; cbn.
  all: repeat split; try reflexivity.
  all: match goal with
       | H : (?a =? ?b)%string = true |- _ => apply String.eqb_eq in H; rewrite H; reflexivity
       end.
Qed.

(** C4, as amended. When the cached data is truthy (anything but null,
    false, 0 and the empty string) and the live call fails or is skipped,
    the handler answers with exactly the cached data, declared with the
    cached content type, under the header X-Cache: hit-locations (resp.
    hit-states); the fallback flag is false, the cache is untouched and
    nothing of the demo path happens. *)
Theorem C4_truthy_cache_is_served (rq : Request) (k : Kind) (e : Env) (g : Globals) :
  resource rq = Some k ->
  truthy (data (cacheOf k g)) = true ->
  live_ok cfg e k (serve cfg rq e g) = false ->
  answer (serve cfg rq e g)
  = Ok {| status := 200;
          headers := [("X-Cache", "hit-" ++ kind_name k)%string];
          ctype := Some (contentType (cacheOf k g));
          body := if (contentType (cacheOf k g) =? "application/json")%string
                  then Json (data (cacheOf k g))
                  else Sent (data (cacheOf k g)) |}
  /\ fallbackOf k (after (serve cfg rq e g)) = false
  /\ cacheOf k (after (serve cfg rq e g)) = cacheOf k g
  /\ filter is_demo_effect (log (serve cfg rq e g)) = [].
Proof. exact (cache_hit rq k e g). Qed.

(** *** Who writes the cache *)

(** The cache of a resource is written by a live success of its own
    resolver and by nothing else, and it then holds what was fetched,
    stamped with the time the request came in. *)
Lemma cache_write_is_live_success rq e g k c :
  In (SetCache k c) (log (serve cfg rq e g)) ->
  resource rq = Some k
  /\ live_ok cfg e k (serve cfg rq e g) = true
  /\ cacheOf k (after (serve cfg rq e g)) = c
  /\ at_ c = clock e 0.
Proof.
  intros Hin.
  assert (Hk : resource rq = Some k
               /\ cacheOf k (after (serve cfg rq e g)) = c
               /\ at_ c = clock e 0
               /\ (truthy_opt (toAbs cfg (configured cfg k))
                   && negb (clock e 1 <? nextTryAtOf k g)
                   && out_ok (outcome_at cfg e 0 (toAbs cfg (configured cfg k)) k))%bool
                  = true).
  { revert Hin. destruct rq; run; intros H; log_member H.
    all: inversion H; subst; unfold configured, nextTryAtOf; cbn -[Z.ltb].
    all: use_tests; repeat split; reflexivity. }
  destruct Hk as (Hk & Hc & Hat & Hlive).
  rewrite (live_ok_eq rq k e g Hk). auto.
Qed.

(** Every other request, and a resolution without a live success, leaves
    the cache alone. *)
Lemma cache_kept rq e g k :
  k <> Proxy ->
  resource rq <> Some k \/ live_ok cfg e k (serve cfg rq e g) = false ->
  cacheOf k (after (serve cfg rq e g)) = cacheOf k g.
Proof.
  intros Hk Hno.
  destruct (resolves k rq) eqn:Hr.
  - assert (Hres : resource rq = Some k) by (destruct rq, k; cbn in *; congruence).
    destruct Hno as [Hno | Hno]; [congruence|].
    rewrite (live_ok_eq rq k e g Hres) in Hno. revert Hno.
    destruct rq; inversion Hres; subst k;
      unfold configured, nextTryAtOf, cacheOf in *; cbn -[Z.ltb] in *.
    all: run; use_tests; intros Hlive; try discriminate Hlive; reflexivity.
  - clear Hno. destruct k; try congruence; destruct rq; try discriminate Hr;
      unfold cacheOf; cbn.
    all: run; reflexivity.
Qed.

Lemma cache_persists k rqs :
  k <> Proxy ->
  forall g,
    live_successes cfg k rqs g = 0%nat ->
    cacheOf k (fst (serve_all cfg rqs g)) = cacheOf k g.
Proof.
  intros Hk. induction rqs as [|[rq e] rest IH]; intros g Hnone; [reflexivity|].
  cbn [serve_all live_successes] in *.
  destruct (serve_all cfg rest (after (serve cfg rq e g))) as [g' ss] eqn:Hrest.
  cbn [fst].
  assert (Hrest' : live_successes cfg k rest (after (serve cfg rq e g)) = 0%nat) by lia.
  specialize (IH _ Hrest'). rewrite Hrest in IH. cbn [fst] in IH. rewrite IH.
  apply cache_kept; [exact Hk|].
  destruct (resolves k rq) eqn:Hr.
  - right. destruct (live_ok cfg e k (serve cfg rq e g)); [cbn in Hnone; lia|reflexivity].
  - left. intros Hres. rewrite (resolves_spec _ _ Hres) in Hr. discriminate.
Qed.

(** C5. The cache of a resource is assigned only in the success branch of
    the live call of that resource's own handler, where it takes the
    fetched value stamped with the time read on entry. A request to any
    other endpoint, and a resolution whose live call fails or is skipped
    (whether it then answers from the cache, with demo data or with the
    500), leaves it exactly as it was; so over any run of requests without
    a live success for the resource the cache stays what it was. *)
Theorem C5_cache_written_only_by_live_success
  (rq : Request) (e : Env) (g : Globals) (k : Kind) :
  k <> Proxy ->
  (forall c, In (SetCache k c) (log (serve cfg rq e g)) ->
             resource rq = Some k
             /\ live_ok cfg e k (serve cfg rq e g) = true
             /\ cacheOf k (after (serve cfg rq e g)) = c
             /\ at_ c = time_on_entry e)
  /\ (resource rq <> Some k \/ live_ok cfg e k (serve cfg rq e g) = false ->
      cacheOf k (after (serve cfg rq e g)) = cacheOf k g)
  /\ (forall rqs g0,
        live_successes cfg k rqs g0 = 0%nat ->
        cacheOf k (fst (serve_all cfg rqs g0)) = cacheOf k g0).
Proof.
  intros Hk. split; [|split].
  - intros c. apply cache_write_is_live_success.
  - apply cache_kept. exact Hk.
  - intros rqs g0. apply cache_persists. exact Hk.
Qed.

(** *** Nothing left to serve *)

(** C6. When no live call succeeds, the cached data is falsy (as it is as
    long as nothing was ever fetched) and demo mode is off, the handler
    returns normally with status 500 and the JSON body
    [{ error: "<RESOURCE>_URL failed, and demo mode disabled" }]. *)
Theorem C6_unavailable_is_500 (rq : Request) (k : Kind) (e : Env) (g : Globals) :
  resource rq = Some k ->
  live_ok cfg e k (serve cfg rq e g) = false ->
  truthy (data (cacheOf k g)) = false ->
  DEMO_CONFIGURED cfg = false ->
  answer (serve cfg rq e g)
  = Ok {| status := 500;
          headers := [];
          ctype := Some "application/json"%string;
          body := Json (VObj [("error"%string,
                               VStr (url_variable k ++ " failed, and demo mode disabled"))]) |}.
Proof.
  intros Hk Hlive Hc Hdemo. revert Hlive. rewrite (live_ok_eq rq k e g Hk).
  destruct rq; inversion Hk; subst k;
    unfold configured, nextTryAtOf, cacheOf in *; cbn -[Z.ltb] in *.
  all: run; use_tests; intros Hlive; try discriminate Hlive; reflexivity.
Qed.

(** *** The demo states *)

Lemma reroll_all_objects e xs :
  Forall (fun s => is_object s = true) xs ->
  forall n, fst (reroll_all e n xs) = Ok (demo_entries e n xs).
Proof.
  induction 1 as [|s rest Hs _ IH]; intros n; [reflexivity|].
  destruct s; try discriminate Hs.
  cbn [reroll_all demo_entries]. unfold next_draw, rerolled_state, state_of.
  cbn [get_state]. specialize (IH (S (S n))) as IH2. specialize (IH (S n)) as IH1.
  destruct (Qltb (random e n) (1 # 4)).
  - destruct (reroll_all e (S (S n)) rest) as [[ys|err] m]; cbn [fst spread] in *; congruence.
  - destruct (reroll_all e (S n) rest) as [[ys|err] m]; cbn [fst spread] in *; congruence.
Qed.

Lemma demo_entries_length e xs : forall n, length (demo_entries e n xs) = length xs.
Proof. induction xs as [|s rest IH]; intros n; cbn; [reflexivity|now rewrite IH]. Qed.

(** Entry [i] of the result is entry [i] of the baseline with the state
    decided by the draws at its own position; the next entry starts where
    this one's draws end. *)
Lemma demo_entries_nth e xs :
  forall n i s,
    nth_error xs i = Some s ->
    exists m,
      nth_error (draw_positions e n xs) i = Some m
      /\ nth_error (demo_entries e n xs) i
         = Some (VObj (set_field "state" (rerolled_state e m (state_of s)) (spread s)))
      /\ nth_error (draw_positions e n xs) (S i)
         = if Nat.ltb (S i) (length xs) then Some (next_draw e m) else None.
Proof.
  induction xs as [|x rest IH]; intros n i s Hi; [destruct i; discriminate|].
  destruct i as [|i]; cbn in Hi.
  - inversion Hi; subst x. exists n. cbn. repeat split.
    destruct rest; reflexivity.
  - destruct (IH (next_draw e n) i s Hi) as (m & Hp & Hd & Hn).
    exists m. cbn [draw_positions demo_entries nth_error length]. repeat split; assumption.
Qed.

Lemma set_field_others v fields :
  others (set_field "state" v fields) = others fields.
Proof.
  unfold others. induction fields as [|[k' v'] rest IH]; [reflexivity|].
  cbn [set_field]. destruct (k' =? "state")%string eqn:Hk.
  - cbn [filter fst]. rewrite Hk. reflexivity.
  - cbn [filter fst]. rewrite Hk. cbn. now rewrite IH.
Qed.

Lemma set_field_lookup v fields :
  lookup "state" (set_field "state" v fields) = Some v.
Proof.
  induction fields as [|[k' v'] rest IH]; [reflexivity|].
  cbn [set_field]. destruct (k' =? "state")%string eqn:Hk; cbn [lookup]; rewrite Hk; auto.
Qed.

Lemma set_field_same v fields :
  lookup "state" fields = Some v -> set_field "state" v fields = fields.
Proof.
  induction fields as [|[k' v'] rest IH]; [discriminate|].
  cbn [set_field lookup]. destruct (k' =? "state")%string eqn:Hk.
  - intros H; inversion H; reflexivity.
  - intros H. now rewrite IH.
Qed.

Lemma Qltb_lt (q r : Q) : Qltb q r = true <-> (q < r)%Q.
Proof.
  unfold Qltb. rewrite negb_true_iff. split.
  - intros H. apply Qnot_le_lt. intros Hle. apply Qle_bool_iff in Hle. congruence.
  - intros H. destruct (Qle_bool r q) eqn:Hb; [|reflexivity].
    apply Qle_bool_iff in Hb. exfalso. exact (Qlt_not_le _ _ H Hb).
Qed.

(** [floor x = j] exactly on the half-open interval from [j] to [j + 1]. *)
Lemma Qfloor_interval (x : Q) (j : Z) :
  Qfloor x = j <-> (inject_Z j <= x /\ x < inject_Z (j + 1))%Q.
Proof.
  split.
  - intros <-. split; [apply Qfloor_le|apply Qlt_floor].
  - intros [Hlo Hhi].
    assert (H1 : j <= Qfloor x).
    { rewrite <- (Qfloor_Z j). apply Qfloor_resp_le. exact Hlo. }
    assert (H2 : Qfloor x < j + 1).
    { rewrite Zlt_Qlt. eapply Qle_lt_trans; [apply Qfloor_le|exact Hhi]. }
    lia.
Qed.

(** A draw in [0, 1) picks a member of the pool. *)
Lemma candidate_in_pool (v : Q) :
  (0 <= v < 1)%Q ->
  exists c, candidate_at (Qfloor (v * 12)) = VStr c
            /\ nth_error candidates (Z.to_nat (Qfloor (v * 12))) = Some c
            /\ In c candidates.
Proof.
  intros [Hlo Hhi].
  assert (H0 : 0 <= Qfloor (v * 12)).
  { rewrite <- (Qfloor_Z 0). apply Qfloor_resp_le.
    change (inject_Z 0) with (0 * 12)%Q. apply Qmult_le_compat_r; [exact Hlo|discriminate]. }
  assert (H12 : Qfloor (v * 12) < 12).
  { rewrite Zlt_Qlt. eapply Qle_lt_trans; [apply Qfloor_le|].
    change (inject_Z 12) with (1 * 12)%Q. apply Qmult_lt_compat_r; [reflexivity|exact Hhi]. }
  unfold candidate_at.
  destruct (Z.ltb_spec (Qfloor (v * 12)) 0) as [Hneg|_]; [lia|].
  destruct (nth_error candidates (Z.to_nat (Qfloor (v * 12)))) as [c|] eqn:Hn.
  - exists c. repeat split. eapply nth_error_In. exact Hn.
  - apply nth_error_None in Hn. cbn in Hn. lia.
Qed.

(** On the demo path /api/states answers with the baseline re-rolled
    entry by entry. *)
Lemma demo_states_answer e g text base :
  live_ok cfg e States (serve cfg GetStates e g) = false ->
  truthy (data (cacheStates g)) = false ->
  DEMO_CONFIGURED cfg = true ->
  files e "sample-data/states.json" = Ok text ->
  parse_json e text = Ok (VArr base) ->
  Forall (fun s => is_object s = true) base ->
  answer (serve cfg GetStates e g)
  = Ok {| status := 200;
          headers := [("X-Demo-Fallback", "states")%string];
          ctype := Some "application/json"%string;
          body := Json (VArr (demo_entries e 0 base)) |}.
Proof.
  intros Hlive Hc Hdemo Hfile Hparse Hobj. revert Hlive.
  rewrite (live_ok_eq GetStates States e g eq_refl).
  pose proof (reroll_all_objects e base Hobj 0%nat) as Hall.
  unfold configured, nextTryAtOf; cbn -[Z.ltb].
  run; use_tests; intros Hlive; try discriminate Hlive.
  all: try congruence.
  all: repeat match goal with
         | H : parse_json _ _ = _ |- _ => rewrite Hparse in H; inversion H; subst; clear H
         end.
  all: reflexivity.
Qed.

(** C7. When the demo path serves /api/states from a baseline that is an
    array of objects, the answer is an array of the same length whose
    [i]-th entry is the [i]-th baseline entry with only its [state] field
    decided anew, from draws no other entry uses: when the entry's first
    draw is below 1/4 the state is the candidate at index [floor (12 v)]
    for its second draw [v], a member of the pool; otherwise the state is
    the baseline's, and an entry that had a state is returned as it was.
    The fields other than [state] are the baseline's, in their order. The
    index [floor (12 v)] is [j] exactly when [12 v] lies in the unit interval
    starting at [j], so that draws uniform on [0, 1) re-roll an entry with
    probability 1/4 and pick each of the 12 candidates equally often. *)
Theorem C7_demo_states_rerolled
  (e : Env) (g : Globals) (text : string) (base : list value) :
  live_ok cfg e States (serve cfg GetStates e g) = false ->
  truthy (data (cacheStates g)) = false ->
  DEMO_CONFIGURED cfg = true ->
  files e "sample-data/states.json" = Ok text ->
  parse_json e text = Ok (VArr base) ->
  Forall (fun s => is_object s = true) base ->
  (forall n, 0 <= random e n < 1)%Q ->
  let positions := draw_positions e 0 base in
  exists out,
    answer (serve cfg GetStates e g)
    = Ok {| status := 200;
            headers := [("X-Demo-Fallback", "states")%string];
            ctype := Some "application/json"%string;
            body := Json (VArr out) |}
    /\ length out = length base
    /\ (forall i s,
          nth_error base i = Some s ->
          exists n fields fields',
            s = VObj fields
            /\ nth_error out i = Some (VObj fields')
            /\ nth_error positions i = Some n
            /\ nth_error positions (S i)
               = (if Nat.ltb (S i) (length base) then Some (next_draw e n) else None)
            /\ (n < next_draw e n)%nat
            /\ others fields' = others fields
            /\ lookup "state" fields' = Some (rerolled_state e n (state_of s))
            /\ ((random e n < 1 # 4)%Q ->
                next_draw e n = S (S n)
                /\ exists c,
                     rerolled_state e n (state_of s) = VStr c
                     /\ nth_error candidates (Z.to_nat (Qfloor (random e (S n) * 12))) = Some c
                     /\ In c candidates)
            /\ (~ (random e n < 1 # 4)%Q ->
                next_draw e n = S n
                /\ rerolled_state e n (state_of s) = state_of s
                /\ (lookup "state" fields <> None -> fields' = fields)))
    /\ (forall u : Q, Qltb u (1 # 4) = true <-> (u < 1 # 4)%Q)
    /\ (forall (v : Q) (j : Z),
          Qfloor (v * 12) = j <-> (inject_Z j <= v * 12 /\ v * 12 < inject_Z (j + 1))%Q).
Proof.
  intros Hlive Hc Hdemo Hfile Hparse Hobj Hrand positions.
  exists (demo_entries e 0 base).
  split; [apply (demo_states_answer e g text base); assumption|].
  split; [apply demo_entries_length|].
  split; [|split; [intros u; apply Qltb_lt|intros v j; apply Qfloor_interval]].
  intros i s Hi.
  destruct (demo_entries_nth e base 0%nat i s Hi) as (n & Hp & Hd & Hn).
  assert (Hs : is_object s = true).
  { rewrite Forall_forall in Hobj. apply Hobj. eapply nth_error_In. exact Hi. }
  destruct s as [| | | | | |fields]; try discriminate Hs.
  exists n, fields, (set_field "state" (rerolled_state e n (state_of (VObj fields))) fields).
  split; [reflexivity|]. split; [exact Hd|]. split; [exact Hp|]. split; [exact Hn|].
  split; [unfold next_draw; destruct (Qltb (random e n) (1 # 4)); lia|].
  split; [apply set_field_others|]. split; [apply set_field_lookup|].
  unfold rerolled_state, next_draw. split.
  - intros Hlt. apply Qltb_lt in Hlt. rewrite Hlt. split; [reflexivity|].
    destruct (candidate_in_pool (random e (S n)) (Hrand (S n))) as (c & Hc1 & Hc2 & Hc3).
    exists c. auto.
  - intros Hge.
    destruct (Qltb (random e n) (1 # 4)) eqn:Hq; [apply Qltb_lt in Hq; contradiction|].
    split; [reflexivity|]. split; [reflexivity|].
    intros Hhas. apply set_field_same. unfold state_of. cbn [get_state].
    destruct (lookup "state" fields); [reflexivity|contradiction].
Qed.

(** *** An absent URL *)

(** [toAbs] never yields the empty string: what it cannot resolve is null. *)
Lemma toAbs_truthy (s u : string) : toAbs cfg s = Some u -> truthy_str u = true.
Proof.
  unfold toAbs. destruct (truthy_str s) eqn:Hs; cbn; [|discriminate].
  destruct (is_http_url s); [intros H; inversion H; subst; exact Hs|].
  destruct (truthy_str (BASE cfg)) eqn:Hb; cbn; [|discriminate].
  intros H; inversion H. unfold truthy_str in *.
  destruct (BASE cfg); [discriminate|reflexivity].
Qed.

Lemma toAbs_none (s : string) : truthy_opt (toAbs cfg s) = false <-> toAbs cfg s = None.
Proof.
  split.
  - destruct (toAbs cfg s) as [u|] eqn:Hu; [|reflexivity].
    cbn. rewrite (toAbs_truthy s u Hu). discriminate.
  - intros ->. reflexivity.
Qed.

(** Without a URL [tryRemote] fails at once, without a network call. *)
Lemma tryRemote_absent e url k p :
  truthy_opt url = false ->
  tryRemote cfg e url k p
  = (Ok (Failed 502 (String_of_error (invalid_url (show_opt url))) None),
     p,
     [Warn k ("fetch error: TypeError Failed to parse URL from " ++ show_opt url)%string]).
Proof.
  intros Hu. unfold tryRemote, try_catch, fetchWithTimeout, fetch, bind, emit, ret.
  destruct url as [u|]; cbn in *; [rewrite Hu|]; reflexivity.
Qed.

Lemma resolution_skips_absent rq k e g :
  resource rq = Some k ->
  toAbs cfg (configured cfg k) = None ->
  filter is_remote_effect (log (serve cfg rq e g)) = [].
Proof.
  intros Hk. destruct rq; inversion Hk; subst k; unfold configured; cbn.
  all: intros Hnone; run; rewrite ?Hnone in *; try discriminate; reflexivity.
Qed.

Lemma proxy_rejects_absent e g path :
  toAbs cfg path = None ->
  answer (serve cfg (GetProxy path) e g)
  = Ok {| status := 400; headers := []; ctype := Some "application/json"%string;
          body := Json (VObj [("error"%string, VStr "Invalid path or base not set")]) |}
  /\ log (serve cfg (GetProxy path) e g) = [].
Proof.
  intros Hnone. run; rewrite ?Hnone in *; try discriminate. split; reflexivity.
Qed.

(** C8, as amended. Given an absent URL (null or the empty string)
    [tryRemote] makes no network call and returns at once a failure outcome
    with status 502 whose error is the text of the TypeError that [fetch]
    raised for the unparsable URL; no outcome is tagged not-configured.
    The resolvers never hand it an absent URL (they skip the live call), and
    /api/proxy answers 400 without calling it. *)
Theorem C8_absent_url_fails_with_502 (e : Env) (url : option string) (k : Kind) (p : Proc) :
  truthy_opt url = false ->
  tryRemote cfg e url k p
  = (Ok (Failed 502 (String_of_error (invalid_url (show_opt url))) None),
     p,
     [Warn k ("fetch error: TypeError Failed to parse URL from " ++ show_opt url)%string])
  /\ (forall rq k' e' g,
        resource rq = Some k' -> toAbs cfg (configured cfg k') = None ->
        filter is_remote_effect (log (serve cfg rq e' g)) = [])
  /\ (forall path e' g,
        toAbs cfg path = None ->
        answer (serve cfg (GetProxy path) e' g)
        = Ok {| status := 400; headers := []; ctype := Some "application/json"%string;
                body := Json (VObj [("error"%string, VStr "Invalid path or base not set")]) |}
        /\ log (serve cfg (GetProxy path) e' g) = []).
Proof.
  intros Hu. split; [apply tryRemote_absent; exact Hu|]. split.
  - intros rq k' e' g. apply resolution_skips_absent.
  - intros path e' g. apply proxy_rejects_absent.
Qed.

(** *** The probes *)

(** C9. /health and /api/proxy leave every global as it was, assign none,
    and answer and log the same whatever the globals are. *)
Theorem C9_health_and_proxy_are_stateless (e : Env) (path : string) (g g' : Globals) :
  (after (serve cfg GetHealth e g) = g
   /\ filter is_write (log (serve cfg GetHealth e g)) = []
   /\ answer (serve cfg GetHealth e g) = answer (serve cfg GetHealth e g')
   /\ log (serve cfg GetHealth e g) = log (serve cfg GetHealth e g'))
  /\ (after (serve cfg (GetProxy path) e g) = g
      /\ filter is_write (log (serve cfg (GetProxy path) e g)) = []
      /\ answer (serve cfg (GetProxy path) e g) = answer (serve cfg (GetProxy path) e g')
      /\ log (serve cfg (GetProxy path) e g) = log (serve cfg (GetProxy path) e g')).
Proof.
  split.
  - run; rewrite ?filter_app, ?effects_at_no_write; cbn.
    all: repeat split; try reflexivity; destruct g; reflexivity.
  - run; rewrite ?filter_app, ?effects_at_no_write; cbn.
    all: repeat split; try reflexivity; destruct g; reflexivity.
Qed.

(** *** The fallback flag *)

Lemma demo_path_eq rq k e g :
  resource rq = Some k ->
  demo_path cfg e k rq g
  = (negb (truthy_opt (toAbs cfg (configured cfg k))
           && negb (clock e 1 <? nextTryAtOf k g)
           && out_ok (outcome_at cfg e 0 (toAbs cfg (configured cfg k)) k))
     && negb (truthy (data (cacheOf k g)))
     && DEMO_CONFIGURED cfg)%bool.
Proof. intros Hk. unfold demo_path. now rewrite (live_ok_eq rq k e g Hk). Qed.

(** The first thing a resolver does is to put its flag to false. *)
Lemma flag_cleared_first rq k e g :
  resource rq = Some k ->
  hd_error (log (serve cfg rq e g)) = Some (SetFallback k false).
Proof.
  intros Hk. destruct rq; inversion Hk; subst k.
  all: run; reflexivity.
Qed.

(** The flag after a resolution tells whether it went down the demo path. *)
Lemma flag_is_demo_path rq k e g :
  resource rq = Some k ->
  fallbackOf k (after (serve cfg rq e g)) = demo_path cfg e k rq g.
Proof.
  intros Hk. rewrite (demo_path_eq rq k e g Hk).
  destruct rq; inversion Hk; subst k;
    unfold configured, nextTryAtOf, cacheOf, fallbackOf; cbn -[Z.ltb].
  all: run; use_tests; reflexivity.
Qed.

Lemma flag_set_on_demo_path_only rq k e g :
  resource rq = Some k ->
  In (SetFallback k true) (log (serve cfg rq e g)) ->
  demo_path cfg e k rq g = true.
Proof.
  intros Hk. rewrite (demo_path_eq rq k e g Hk).
  destruct rq; inversion Hk; subst k;
    unfold configured, nextTryAtOf, cacheOf, fallbackOf; cbn -[Z.ltb].
  all: run; use_tests; intros H; log_member H; try reflexivity.
  all: inversion H.
Qed.

(** In a response the flag shows as the X-Demo-Fallback header. *)
Lemma flag_matches_answer rq k e g r :
  resource rq = Some k ->
  answer (serve cfg rq e g) = Ok r ->
  fallbackOf k (after (serve cfg rq e g)) = has_header "X-Demo-Fallback" (kind_name k) r
  /\ (has_header "X-Cache" ("hit-" ++ kind_name k) r = true ->
      fallbackOf k (after (serve cfg rq e g)) = false)
  /\ (status r = 500 -> fallbackOf k (after (serve cfg rq e g)) = false).
Proof.
  intros Hk. destruct rq; inversion Hk; subst k; unfold fallbackOf; cbn.
  all: run; intros H; inversion H; subst; cbn.
  all: repeat split; try reflexivity; try discriminate.
Qed.

(** A resolver throws on the demo path only. *)
Lemma throws_on_demo_path_only rq k e g err :
  resource rq = Some k ->
  answer (serve cfg rq e g) = Throw err ->
  demo_path cfg e k rq g = true.
Proof.
  intros Hk. rewrite (demo_path_eq rq k e g Hk).
  destruct rq; inversion Hk; subst k;
    unfold configured, nextTryAtOf, cacheOf, fallbackOf; cbn -[Z.ltb].
  all: run; use_tests; intros H; try discriminate H; reflexivity.
Qed.

(** Only the resolver of a resource touches its flag. *)
Lemma flag_kept rq k e g :
  k <> Proxy ->
  resolves k rq = false ->
  fallbackOf k (after (serve cfg rq e g)) = fallbackOf k g.
Proof.
  intros Hk Hr. destruct k; try congruence; destruct rq; try discriminate Hr;
    unfold fallbackOf; cbn.
  all: run; reflexivity.
Qed.

(** ... over any run of such requests. *)
Lemma flag_kept_over_run k rqs :
  k <> Proxy ->
  Forall (fun rqe => resolves k (fst rqe) = false) rqs ->
  forall g, fallbackOf k (fst (serve_all cfg rqs g)) = fallbackOf k g.
Proof.
  intros Hk. induction 1 as [|[rq e] rest Hr _ IH]; intros g; [reflexivity|].
  cbn [serve_all]. specialize (IH (after (serve cfg rq e g))).
  destruct (serve_all cfg rest (after (serve cfg rq e g))) as [g' ss].
  cbn [fst] in *. rewrite IH. apply flag_kept; assumption.
Qed.

(** /config reports both flags as they are and changes nothing. *)
Lemma config_reports_flags e g r :
  answer (serve cfg GetConfig e g) = Ok r ->
  fallbackActive r
  = Some (VObj [("locations"%string, VBool (lastLocationsFallback g));
                ("states"%string, VBool (lastStatesFallback g))])
  /\ after (serve cfg GetConfig e g) = g.
Proof.
  run; intros H; inversion H; subst; cbn; split; try reflexivity; destruct g; reflexivity.
Qed.

(** C10, as amended. A resolver's first effect is to put its fallback
    flag to false, whatever else is suspended, and it puts it to true on
    the demo path only: in the turn that does so demo mode is on, the cache
    holds nothing truthy, and nothing has been answered yet, the sample
    file being still to read. So after a resolution that no other request
    for the same resource overlaps (none is suspended when it comes in, none
    comes in before it has ended; anything else may happen in between) the
    flag is true exactly when the resolution went down the demo path: if the
    handler returned a response the flag equals the presence of the
    X-Demo-Fallback header, and is false after a cache hit and after the
    500; if the handler threw, it did so on the demo path and the flag is
    true with nothing served. Any run of requests that do not resolve the
    resource keeps its flag, and /config reports the two flags as they
    stand. *)
Theorem C10_fallback_flag_tracks_demo_path (rq : Request) (k : Kind) (e : Env) (g : Globals) :
  resource rq = Some k ->
  let s := serve cfg rq e g in
  hd_error (log s) = Some (SetFallback k false)
  /\ (In (SetFallback k true) (log s) -> demo_path cfg e k rq g = true)
  /\ fallbackOf k (after s) = demo_path cfg e k rq g
  /\ (forall r, answer s = Ok r ->
        fallbackOf k (after s) = has_header "X-Demo-Fallback" (kind_name k) r
        /\ (has_header "X-Cache" ("hit-" ++ kind_name k) r = true ->
            fallbackOf k (after s) = false)
        /\ (status r = 500 -> fallbackOf k (after s) = false))
  /\ (forall err, answer s = Throw err ->
        demo_path cfg e k rq g = true /\ fallbackOf k (after s) = true)
  /\ (forall rqs g',
        Forall (fun rqe => resolves k (fst rqe) = false) rqs ->
        fallbackOf k (fst (serve_all cfg rqs g')) = fallbackOf k g')
  /\ (forall e' g' r, answer (serve cfg GetConfig e' g') = Ok r ->
        fallbackActive r
        = Some (VObj [("locations"%string, VBool (lastLocationsFallback g'));
                      ("states"%string, VBool (lastStatesFallback g'))])
        /\ after (serve cfg GetConfig e' g') = g')
  /\ (forall sys,
        hd_error (step_log (snd (sys_step cfg (Arrive rq e) sys)))
        = Some (SetFallback k false))
  /\ (forall ev sys,
        In (SetFallback k true) (step_log (snd (sys_step cfg ev sys))) ->
        DEMO_CONFIGURED cfg = true
        /\ truthy (data (cacheOf k (shared (fst (sys_step cfg ev sys))))) = false
        /\ cacheOf k (shared (fst (sys_step cfg ev sys))) = cacheOf k (shared sys)
        /\ fallbackOf k (shared (fst (sys_step cfg ev sys))) = true
        /\ answered (snd (sys_step cfg ev sys)) = None)
  /\ (forall evs sys,
        shared sys = g ->
        suspended k (waiting sys) = [] ->
        (forall rq' e', In (Arrive rq' e') evs -> resolves k rq' = false) ->
        let run := run_events cfg (Arrive rq e :: evs) sys in
        suspended k (waiting (fst run)) = [] ->
        fallbackOf k (shared (fst run)) = demo_path cfg e k rq g
        /\ answers (filter (about k) (snd run)) = [answer s]).
Proof.
  intros Hk s. subst s.
  split; [apply flag_cleared_first; exact Hk|].
  split; [apply flag_set_on_demo_path_only; exact Hk|].
  split; [apply flag_is_demo_path; exact Hk|].
  split; [intros r; apply flag_matches_answer; exact Hk|].
  split.
  { intros err Herr. rewrite (flag_is_demo_path rq k e g Hk).
    split; apply (throws_on_demo_path_only rq k e g err Hk Herr). }
  split.
  { intros rqs g' Hall. apply flag_kept_over_run; [|exact Hall].
    destruct rq; inversion Hk; discriminate. }
  split; [intros e' g' r; apply config_reports_flags|].
  split; [intros sys; apply arrival_clears_flag_first; exact Hk|].
  split; [intros ev sys; apply flag_set_in_turn|].
  intros evs sys <- Hnone Hall run Hend. subst run.
  destruct (resolution_among_others cfg rq k e evs sys Hk Hnone Hall Hend) as [Hv Ha].
  split; [|exact Ha].
  rewrite <- (flag_is_demo_path rq k e (shared sys) Hk).
  unfold view in Hv. congruence.
Qed.

End Claims.

(** ** The properties on the sample deployment *)

Import Sample.

Example toAbs_relative :
  toAbs Sample.cfg "/locations" = Some "https://feed.example/locations"%string.
Proof. reflexivity. Qed.

Example toAbs_absolute :
  toAbs Sample.cfg "HTTPS://other.example/x" = Some "HTTPS://other.example/x"%string.
Proof. reflexivity. Qed.

Example toAbs_empty : toAbs Sample.cfg "" = None.
Proof. reflexivity. Qed.

(** No locator and demo mode on: the demo file under X-Demo-Fallback, and
    no upstream call. *)
Example unset_locator_serves_demo :
  let s := serve cfg_no_locations GetLocations (env_at 1000 (Ok unavailable)) initial in
  answer s
  = Ok {| status := 200;
          headers := [("X-Demo-Fallback", "locations")%string];
          ctype := Some "application/json"%string;
          body := Sent (VStr "contents of sample-data/locations.geojson") |}
  /\ log s = [SetFallback Locations false; SetFallback Locations true;
              CallReadFile "sample-data/locations.geojson"].
Proof. split; reflexivity. Qed.

(** Three 503s with a threshold of 3: the third sets the deadline, the
    fourth request, inside the window, makes no call. *)
Example three_failures_then_backoff :
  map (fun s => fetches (log s)) (snd (serve_all Sample.cfg four_polls initial))
  = [1; 1; 1; 0]%nat
  /\ statesNextTryAt (fst (serve_all Sample.cfg four_polls initial)) = 35002
  /\ statesFailCount (fst (serve_all Sample.cfg four_polls initial)) = 0.
Proof. repeat split. Qed.

(** /config after one successful fetch of the states. *)
Example config_after_success :
  exists r,
    answer (serve Sample.cfg GetConfig (env_at 2000 (Ok unavailable)) states_cached) = Ok r
    /\ fallbackActive r
       = Some (VObj [("locations"%string, VBool false); ("states"%string, VBool false)]).
Proof. eexists. split; reflexivity. Qed.

(** C1 at a request that arrives at time 1000 while the locations resource
    backs off until 40000. *)
Lemma C1_witness :
  resource GetLocations = Some Locations
  /\ time_at_gate (env_at 1000 (Ok unavailable)) < nextTryAtOf Locations backing_off
  /\ fetches (log (serve Sample.cfg GetLocations (env_at 1000 (Ok unavailable)) backing_off))
     = 0%nat.
Proof.
  split; [reflexivity|]. split; [reflexivity|].
  destruct (C1_live_call_gate Sample.cfg GetLocations Locations
              (env_at 1000 (Ok unavailable)) backing_off eq_refl) as (_ & H & _).
  apply H. reflexivity.
Defined.

(** C1 as stated fails when requests overlap. Two polls of the locations
    have failed; a request comes in at 5000 and one at 5010, and both call
    upstream. The call of the second fails first: third failure, the window
    is set, until 35012. Then the call of the first succeeds, which puts the
    deadline back to 0. The request that comes in at 6000 reads 6001 at the
    gate, inside the window that was set, and calls upstream. *)
Lemma C1_counterexample :
  (exists r, nth_error (snd (run_events Sample.cfg Overlap.until_trip idle)) 8 = Some r
             /\ In (SetNextTryAt Locations 35012) (step_log r))
  /\ nextTryAtOf Locations (shared Overlap.tripped) = 35012
  /\ in_flight Locations (waiting Overlap.tripped) = 1%nat
  /\ nextTryAtOf Locations (shared Overlap.late_success) = 0
  /\ time_at_gate (env_at 6000 (Ok unavailable)) = 6001
  /\ 6001 < 35012
  /\ fetches (step_log (snd (sys_step Sample.cfg
                               (Arrive GetLocations (env_at 6000 (Ok unavailable)))
                               Overlap.late_success)))
     = 1%nat.
Proof.
  split.
  - eexists. split; [vm_compute; reflexivity|]. vm_compute. tauto.
  - repeat split; vm_compute; reflexivity.
Qed.

(** C2 at the first failure of a fresh process. *)
Lemma C2_witness :
  reachable Sample.cfg initial
  /\ 1 <= BACKOFF_AFTER_FAILS Sample.cfg
  /\ (BACKOFF_AFTER_FAILS Sample.cfg <=? failCountOf Locations initial + 1)
     = (failCountOf Locations initial + 1 =? BACKOFF_AFTER_FAILS Sample.cfg).
Proof.
  split; [constructor|]. split; [vm_compute; discriminate|].
  destruct (C2_fail_and_success_transitions Sample.cfg (env_at 1000 (Ok unavailable))
              Locations (start initial)) as (_ & _ & H & _).
  apply H; [constructor|vm_compute; discriminate].
Defined.


(** C4 when upstream is down and the states are cached. *)
Lemma C4_witness :
  resource GetStates = Some States
  /\ truthy (data (cacheOf States states_cached)) = true
  /\ live_ok Sample.cfg (env_at 5000 (Ok unavailable)) States
       (serve Sample.cfg GetStates (env_at 5000 (Ok unavailable)) states_cached) = false
  /\ answer (serve Sample.cfg GetStates (env_at 5000 (Ok unavailable)) states_cached)
     = Ok {| status := 200;
             headers := [("X-Cache", "hit-states")%string];
             ctype := Some "application/json"%string;
             body := Json two_states |}.
Proof.
  split; [reflexivity|]. split; [reflexivity|]. split; [reflexivity|].
  destruct (C4_truthy_cache_is_served Sample.cfg GetStates States
              (env_at 5000 (Ok unavailable)) states_cached eq_refl eq_refl eq_refl)
    as (H & _).
  exact H.
Defined.

(** C4 as stated fails: a successful fetch stored its (empty) text in the
    cache, the next live call fails, and the answer is the demo file under
    X-Demo-Fallback, not the cached text under X-Cache. *)
Lemma C4_counterexample :
  live_ok Sample.cfg (env_at 1000 (Ok empty_text)) Locations
    (serve Sample.cfg GetLocations (env_at 1000 (Ok empty_text)) initial) = true
  /\ cacheLocations empty_cached
     = {| data := VStr ""; contentType := "text/csv"; at_ := 1000 |}
  /\ live_ok Sample.cfg (env_at 5000 (Ok unavailable)) Locations
       (serve Sample.cfg GetLocations (env_at 5000 (Ok unavailable)) empty_cached) = false
  /\ exists r,
       answer (serve Sample.cfg GetLocations (env_at 5000 (Ok unavailable)) empty_cached)
       = Ok r
       /\ body r = Sent (VStr "contents of sample-data/locations.geojson")
       /\ body r <> Sent (data (cacheLocations empty_cached))
       /\ has_header "X-Cache" "hit-locations" r = false
       /\ has_header "X-Demo-Fallback" "locations" r = true.
Proof.
  split; [reflexivity|]. split; [reflexivity|]. split; [reflexivity|].
  eexists. split; [reflexivity|].
  split; [reflexivity|]. split; [discriminate|]. split; reflexivity.
Qed.

(** C5 at a failed resolution of the locations. *)
Lemma C5_witness :
  Locations <> Proxy
  /\ live_ok Sample.cfg (env_at 5000 (Ok unavailable)) Locations
       (serve Sample.cfg GetLocations (env_at 5000 (Ok unavailable)) states_cached) = false
  /\ cacheOf Locations
       (after (serve Sample.cfg GetLocations (env_at 5000 (Ok unavailable)) states_cached))
     = cacheOf Locations states_cached.
Proof.
  split; [discriminate|]. split; [reflexivity|].
  destruct (C5_cache_written_only_by_live_success Sample.cfg GetLocations
              (env_at 5000 (Ok unavailable)) states_cached Locations) as (_ & H & _).
  - discriminate.
  - apply H. right. reflexivity.
Defined.

(** C6 on a fresh process with demo mode off and upstream down. *)
Lemma C6_witness :
  resource GetLocations = Some Locations
  /\ live_ok cfg_no_demo (env_at 1000 (Ok unavailable)) Locations
       (serve cfg_no_demo GetLocations (env_at 1000 (Ok unavailable)) initial) = false
  /\ truthy (data (cacheOf Locations initial)) = false
  /\ DEMO_CONFIGURED cfg_no_demo = false
  /\ answer (serve cfg_no_demo GetLocations (env_at 1000 (Ok unavailable)) initial)
     = Ok {| status := 500;
             headers := [];
             ctype := Some "application/json"%string;
             body := Json (VObj [("error"%string,
                                  VStr "LOCATIONS_URL failed, and demo mode disabled")]) |}.
Proof.
  split; [reflexivity|]. split; [reflexivity|]. split; [reflexivity|]. split; [reflexivity|].
  exact (C6_unavailable_is_500 cfg_no_demo GetLocations Locations
           (env_at 1000 (Ok unavailable)) initial eq_refl eq_refl eq_refl eq_refl).
Defined.

Lemma sample_draws_in_range r n : (0 <= random (env_at 1000 r) n < 1)%Q.
Proof.
  cbn. destruct (Nat.even n); split; unfold Qle, Qlt; cbn; lia.
Defined.

(** C7 on a fresh process with upstream down: the first entry's draw is
    1/8, so it is re-rolled, by the draw 11/12, to the last candidate. *)
Lemma C7_witness :
  live_ok Sample.cfg (env_at 1000 (Ok unavailable)) States
    (serve Sample.cfg GetStates (env_at 1000 (Ok unavailable)) initial) = false
  /\ truthy (data (cacheStates initial)) = false
  /\ DEMO_CONFIGURED Sample.cfg = true
  /\ files (env_at 1000 (Ok unavailable)) "sample-data/states.json"
     = Ok "contents of sample-data/states.json"%string
  /\ parse_json (env_at 1000 (Ok unavailable)) "contents of sample-data/states.json"
     = Ok two_states
  /\ exists out,
       answer (serve Sample.cfg GetStates (env_at 1000 (Ok unavailable)) initial)
       = Ok {| status := 200;
               headers := [("X-Demo-Fallback", "states")%string];
               ctype := Some "application/json"%string;
               body := Json (VArr out) |}
       /\ length out = 2%nat.
Proof.
  split; [reflexivity|]. split; [reflexivity|]. split; [reflexivity|].
  split; [reflexivity|]. split; [reflexivity|].
  destruct (C7_demo_states_rerolled Sample.cfg (env_at 1000 (Ok unavailable)) initial
              "contents of sample-data/states.json"
              [VObj [("id", VStr "TRE101"); ("state", VStr "3")];
               VObj [("id", VStr "TRE102"); ("state", VStr "0")]]%string
              eq_refl eq_refl eq_refl eq_refl eq_refl)
    as (out & Hans & Hlen & _).
  - repeat constructor.
  - apply sample_draws_in_range.
  - exists out. split; [exact Hans|exact Hlen].
Defined.

(** C8 at the null URL. *)
Lemma C8_witness :
  truthy_opt None = false
  /\ tryRemote Sample.cfg (env_at 1000 (Ok unavailable)) None States (start initial)
     = (Ok (Failed 502 "TypeError: Failed to parse URL from null" None),
        start initial,
        [Warn States "fetch error: TypeError Failed to parse URL from null"]).
Proof.
  split; [reflexivity|].
  destruct (C8_absent_url_fails_with_502 Sample.cfg (env_at 1000 (Ok unavailable))
              None States (start initial) eq_refl) as (H & _).
  exact H.
Defined.

(** C8 as stated fails: for the null URL the outcome is the 502 failure
    carrying the TypeError, not an outcome tagged not-configured. *)
Lemma C8_counterexample :
  exists out,
    fst (fst (tryRemote Sample.cfg (env_at 1000 (Ok unavailable)) None States (start initial)))
    = Ok out
    /\ out_ok out = false
    /\ out_status out = Some 502
    /\ out_error out = Some "TypeError: Failed to parse URL from null"%string
    /\ out_error out <> Some "not configured"%string.
Proof.
  eexists. split; [reflexivity|]. repeat split. discriminate.
Qed.

(** C10 at a resolution served from the cache. *)
Lemma C10_witness :
  resource GetStates = Some States
  /\ fallbackOf States
       (after (serve Sample.cfg GetStates (env_at 5000 (Ok unavailable)) states_cached))
     = false.
Proof.
  split; [reflexivity|].
  destruct (C10_fallback_flag_tracks_demo_path Sample.cfg GetStates States
              (env_at 5000 (Ok unavailable)) states_cached eq_refl) as (_ & _ & H & _).
  rewrite H. reflexivity.
Defined.

(** C10 as stated fails in two ways. When the sample file cannot be read
    the handler throws after it has put the flag to true: the flag is true
    and the resolution served nothing. And when requests overlap: a request
    comes in at 1000 and one at 1010, both call upstream; the call of the
    first fails and it serves the demo file, flag true; then the call of the
    second succeeds and it serves the live data. The flag stays true, with
    the live data in the cache, and /config reports a fallback although the
    most recent resolution served live data. *)
Lemma C10_counterexample :
  (let s := serve Sample.cfg GetLocations (Sample2.env_no_files 1000 (Ok unavailable)) initial in
   answer s = Throw {| err_name := "Error"; err_message := "ENOENT" |}
   /\ fallbackOf Locations (after s) = true)
  /\ (let run := run_events Sample.cfg Overlap.slow_success idle in
      waiting (fst run) = []
      /\ (exists demo live,
            answers (snd run) = [Ok demo; Ok live]
            /\ has_header "X-Demo-Fallback" "locations" demo = true
            /\ has_header "X-Demo-Fallback" "locations" live = false
            /\ body live = Json two_states)
      /\ fallbackOf Locations (shared (fst run)) = true
      /\ data (cacheOf Locations (shared (fst run))) = two_states
      /\ exists r,
           answer (serve Sample.cfg GetConfig (env_at 2000 (Ok unavailable)) (shared (fst run)))
           = Ok r
           /\ fallbackActive r
              = Some (VObj [("locations"%string, VBool true); ("states"%string, VBool false)])).
Proof.
  split; [split; vm_compute; reflexivity|].
  split; [vm_compute; reflexivity|].
  split.
  { eexists. eexists. split; [vm_compute; reflexivity|].
    repeat split; vm_compute; reflexivity. }
  split; [vm_compute; reflexivity|]. split; [vm_compute; reflexivity|].
  eexists. split; [vm_compute; reflexivity|]. vm_compute. reflexivity.
Qed.

(** * Behaviour around the claims *)

(** ** Strings *)

Lemma toLowerCase_app (a b : string) :
  toLowerCase (a ++ b) = (toLowerCase a ++ toLowerCase b)%string.
Proof. induction a as [|c a IH]; cbn; [reflexivity|now rewrite IH]. Qed.

Lemma lower_ascii_idem (c : ascii) : lower_ascii (lower_ascii c) = lower_ascii c.
Proof. destruct c as [[] [] [] [] [] [] [] []]; reflexivity. Qed.

Lemma toLowerCase_idem (s : string) : toLowerCase (toLowerCase s) = toLowerCase s.
Proof. induction s as [|c s IH]; cbn; [reflexivity|now rewrite lower_ascii_idem, IH]. Qed.

Lemma prefix_app (p a b : string) :
  String.prefix p a = true -> String.prefix p (a ++ b) = true.
Proof.
  revert a. induction p as [|c p IH]; intros a H; [destruct (a ++ b)%string; reflexivity|].
  destruct a as [|d a]; [discriminate|]. cbn in *.
  destruct (ascii_dec c d); [auto|discriminate].
Qed.

Lemma prefix_refl (s : string) : String.prefix s s = true.
Proof.
  induction s as [|c s IH]; [reflexivity|]. cbn.
  destruct (ascii_dec c c); [exact IH|congruence].
Qed.

Lemma includes_self (s : string) : includes s s = true.
Proof. destruct s; cbn; [reflexivity|]. destruct (ascii_dec a a); [|congruence]. now rewrite prefix_refl. Qed.

Lemma is_http_url_app (a b : string) : is_http_url a = true -> is_http_url (a ++ b) = true.
Proof.
  unfold is_http_url. cbv zeta. rewrite toLowerCase_app. intros H.
  apply orb_true_iff in H. apply orb_true_iff.
  destruct H as [H | H]; [left | right]; apply prefix_app; exact H.
Qed.

Lemma truthy_str_false (s : string) : truthy_str s = false <-> s = "".
Proof.
  unfold truthy_str. rewrite negb_false_iff. apply String.eqb_eq.
Qed.

Lemma truthy_str_true (s : string) : truthy_str s = true <-> s <> "".
Proof.
  unfold truthy_str. rewrite negb_true_iff. apply String.eqb_neq.
Qed.

Lemma strip_leading_no_slash (s : string) :
  starts_with_slash (strip_leading_slashes s) = false.
Proof.
  induction s as [|c s IH]; [reflexivity|]. cbn [strip_leading_slashes].
  destruct (Ascii.eqb_spec c "/") as [->|Hc]; [exact IH|].
  assert (H : strip_leading_slashes (String c s) = String c s).
  { destruct c as [[] [] [] [] [] [] [] []]; try reflexivity. congruence. }
  cbn [strip_leading_slashes] in H. rewrite H. cbn.
  now apply Ascii.eqb_neq.
Qed.

Lemma strip_leading_slashes_run (n : nat) (s : string) :
  strip_leading_slashes (slashes n ++ s) = strip_leading_slashes s.
Proof. induction n as [|n IH]; [reflexivity|exact IH]. Qed.

Lemma strip_leading_decompose (s : string) :
  exists n, s = (slashes n ++ strip_leading_slashes s)%string.
Proof.
  induction s as [|c s [n IH]]; [exists 0%nat; reflexivity|].
  destruct (Ascii.eqb_spec c "/") as [->|Hc].
  - exists (S n). cbn. now rewrite <- IH.
  - exists 0%nat. destruct c as [[] [] [] [] [] [] [] []]; try reflexivity. congruence.
Qed.

Section Locators.

Variable cfg : Config.

Lemma toAbs_none_iff (s : string) :
  toAbs cfg s = None <-> s = "" \/ (is_http_url s = false /\ BASE cfg = "").
Proof.
  - unfold toAbs.
    destruct (truthy_str s) eqn:Hs; cbn.
    + apply truthy_str_true in Hs.
      destruct (is_http_url s) eqn:Hh.
      * split; [discriminate|]. intros [H | [H _]]; [contradiction|discriminate].
      * destruct (truthy_str (BASE cfg)) eqn:Hb; cbn.
        -- apply truthy_str_true in Hb.
           split; [discriminate|]. intros [H | [_ H]]; contradiction.
        -- apply truthy_str_false in Hb. split; auto.
    + apply truthy_str_false in Hs. split; auto.
Qed.

(** X1. [toAbs] answers null exactly when it is given the empty string, or
    a locator that is not an http(s) URL while no base is configured; what
    it answers otherwise is never the empty string. *)
Theorem toAbs_null_exactly (s : string) :
  (toAbs cfg s = None <-> s = "" \/ (is_http_url s = false /\ BASE cfg = ""))
  /\ (forall u, toAbs cfg s = Some u -> u <> "").
Proof.
  split; [apply toAbs_none_iff|].
  intros u Hu. apply truthy_str_true. exact (toAbs_truthy cfg s u Hu).
Qed.

Lemma toAbs_http (x : string) : is_http_url x = true -> toAbs cfg x = Some x.
Proof.
  intros Hx. unfold toAbs. rewrite Hx.
  destruct x; [discriminate Hx|reflexivity].
Qed.

(** X2. An http(s) URL, in any letter case of the scheme, is returned as it
    is. When the base is itself an http(s) URL every result of [toAbs] is
    one too, and resolving a result again changes nothing. *)
Theorem toAbs_absolute_fixed (s : string) :
  (is_http_url s = true -> toAbs cfg s = Some s)
  /\ (is_http_url (BASE cfg) = true ->
      forall u, toAbs cfg s = Some u -> is_http_url u = true /\ toAbs cfg u = Some u).
Proof.
  pose proof toAbs_http as Habs.
  split; [apply Habs|].
  intros Hbase u Hu.
  assert (Hhttp : is_http_url u = true).
  { revert Hu. unfold toAbs.
    destruct (truthy_str s); cbn; [|discriminate].
    destruct (is_http_url s) eqn:Hs; [intros H; inversion H; subst; exact Hs|].
    destruct (truthy_str (BASE cfg)); cbn; [|discriminate].
    intros H; inversion H. apply is_http_url_app. exact Hbase. }
  split; [exact Hhttp|apply Habs; exact Hhttp].
Qed.

(** X3. A locator that is not an http(s) URL is appended to the base after
    its leading slashes are dropped: the result is the base, one slash, and
    a remainder that does not start with a slash, so that putting any
    number of slashes in front of the locator gives the same URL. *)
Theorem toAbs_relative_join (s u : string) :
  is_http_url s = false ->
  toAbs cfg s = Some u ->
  u = (BASE cfg ++ "/" ++ strip_leading_slashes s)%string
  /\ starts_with_slash (strip_leading_slashes s) = false
  /\ (exists n, s = (slashes n ++ strip_leading_slashes s)%string)
  /\ (forall n, toAbs cfg (slashes n ++ s) = Some u).
Proof.
  intros Hrel Hu.
  assert (Hshape : truthy_str s = true /\ truthy_str (BASE cfg) = true
                   /\ u = (BASE cfg ++ "/" ++ strip_leading_slashes s)%string).
  { revert Hu. unfold toAbs. rewrite Hrel.
    destruct (truthy_str s); cbn; [|discriminate].
    destruct (truthy_str (BASE cfg)); cbn; [|discriminate].
    intros H; inversion H. auto. }
  destruct Hshape as (Hs & Hb & ->).
  split; [reflexivity|]. split; [apply strip_leading_no_slash|].
  split; [apply strip_leading_decompose|].
  intros n. destruct n as [|n]; [exact Hu|].
  unfold toAbs. rewrite Hb. cbn [negb].
  replace (is_http_url (slashes (S n) ++ s)) with false by reflexivity.
  replace (truthy_str (slashes (S n) ++ s)) with true by reflexivity.
  cbn [negb]. now rewrite strip_leading_slashes_run.
Qed.

End Locators.

Lemma strip_trailing_decompose (raw : string) :
  exists n, raw = (strip_trailing_slashes raw ++ slashes n)%string.
Proof.
  induction raw as [|c raw [n IH]]; [exists 0%nat; reflexivity|].
  cbn [strip_trailing_slashes].
  destruct (strip_trailing_slashes raw) as [|d r] eqn:Hr.
  - cbn in IH. destruct (Ascii.eqb_spec c "/") as [->|Hc].
    + exists (S n). cbn. now rewrite <- IH.
    + exists n. cbn. now rewrite <- IH.
  - exists n. cbn. cbn in IH. now rewrite <- IH.
Qed.

Lemma strip_trailing_no_slash (raw : string) :
  ends_with_slash (strip_trailing_slashes raw) = false.
Proof.
  induction raw as [|c raw IH]; [reflexivity|].
  cbn [strip_trailing_slashes].
  destruct (strip_trailing_slashes raw) as [|d r] eqn:Hr.
  - destruct (Ascii.eqb_spec c "/") as [->|Hc]; [reflexivity|].
    cbn. now apply Ascii.eqb_neq.
  - exact IH.
Qed.

Lemma strip_trailing_fixed (s : string) :
  ends_with_slash s = false -> strip_trailing_slashes s = s.
Proof.
  induction s as [|c s IH]; [reflexivity|].
  intros H. cbn [strip_trailing_slashes].
  destruct s as [|d s].
  - cbn in *. now rewrite H.
  - rewrite IH by exact H. reflexivity.
Qed.

(** X4. The base is the configured origin with exactly its trailing slashes
    removed: the origin is the base followed by a run of slashes, the base
    does not end with a slash, and stripping again changes nothing. *)
Theorem base_of_env_strips_trailing_slashes (raw : string) :
  (exists n, raw = (base_of_env raw ++ slashes n)%string)
  /\ ends_with_slash (base_of_env raw) = false
  /\ base_of_env (base_of_env raw) = base_of_env raw.
Proof.
  unfold base_of_env. split; [apply strip_trailing_decompose|].
  split; [apply strip_trailing_no_slash|].
  apply strip_trailing_fixed, strip_trailing_no_slash.
Qed.

(** ** The upstream fetcher *)

Section Fetcher.

Variable cfg : Config.

(** X5. [tryRemote] never throws: a rejected fetch, an unreadable body and
    a body that does not parse all come back as an outcome. It leaves the
    globals, the clock and the random draws alone, assigns nothing, and
    uses at most one network answer. *)
Theorem tryRemote_never_throws (e : Env) (url : option string) (k : Kind) (p : Proc) :
  exists out p' l,
    tryRemote cfg e url k p = (Ok out, p', l)
    /\ globals p' = globals p
    /\ ticks p' = ticks p
    /\ draws p' = draws p
    /\ calls p' = (if truthy_opt url then S (calls p) else calls p)
    /\ filter is_write l = []
    /\ fetches l = (if truthy_opt url then 1 else 0)%nat.
Proof.
  exists (outcome_at cfg e (calls p) url k), (called url p), (effects_at cfg e (calls p) url k).
  split; [apply tryRemote_eq|].
  unfold called.
  split; [destruct (truthy_opt url); reflexivity|].
  split; [destruct (truthy_opt url); reflexivity|].
  split; [destruct (truthy_opt url); reflexivity|].
  split; [destruct (truthy_opt url); reflexivity|].
  split; [apply effects_at_no_write|apply effects_at_fetches].
Qed.

(** The outcome of a call that reaches the network, from the answer. *)
Lemma outcome_of_answer (e : Env) (n : nat) (u : string) (k : Kind) :
  truthy_str u = true ->
  outcome_at cfg e n (Some u) k
  = match net e n u with
    | Throw err => Failed 502 (String_of_error err) None
    | Ok r =>
        if negb (r_ok r) then
          Failed (r_status r) ("Upstream " ++ show_Z (r_status r))%string
            (Some match r_text r with Ok t => t | Throw _ => ""%string end)
        else if declares_json r then
          match r_json r with
          | Ok d => OkJson d
          | Throw err => Failed 502 (String_of_error err) None
          end
        else
          match r_text r with
          | Ok t =>
              OkText t
                (if truthy_str (toLowerCase (type_or_empty (r_content_type r)))
                 then toLowerCase (type_or_empty (r_content_type r))
                 else "text/plain; charset=utf-8"%string)
          | Throw err => Failed 502 (String_of_error err) None
          end
    end.
Proof.
  intros Hu.
  unfold outcome_at, tryRemote_at, tryRemote, try_catch, fetchWithTimeout, fetch,
    bind, lift, ret, emit, declares_json.
  cbn. rewrite Hu.
  destruct (net e n u) as [r|err]; cbn; [|reflexivity].
  destruct (r_ok r); cbn; [|reflexivity].
  destruct (_ || _)%bool; cbn.
  - destruct (r_json r); reflexivity.
  - destruct (r_text r); reflexivity.
Qed.

(** X6. A call that reaches the network succeeds exactly when upstream
    answered with an ok status and the body could be read in the form the
    content type declares: parsed when it declares JSON, as text otherwise.
    A 200 answer declared as JSON whose body does not parse is therefore a
    failure, with status 502; so is every rejected fetch, while a non-ok
    answer fails with upstream's own status. *)
Theorem tryRemote_succeeds_exactly (e : Env) (n : nat) (u : string) (k : Kind) :
  truthy_str u = true ->
  let out := outcome_at cfg e n (Some u) k in
  (out_ok out = true <->
   exists r, net e n u = Ok r /\ r_ok r = true
             /\ if declares_json r then exists d, r_json r = Ok d
                else exists t, r_text r = Ok t)
  /\ (forall r err, net e n u = Ok r -> r_ok r = true -> declares_json r = true ->
                    r_json r = Throw err ->
                    out = Failed 502 (String_of_error err) None)
  /\ (forall err, net e n u = Throw err -> out = Failed 502 (String_of_error err) None)
  /\ (forall r, net e n u = Ok r -> r_ok r = false ->
                out_status out = Some (r_status r)
                /\ out_error out = Some ("Upstream " ++ show_Z (r_status r))%string).
Proof.
  intros Hu out. subst out. rewrite (outcome_of_answer e n u k Hu).
  split; [|split; [|split]].
  - destruct (net e n u) as [r|err]; cbn.
    + destruct (r_ok r) eqn:Hok; cbn.
      * destruct (declares_json r) eqn:Hj.
        -- destruct (r_json r) as [d|err] eqn:Hd; cbn.
           ++ split; [|reflexivity]. intros _. exists r.
              rewrite Hj. repeat split; eauto.
           ++ split; [discriminate|]. intros (r' & Hr & _ & H).
              inversion Hr; subst r'. rewrite Hj in H. destruct H as [d H]. congruence.
        -- destruct (r_text r) as [t|err] eqn:Ht; cbn.
           ++ split; [|reflexivity]. intros _. exists r.
              rewrite Hj. repeat split; eauto.
           ++ split; [discriminate|]. intros (r' & Hr & _ & H).
              inversion Hr; subst r'. rewrite Hj in H. destruct H as [t H]. congruence.
      * split; [discriminate|]. intros (r' & Hr & Hok' & _).
        inversion Hr; subst r'. congruence.
    + split; [discriminate|]. intros (r' & Hr & _). discriminate.
  - intros r err Hr Hok Hj Hd. rewrite Hr, Hok, Hj, Hd. reflexivity.
  - intros err Hr. rewrite Hr. reflexivity.
  - intros r Hr Hok. rewrite Hr, Hok. cbn. split; reflexivity.
Qed.

(** The content type of a text outcome. *)
Lemma text_outcome_type (e : Env) (n : nat) (url : option string) (k : Kind) t ct :
  outcome_at cfg e n url k = OkText t ct ->
  ct <> "" /\ ct <> "application/json" /\ toLowerCase ct = ct
  /\ includes "application/json" ct = false /\ includes "+json" ct = false.
Proof.
  destruct url as [u|].
  - destruct (truthy_str u) eqn:Hu.
    + rewrite (outcome_of_answer e n u k Hu).
      destruct (net e n u) as [r|err]; [|discriminate].
      destruct (r_ok r); cbn; [|discriminate].
      unfold declares_json. cbv zeta.
      set (ct0 := toLowerCase (type_or_empty (r_content_type r))).
      destruct (includes "application/json" ct0) eqn:H1; cbn.
      { destruct (r_json r); discriminate. }
      destruct (includes "+json" ct0) eqn:H2; cbn.
      { destruct (r_json r); discriminate. }
      destruct (r_text r) as [t0|err]; [|discriminate].
      intros H; inversion H; subst t0 ct; clear H.
      destruct (truthy_str ct0) eqn:Hc.
      * split; [now apply truthy_str_true|].
        split; [intros Heq; rewrite Heq in H1; discriminate H1|].
        split; [apply toLowerCase_idem|]. split; assumption.
      * repeat split; discriminate || reflexivity.
    + unfold outcome_at, tryRemote_at. rewrite (tryRemote_absent cfg e (Some u) k); [discriminate|].
      exact Hu.
  - unfold outcome_at, tryRemote_at. rewrite (tryRemote_absent cfg e None k); [discriminate|reflexivity].
Qed.

(** X7. A text outcome never carries the content type "application/json":
    its type is the declared one in lower case, or "text/plain;
    charset=utf-8" when none was declared, and it mentions JSON in neither
    of the two ways line 101 looks for. So the handlers' test
    [out.contentType === "application/json"] is true exactly for the
    outcomes that carry parsed data. *)
Theorem tryRemote_json_test_is_exact (e : Env) (n : nat) (url : option string) (k : Kind) :
  let out := outcome_at cfg e n url k in
  (is_json_type (out_contentType out) = true <-> exists d, out = OkJson d)
  /\ (forall t ct, out = OkText t ct ->
        ct <> "" /\ toLowerCase ct = ct
        /\ includes "application/json" ct = false /\ includes "+json" ct = false).
Proof.
  intros out. subst out. split.
  - destruct (outcome_at cfg e n url k) as [st err txt|d|t ct] eqn:Hout; cbn.
    + split; [discriminate|]. intros [d H]; discriminate.
    + split; [eauto|reflexivity].
    + destruct (text_outcome_type e n url k t ct Hout) as (_ & Hne & _).
      split.
      * intros H. apply String.eqb_eq in H. contradiction.
      * intros [d H]; discriminate.
  - intros t ct Hout.
    destruct (text_outcome_type e n url k t ct Hout) as (H1 & _ & H3 & H4 & H5). auto.
Qed.

End Fetcher.

(** ** The resolvers, request by request *)

(** A member of a handler's log, case by case. *)
Ltac log_cases H :=
  repeat first [ apply in_app_or in H; destruct H as [H | H]
               | apply effects_at_In in H;
                 destruct H as [[? H] | [? H]]; try discriminate H
               | destruct H as [H | H]; try discriminate H
               | contradiction H ].

Section Resolvers.

Variable cfg : Config.

Lemma gate_open_iff (rq : Request) (k : Kind) (e : Env) (g : Globals) :
  resource rq = Some k ->
  fetches (log (serve cfg rq e g)) = 1%nat <->
  toAbs cfg (configured cfg k) <> None /\ nextTryAtOf k g <= time_at_gate e.
Proof.
  intros Hk.
  rewrite (resolution_fetches cfg rq k e g Hk). unfold time_at_gate.
  destruct (truthy_opt (toAbs cfg (configured cfg k))) eqn:Hu; cbn.
  - assert (Hsome : toAbs cfg (configured cfg k) <> None).
    { intros Hn. apply toAbs_none in Hn. congruence. }
    destruct (Z.ltb_spec (clock e 1) (nextTryAtOf k g)); cbn.
    + split; [discriminate|]. intros [_ H']. lia.
    + split; [auto|reflexivity].
  - apply toAbs_none in Hu. split; [discriminate|]. intros [H' _]. contradiction.
Qed.

(** X8. A resolver makes its live call exactly when its locator resolves
    to a URL and the clock read at the gate is at or after the deadline: at
    the deadline itself the call is made. The only URL it ever calls is the
    one its own locator resolves to. *)
Theorem live_call_made_exactly (rq : Request) (k : Kind) (e : Env) (g : Globals) :
  resource rq = Some k ->
  let s := serve cfg rq e g in
  (fetches (log s) = 1%nat <->
   toAbs cfg (configured cfg k) <> None /\ nextTryAtOf k g <= time_at_gate e)
  /\ (forall u, In (CallFetch u) (log s) -> toAbs cfg (configured cfg k) = Some u).
Proof.
  intros Hk s. subst s. split.
  - apply gate_open_iff. exact Hk.
  - intros u. destruct rq; inversion Hk; subst k; unfold configured; cbn.
    all: run; intros H; log_cases H.
    all: inversion H; subst.
    all: match goal with
         | |- ?x = Some (show_opt ?x) => destruct x; [reflexivity|discriminate]
         end.
Qed.

Lemma failed_call_counts (rq : Request) (k : Kind) (e : Env) (g : Globals) :
  resource rq = Some k ->
  fetches (log (serve cfg rq e g)) = 1%nat ->
  live_ok cfg e k (serve cfg rq e g) = false ->
  if BACKOFF_AFTER_FAILS cfg <=? failCountOf k g + 1
  then failCountOf k (after (serve cfg rq e g)) = 0
       /\ nextTryAtOf k (after (serve cfg rq e g)) = clock e 2 + BACKOFF_WINDOW_MS cfg
  else failCountOf k (after (serve cfg rq e g)) = failCountOf k g + 1
       /\ nextTryAtOf k (after (serve cfg rq e g)) = nextTryAtOf k g.
Proof.
  intros Hk.
  rewrite (live_ok_eq cfg rq k e g Hk), (resolution_fetches cfg rq k e g Hk).
  destruct rq; inversion Hk; subst k;
    unfold configured, nextTryAtOf, failCountOf; cbn -[Z.ltb Z.leb].
  all: run; use_tests.
  all: repeat split; intros; try discriminate; try reflexivity.
Qed.

(** X9. What a resolution does to the counter and the deadline of its
    resource: a live success puts both to 0; a live call that fails counts
    one failure, and when that reaches the threshold it sets the deadline to
    the clock read after the failure plus the window and restarts the
    counter; a skipped call leaves both as they were. *)
Theorem resolution_transition (rq : Request) (k : Kind) (e : Env) (g : Globals) :
  resource rq = Some k ->
  let s := serve cfg rq e g in
  let c := failCountOf k g + 1 in
  (live_ok cfg e k s = true ->
   failCountOf k (after s) = 0 /\ nextTryAtOf k (after s) = 0)
  /\ (fetches (log s) = 1%nat -> live_ok cfg e k s = false ->
      if BACKOFF_AFTER_FAILS cfg <=? c
      then failCountOf k (after s) = 0
           /\ nextTryAtOf k (after s) = clock e 2 + BACKOFF_WINDOW_MS cfg
      else failCountOf k (after s) = c
           /\ nextTryAtOf k (after s) = nextTryAtOf k g)
  /\ (fetches (log s) = 0%nat ->
      failCountOf k (after s) = failCountOf k g
      /\ nextTryAtOf k (after s) = nextTryAtOf k g).
Proof.
  intros Hk s c. subst s c.
  rewrite (live_ok_eq cfg rq k e g Hk), (resolution_fetches cfg rq k e g Hk).
  destruct rq; inversion Hk; subst k;
    unfold configured, nextTryAtOf, failCountOf; cbn -[Z.ltb Z.leb].
  all: run; use_tests.
  all: repeat split; intros; try discriminate; try reflexivity.
Qed.

(** X13. A request touches only the variables of the resource it resolves:
    the flag, cache, counter and deadline of a resource are the same after
    any request to another endpoint, the other resolver included. *)
Theorem other_requests_keep_resource (rq : Request) (k : Kind) (e : Env) (g : Globals) :
  k <> Proxy ->
  resolves k rq = false ->
  let s := serve cfg rq e g in
  fallbackOf k (after s) = fallbackOf k g
  /\ cacheOf k (after s) = cacheOf k g
  /\ failCountOf k (after s) = failCountOf k g
  /\ nextTryAtOf k (after s) = nextTryAtOf k g.
Proof.
  intros Hk Hr s. subst s.
  destruct k; try congruence; destruct rq; try discriminate Hr;
    unfold fallbackOf, cacheOf, failCountOf, nextTryAtOf; cbn.
  all: run; repeat split; reflexivity.
Qed.

End Resolvers.

(** ** What holds in every state of a running process *)

Section Invariants.

Variable cfg : Config.

(** X10. The failure counters are never negative and never reach the
    threshold: in every reachable state each lies in [0, max 1 threshold). *)
Theorem counters_stay_below_threshold (g : Globals) :
  reachable cfg g ->
  (0 <= locFailCount g < Z.max 1 (BACKOFF_AFTER_FAILS cfg))
  /\ (0 <= statesFailCount g < Z.max 1 (BACKOFF_AFTER_FAILS cfg)).
Proof.
  intros Hr. induction Hr as [|rq e g Hr IH]; [cbn; lia|].
  destruct IH as [Hl Hs]. revert Hl Hs.
  destruct rq; run; intros; lia.
Qed.

(** X11. As long as no request for a resource comes in while a live call
    for it is still out, in whatever order the handlers are resumed
    otherwise: at most one live call of the resource is out, its fallback
    flag is false while one is, and the flag is true only where demo mode
    is on and the cache of the resource holds nothing truthy, so /config
    reports no fallback for a resource with data in its cache. Requests
    that do overlap a live call break this: the handler that puts the flag
    to true can be overtaken by a live success that fills the cache. *)
Theorem flag_implies_empty_cache_apart (k : Kind) (sys : System) :
  k <> Proxy ->
  reachable_apart cfg k sys ->
  (in_flight k (waiting sys) <= 1)%nat
  /\ (in_flight k (waiting sys) = 1%nat -> fallbackOf k (shared sys) = false)
  /\ (fallbackOf k (shared sys) = true ->
      DEMO_CONFIGURED cfg = true /\ truthy (data (cacheOf k (shared sys))) = false).
Proof.
  intros Hk Hr. change (flag_sound cfg k sys).
  induction Hr as [|ev sys Hr IH Hapart].
  - unfold flag_sound, in_flight, fallbackOf. cbn.
    split; [lia|]. split; [intros H; discriminate H|].
    destruct (is_locations k); intros H; discriminate H.
  - apply flag_sound_turn; assumption.
Qed.

(** X12. What the cache holds fits its content type: in every reachable
    state a cache is either typed "application/json" or holds a text under
    a non-empty content type that mentions JSON in neither of the ways
    [tryRemote] looks for. *)
Theorem cache_fits_its_type (g : Globals) :
  reachable cfg g ->
  cache_coherent (cacheLocations g) /\ cache_coherent (cacheStates g).
Proof.
  intros Hr. induction Hr as [|rq e g Hr IH]; [split; left; reflexivity|].
  destruct IH as [Hl Hs].
  destruct rq; run; split; try assumption.
  all: match goal with
       | |- context [outcome_at ?c ?e ?n ?u ?k] =>
           destruct (outcome_at c e n u k) as [st err txt|d|t ct] eqn:Hout
       end; cbn in *; try discriminate.
  all: try (left; reflexivity).
  all: try match goal with
           | H : (?a =? "application/json")%string = true |- _ =>
               apply String.eqb_eq in H; subst; left; reflexivity
           end.
  all: match goal with
       | H : outcome_at _ _ _ _ _ = OkText _ _ |- _ =>
           destruct (text_outcome_type _ _ _ _ _ _ _ H) as (H1 & H2 & H3 & H4 & H5)
       end.
  all: right; cbn; repeat split; eauto.
Qed.

End Invariants.

(** ** Falling back *)

Section Fallbacks.

Variable cfg : Config.

(** X14. With demo mode on, the demo data is the last resort that always
    answers: whatever upstream does and whatever the state, /api/locations
    returns a 200 as long as its sample file can be read, and /api/states
    as long as its sample file parses to an array of objects. Neither
    throws and neither answers 500. *)
Theorem demo_mode_always_answers (e : Env) (g : Globals) :
  DEMO_CONFIGURED cfg = true ->
  (forall text,
      files e "sample-data/locations.geojson" = Ok text ->
      exists r, answer (serve cfg GetLocations e g) = Ok r /\ status r = 200)
  /\ (forall text base,
        files e "sample-data/states.json" = Ok text ->
        parse_json e text = Ok (VArr base) ->
        Forall (fun s => is_object s = true) base ->
        exists r, answer (serve cfg GetStates e g) = Ok r /\ status r = 200).
Proof.
  intros Hdemo. split.
  - intros text Hfile.
    run; eexists; split; reflexivity.
  - intros text base Hfile Hparse Hobj.
    pose proof (reroll_all_objects e base Hobj 0%nat) as Hall.
    run.
    all: repeat match goal with
           | H : parse_json _ _ = _ |- _ => rewrite Hparse in H; inversion H; subst; clear H
           end.
    all: try congruence.
    all: eexists; split; reflexivity.
Qed.

(** X15. When the sample file cannot be read on the demo path the resolver
    throws the read error, having already put its fallback flag to true and
    done the bookkeeping of the failed live call. The same happens on
    /api/states when the sample does not parse, and when it parses to
    something that is not an array: for null the error is the TypeError of
    reading [map] off null, for any other value the TypeError that
    [base.map] is not a function. When nothing else resolves the resource
    meanwhile, /config then reports a fallback that served nothing. *)
Theorem unreadable_sample_throws_with_flag_set
  (rq : Request) (k : Kind) (e : Env) (g : Globals) :
  resource rq = Some k ->
  demo_path cfg e k rq g = true ->
  let s := serve cfg rq e g in
  (forall err, files e (sample_file k) = Throw err ->
               answer s = Throw err /\ fallbackOf k (after s) = true)
  /\ (forall text err,
        rq = GetStates ->
        files e (sample_file k) = Ok text ->
        parse_json e text = Throw err ->
        answer s = Throw err /\ fallbackOf k (after s) = true)
  /\ (forall text v,
        rq = GetStates ->
        files e (sample_file k) = Ok text ->
        parse_json e text = Ok v ->
        (forall xs, v <> VArr xs) ->
        fallbackOf k (after s) = true
        /\ (v = VNull ->
            answer s
            = Throw (type_error "Cannot read properties of null (reading 'map')"))
        /\ (v = VUndefined ->
            answer s
            = Throw (type_error "Cannot read properties of undefined (reading 'map')"))
        /\ (v <> VNull -> v <> VUndefined ->
            answer s = Throw (type_error "base.map is not a function"))).
Proof.
  intros Hk Hpath s. subst s. revert Hpath.
  rewrite (demo_path_eq cfg rq k e g Hk).
  destruct rq; inversion Hk; subst k;
    unfold configured, nextTryAtOf, cacheOf, fallbackOf, sample_file; cbn -[Z.ltb].
  all: intros Hpath; split; [|split].
  all: try (intros text v Hrq; discriminate Hrq).
  - intros err Hfile. revert Hpath. run; use_tests; intros Hpath; try discriminate Hpath.
    all: split; reflexivity.
  - intros err Hfile. revert Hpath. run; use_tests; intros Hpath; try discriminate Hpath.
    all: split; reflexivity.
  - intros text err _ Hfile Hparse. revert Hpath.
    run; use_tests; intros Hpath; try discriminate Hpath.
    all: repeat match goal with
           | H : parse_json _ _ = _ |- _ => rewrite Hparse in H; inversion H; subst; clear H
           end.
    all: split; reflexivity.
  - intros text v _ Hfile Hparse Hnot. revert Hpath.
    run; use_tests; intros Hpath; try discriminate Hpath.
    all: repeat match goal with
           | H : parse_json _ _ = _ |- _ => rewrite Hparse in H; inversion H; subst; clear H
           end.
    all: try (exfalso; eapply Hnot; reflexivity).
    all: split; [reflexivity|].
    all: split; [|split]; intros; try discriminate; try congruence; reflexivity.
Qed.

(** The answer to a live success and the cache it leaves. *)
Lemma live_success_answer (rq : Request) (k : Kind) (e : Env) (g : Globals) :
  resource rq = Some k ->
  live_ok cfg e k (serve cfg rq e g) = true ->
  let s := serve cfg rq e g in
  let c := cacheOf k (after s) in
  answer s
  = Ok {| status := 200;
          headers := [];
          ctype := Some (contentType c);
          body := if (contentType c =? "application/json")%string
                  then Json (data c) else Sent (data c) |}
  /\ at_ c = time_on_entry e
  /\ fallbackOf k (after s) = false.
Proof.
  intros Hk. rewrite (live_ok_eq cfg rq k e g Hk).
  destruct rq; inversion Hk; subst k;
    unfold configured, nextTryAtOf, cacheOf, fallbackOf; cbn -[Z.ltb].
  all: run; use_tests; intros Hlive; try discriminate Hlive.
  all: match goal with
       | |- context [outcome_at ?c ?e ?n ?u ?k] =>
           destruct (outcome_at c e n u k) as [st err txt|d|t ct] eqn:Hout
       end; cbn in *; try discriminate.
  all: try (repeat split; reflexivity).
  all: try match goal with
           | H : (?a =? "application/json")%string = true |- _ =>
               apply String.eqb_eq in H; subst
           end.
  all: try match goal with
           | H : (?a =? "application/json")%string = false |- _ => rewrite H
           end.
  all: repeat split; try reflexivity.
  all: exfalso;
    match goal with
    | H : outcome_at _ _ _ _ _ = OkText _ _ |- _ =>
        destruct (text_outcome_type _ _ _ _ _ _ _ H) as (_ & H2 & _); apply H2; reflexivity
    end.
Qed.

(** X16. What a live success stores is what later cache hits serve: when a
    resolution succeeds live with truthy data and the next resolution of
    the resource fails or skips its live call, the second answer has the
    body and the content type of the first, now under the X-Cache header. *)
Theorem cache_serves_what_was_fetched
  (rq : Request) (k : Kind) (e1 e2 : Env) (g : Globals) :
  resource rq = Some k ->
  let s1 := serve cfg rq e1 g in
  let s2 := serve cfg rq e2 (after s1) in
  live_ok cfg e1 k s1 = true ->
  truthy (data (cacheOf k (after s1))) = true ->
  live_ok cfg e2 k s2 = false ->
  exists r1 r2,
    answer s1 = Ok r1 /\ answer s2 = Ok r2
    /\ body r2 = body r1
    /\ ctype r2 = ctype r1
    /\ status r1 = 200 /\ status r2 = 200
    /\ headers r1 = []
    /\ headers r2 = [("X-Cache", "hit-" ++ kind_name k)%string].
Proof.
  intros Hk s1 s2 Hlive1 Htruthy Hlive2.
  destruct (live_success_answer rq k e1 g Hk Hlive1) as (Hans1 & _).
  destruct (cache_hit cfg rq k e2 (after s1) Hk Htruthy Hlive2) as (Hans2 & _).
  fold s1 in Hans1. fold s2 in Hans2.
  eexists. eexists. split; [exact Hans1|]. split; [exact Hans2|].
  cbn. repeat split; reflexivity.
Qed.

(** X17. [usingRemote] in /config only says that both locators are set.
    With relative locators and no base it is reported true, the base is
    reported null, and yet no resolution ever calls upstream. *)
Theorem usingRemote_does_not_mean_reachable :
  BASE cfg = "" ->
  LOCATIONS_URL cfg <> "" -> STATES_URL cfg <> "" ->
  is_http_url (LOCATIONS_URL cfg) = false -> is_http_url (STATES_URL cfg) = false ->
  (forall e g,
      exists r, answer (serve cfg GetConfig e g) = Ok r
                /\ json_field "usingRemote" r = Some (VBool true)
                /\ json_field "base" r = Some VNull)
  /\ (forall rq k e g, resource rq = Some k -> fetches (log (serve cfg rq e g)) = 0%nat).
Proof.
  intros Hbase Hl Hs Hlrel Hsrel.
  apply truthy_str_true in Hl, Hs.
  assert (Hb : truthy_str (BASE cfg) = false) by (now apply truthy_str_false).
  split.
  - intros e g. run; rewrite ?Hb in *; try discriminate.
    eexists. split; [reflexivity|]. unfold json_field. cbn.
    rewrite Hl, Hs. split; reflexivity.
  - intros rq k e g Hk. rewrite (resolution_fetches cfg rq k e g Hk).
    assert (Hnone : toAbs cfg (configured cfg k) = None).
    { apply toAbs_none_iff. right.
      destruct rq; inversion Hk; subst k; unfold configured; cbn; auto. }
    rewrite Hnone. reflexivity.
Qed.

End Fallbacks.

Section DemoLocations.

Variable cfg : Config.

(** X22. On the demo path /api/locations sends the text of its sample file
    as it is, declared as JSON: the file is read once and neither parsed
    nor checked, unlike the states sample. *)
Theorem demo_locations_sent_verbatim (e : Env) (g : Globals) (text : string) :
  demo_path cfg e Locations GetLocations g = true ->
  files e "sample-data/locations.geojson" = Ok text ->
  let s := serve cfg GetLocations e g in
  answer s
  = Ok {| status := 200;
          headers := [("X-Demo-Fallback", "locations")%string];
          ctype := Some "application/json"%string;
          body := Sent (VStr text) |}
  /\ filter is_demo_effect (log s)
     = [SetFallback Locations true; CallReadFile "sample-data/locations.geojson"].
Proof.
  intros Hpath Hfile s. subst s. revert Hpath.
  rewrite (demo_path_eq cfg GetLocations Locations e g eq_refl).
  unfold configured, nextTryAtOf, cacheOf; cbn -[Z.ltb].
  run; use_tests; intros Hpath; try discriminate Hpath.
  all: rewrite ?filter_app; cbn.
  all: try match goal with
           | |- context [filter is_demo_effect (effects_at ?c ?e ?n ?u ?k)] =>
               destruct (effects_at_shape c e n u k) as (w & -> & [-> | [m ->]]);
               destruct (truthy_opt u)
           end; cbn.
  all: split; reflexivity.
Qed.

End DemoLocations.

Lemma demo_locations_sent_verbatim_witness :
  demo_path Sample.cfg (env_at 1000 (Ok unavailable)) Locations GetLocations initial = true
  /\ files (env_at 1000 (Ok unavailable)) "sample-data/locations.geojson"
     = Ok "contents of sample-data/locations.geojson"%string
  /\ answer (serve Sample.cfg GetLocations (env_at 1000 (Ok unavailable)) initial)
     = Ok {| status := 200;
             headers := [("X-Demo-Fallback", "locations")%string];
             ctype := Some "application/json"%string;
             body := Sent (VStr "contents of sample-data/locations.geojson") |}.
Proof.
  split; [reflexivity|]. split; [reflexivity|].
  destruct (demo_locations_sent_verbatim Sample.cfg (env_at 1000 (Ok unavailable)) initial
              "contents of sample-data/locations.geojson" eq_refl eq_refl) as (H & _).
  exact H.
Defined.

(** ** The proxy and the health probe *)

Section Probes.

Variable cfg : Config.

Lemma or_str_nonempty (a : option string) (b : string) : b <> "" -> or_str a b <> "".
Proof.
  intros Hb. unfold or_str. destruct a as [s|]; [|exact Hb].
  destruct (truthy_str s) eqn:Hs; [now apply truthy_str_true|exact Hb].
Qed.

Lemma effects_at_head (e : Env) (n : nat) (u : string) (k : Kind) :
  truthy_str u = true ->
  hd_error (effects_at cfg e n (Some u) k) = Some (CallFetch u).
Proof.
  intros Hu. destruct (effects_at_shape cfg e n (Some u) k) as (w & -> & _).
  cbn. rewrite Hu. reflexivity.
Qed.

(** X18. /api/proxy relays: when the path resolves it makes exactly one
    call, to the resolved URL (the path itself when the client sends an
    http(s) URL, whatever the base), and never throws. A success is passed
    on with its data or text and content type; a failure is answered with
    upstream's status (502 when there is none) and a text body that is
    never empty. *)
Theorem proxy_relays_upstream (e : Env) (g : Globals) (path u : string) :
  toAbs cfg path = Some u ->
  let s := serve cfg (GetProxy path) e g in
  hd_error (log s) = Some (CallFetch u)
  /\ fetches (log s) = 1%nat
  /\ (is_http_url path = true -> u = path)
  /\ match outcome_at cfg e 0 (Some u) Proxy with
     | Failed st err txt =>
         exists b,
           answer s
           = Ok {| status := if st =? 0 then 502 else st; headers := [];
                   ctype := None; body := Sent (VStr b) |}
           /\ b <> ""
     | OkJson d =>
         answer s
         = Ok {| status := 200; headers := [];
                 ctype := Some "application/json"%string; body := Json d |}
     | OkText t ct =>
         answer s
         = Ok {| status := 200; headers := []; ctype := Some ct; body := Sent (VStr t) |}
     end.
Proof.
  intros Hu s. subst s.
  pose proof (toAbs_truthy cfg path u Hu) as Ht.
  assert (Hlog : log (serve cfg (GetProxy path) e g) = effects_at cfg e 0 (Some u) Proxy
                 /\ answer (serve cfg (GetProxy path) e g)
                    = Ok (let out := outcome_at cfg e 0 (Some u) Proxy in
                          if negb (out_ok out) then
                            res_send (VStr (or_str (out_text out) (or_str (out_error out) "Proxy error")))
                              (res_status (or_num (out_status out) 502) res0)
                          else if is_json_type (out_contentType out) then
                            res_json (out_data out) res0
                          else res_send (of_opt (out_text out))
                                 (res_type (type_or_empty (out_contentType out)) res0))).
  { unfold_handler. rewrite Hu. cbn. rewrite Ht. cbn.
    rewrite (tryRemote_eq cfg e (Some u) Proxy). cbn.
    destruct (out_ok _); cbn; [|rewrite app_nil_r; split; reflexivity].
    destruct (is_json_type _); cbn; rewrite app_nil_r; split; reflexivity. }
  destruct Hlog as [Hlog Hans]. rewrite Hlog, Hans.
  split; [apply effects_at_head; exact Ht|].
  split; [rewrite effects_at_fetches; cbn; rewrite Ht; reflexivity|].
  split.
  { intros Hhttp. rewrite (toAbs_http cfg path Hhttp) in Hu. congruence. }
  destruct (outcome_at cfg e 0 (Some u) Proxy) as [st err txt|d|t ct] eqn:Hout.
  - exists (or_str txt (or_str (Some err) "Proxy error")). split; [reflexivity|].
    apply or_str_nonempty, or_str_nonempty. discriminate.
  - reflexivity.
  - cbn. destruct (text_outcome_type cfg e 0 (Some u) Proxy t ct Hout) as (_ & Hne & _).
    apply String.eqb_neq in Hne. rewrite Hne. reflexivity.
Qed.

(** The probe of an unresolvable locator. *)
Lemma probe_absent (e : Env) (n : nat) (k : Kind) :
  probe (outcome_at cfg e n None k)
  = VObj [("ok"%string, VBool false); ("status"%string, VNum 502)].
Proof.
  unfold outcome_at, tryRemote_at. rewrite (tryRemote_absent cfg e None k) by reflexivity.
  reflexivity.
Qed.

(** X20. /health always answers 200 with an entry per resource and never
    throws. A locator that is not set is reported [{ok: false, status: 400}]
    and one that is set but does not resolve [{ok: false, status: 502}],
    both without a call; a locator that resolves is probed with one call,
    whatever the backoff state, and reported by the outcome. *)
Theorem health_reports_each_locator (e : Env) (g : Globals) :
  let s := serve cfg GetHealth e g in
  let loc := LOCATIONS_URL cfg in
  let sta := STATES_URL cfg in
  let called_loc := (truthy_str loc && truthy_opt (toAbs cfg loc))%bool in
  let called_sta := (truthy_str sta && truthy_opt (toAbs cfg sta))%bool in
  (exists r,
      answer s = Ok r /\ status r = 200
      /\ health_result "locations" r
         = Some (if truthy_str loc
                 then probe (outcome_at cfg e 0 (toAbs cfg loc) Locations)
                 else not_probed)
      /\ health_result "states" r
         = Some (if truthy_str sta
                 then probe (outcome_at cfg e (if called_loc then 1 else 0)
                               (toAbs cfg sta) States)
                 else not_probed))
  /\ fetches (log s)
     = ((if called_loc then 1 else 0) + (if called_sta then 1 else 0))%nat
  /\ (forall n k, probe (outcome_at cfg e n None k)
                  = VObj [("ok"%string, VBool false); ("status"%string, VNum 502)])
  /\ not_probed = VObj [("ok"%string, VBool false); ("status"%string, VNum 400)].
Proof.
  intros s loc sta called_loc called_sta.
  subst s loc sta called_loc called_sta.
  split; [|split; [|split; [apply probe_absent|reflexivity]]].
  - run; eexists; split; try reflexivity; unfold health_result, json_field; cbn;
      repeat split; reflexivity.
  - run; count_fetches; use_tests; reflexivity.
Qed.

End Probes.

(** ** Polls that fail in a row *)

Section Polls.

Variable cfg : Config.

Lemma serve_all_app (l1 l2 : list (Request * Env)) (g : Globals) :
  serve_all cfg (l1 ++ l2) g
  = (fst (serve_all cfg l2 (fst (serve_all cfg l1 g))),
     snd (serve_all cfg l1 g) ++ snd (serve_all cfg l2 (fst (serve_all cfg l1 g)))).
Proof.
  revert g. induction l1 as [|[rq e] l1 IH]; intros g.
  - cbn. destruct (serve_all cfg l2 g); reflexivity.
  - cbn [serve_all app]. rewrite IH.
    destruct (serve_all cfg l1 (after (serve cfg rq e g))) as [g1 ss1]. reflexivity.
Qed.

Lemma live_calls_app (k : Kind) (l1 l2 : list Served) :
  live_calls k (l1 ++ l2) = (live_calls k l1 + live_calls k l2)%nat.
Proof. induction l1 as [|s l1 IH]; cbn; [reflexivity|rewrite IH; lia]. Qed.

(** One failing poll, by the transition of its resolution. *)
Lemma failing_poll_step (k : Kind) (rq : Request) (e : Env) (g : Globals) :
  toAbs cfg (configured cfg k) <> None ->
  failing_poll cfg k (nextTryAtOf k g) (rq, e) ->
  let s := serve cfg rq e g in
  fetches (log s) = 1%nat
  /\ resolves k rq = true
  /\ if BACKOFF_AFTER_FAILS cfg <=? failCountOf k g + 1
     then failCountOf k (after s) = 0
          /\ nextTryAtOf k (after s) = clock e 2 + BACKOFF_WINDOW_MS cfg
     else failCountOf k (after s) = failCountOf k g + 1
          /\ nextTryAtOf k (after s) = nextTryAtOf k g.
Proof.
  intros Hurl (Hk & Hgate & Hfail) s. cbn [fst snd] in *.
  assert (Hf : fetches (log s) = 1%nat).
  { apply (gate_open_iff cfg rq k e g Hk). split; assumption. }
  split; [exact Hf|]. split; [apply resolves_spec; exact Hk|].
  apply (failed_call_counts cfg rq k e g Hk Hf).
  unfold live_ok. fold s. rewrite Hf. cbn. exact Hfail.
Qed.

(** Failing polls that stay below the threshold only count. *)
Lemma failing_polls_count (k : Kind) (rqs : list (Request * Env)) :
  toAbs cfg (configured cfg k) <> None ->
  forall g,
    0 <= failCountOf k g ->
    failCountOf k g + Z.of_nat (length rqs) < BACKOFF_AFTER_FAILS cfg ->
    Forall (failing_poll cfg k (nextTryAtOf k g)) rqs ->
    failCountOf k (fst (serve_all cfg rqs g)) = failCountOf k g + Z.of_nat (length rqs)
    /\ nextTryAtOf k (fst (serve_all cfg rqs g)) = nextTryAtOf k g
    /\ live_calls k (snd (serve_all cfg rqs g)) = length rqs.
Proof.
  intros Hurl. induction rqs as [|[rq e] rest IH]; intros g Hc Hlt Hall.
  - cbn. repeat split; lia.
  - inversion Hall as [|x l Hpoll Hrest]; subst x l.
    destruct (failing_poll_step k rq e g Hurl Hpoll) as (Hf & Hr & Hstep).
    cbn [length] in Hlt.
    destruct (Z.leb_spec (BACKOFF_AFTER_FAILS cfg) (failCountOf k g + 1)) as [Hge|_]; [lia|].
    destruct Hstep as [Hcount Hdead].
    specialize (IH (after (serve cfg rq e g))).
    rewrite Hcount, Hdead in IH.
    destruct (IH ltac:(lia) ltac:(lia) Hrest) as (IH1 & IH2 & IH3).
    cbn [serve_all].
    destruct (serve_all cfg rest (after (serve cfg rq e g))) as [g' ss]. cbn [fst snd] in *.
    cbn [live_calls length]. rewrite served_asked, Hr, Hf, IH3.
    repeat split; lia.
Qed.

(** X19. From a counter at 0, as many failing polls in a row as the
    threshold says, each finding the gate open, are all sent upstream, and
    the last of them sets the deadline one window after the clock it reads
    on failing and puts the counter back to 0. *)
Theorem threshold_failing_polls_trip
  (k : Kind) (rqs : list (Request * Env)) (rq : Request) (e : Env) (g : Globals) :
  toAbs cfg (configured cfg k) <> None ->
  failCountOf k g = 0 ->
  Z.of_nat (length rqs) + 1 = BACKOFF_AFTER_FAILS cfg ->
  Forall (failing_poll cfg k (nextTryAtOf k g)) (rqs ++ [(rq, e)]) ->
  let done := serve_all cfg (rqs ++ [(rq, e)]) g in
  live_calls k (snd done) = S (length rqs)
  /\ nextTryAtOf k (fst done) = clock e 2 + BACKOFF_WINDOW_MS cfg
  /\ failCountOf k (fst done) = 0.
Proof.
  intros Hurl Hc HT Hall done. subst done.
  apply Forall_app in Hall. destruct Hall as [Hrqs Hlast].
  inversion Hlast as [|x l Hpoll _]; subst x l.
  destruct (failing_polls_count k rqs Hurl g ltac:(lia) ltac:(lia) Hrqs) as (H1 & H2 & H3).
  rewrite serve_all_app. cbn [fst snd].
  set (g1 := fst (serve_all cfg rqs g)) in *.
  rewrite <- H2 in Hpoll.
  destruct (failing_poll_step k rq e g1 Hurl Hpoll) as (Hf & Hr & Hstep).
  assert (Htrip : (BACKOFF_AFTER_FAILS cfg <=? failCountOf k g1 + 1) = true)
    by (apply Z.leb_le; lia).
  rewrite Htrip in Hstep. destruct Hstep as [Hcount Hdead].
  cbn [serve_all fst snd]. rewrite live_calls_app, H3.
  cbn [live_calls]. rewrite served_asked, Hr, Hf.
  repeat split; [lia|exact Hdead|exact Hcount].
Qed.

End Polls.

(** ** The process under overlapping requests *)

Section Overlapping.

Variable cfg : Config.

Lemma reachable_run evs : forall sys,
  reachable_sys cfg sys -> reachable_sys cfg (fst (run_events cfg evs sys)).
Proof.
  induction evs as [|ev rest IH]; intros sys Hr; [exact Hr|].
  cbn [run_events].
  pose proof (reach_step cfg ev sys Hr) as H1.
  destruct (sys_step cfg ev sys) as [sys1 r]. cbn [fst] in H1.
  specialize (IH sys1 H1).
  destruct (run_events cfg rest sys1) as [sys2 rs]. exact IH.
Qed.


(** X24. The failure counters stay in [0, max 1 threshold) under every
    order of arrivals and resumptions: [onFail] counts and wraps within one
    stretch, so overlapping requests never leave a counter at or above the
    threshold. *)
Theorem counters_stay_in_range_overlapping (sys : System) :
  reachable_sys cfg sys ->
  (0 <= locFailCount (shared sys) < Z.max 1 (BACKOFF_AFTER_FAILS cfg))
  /\ (0 <= statesFailCount (shared sys) < Z.max 1 (BACKOFF_AFTER_FAILS cfg)).
Proof. exact (counters_in_range_sys cfg sys). Qed.

(** X25. Under overlapping requests too, a cache is written only when a
    suspended live call is resumed with a success: the turn that writes it
    resumes a handler that waited for its live call, the call has settled
    to a success, and the cache then holds what that call fetched, stamped
    with the [now] the handler read when its request came in, whatever the
    cache held before: of two overlapping successes the one that settles
    last stays, even when its request came in first. *)
Theorem cache_written_when_call_settles (k : Kind) (ev : Event) (sys : System) (c : Cache) :
  In (SetCache k c) (step_log (snd (sys_step cfg ev sys))) ->
  exists i t now settled,
    ev = Resume i
    /\ nth_error (waiting sys) i = Some t
    /\ task_at t = AwaitRemote k now settled
    /\ out_ok (ended k settled) = true
    /\ data c = (if is_json_type (out_contentType (ended k settled))
                 then out_data (ended k settled)
                 else of_opt (out_text (ended k settled)))
    /\ contentType c = type_or_empty (out_contentType (ended k settled))
    /\ at_ c = now
    /\ cacheOf k (shared (fst (sys_step cfg ev sys))) = c.
Proof.
  destruct ev as [rq e | i].
  - destruct rq; cbn -[Z.ltb].
    all: run_stretch; intros H; stretch_log H.
  - cbn. destruct (nth_error (waiting sys) i) as [[te tt tc td [k' now settled|k']]|] eqn:Ht;
      cbn [task_at task_env]; [| |intros []].
    + destruct k'; unfold cacheOf; cbn.
      all: run_stretch; intros H; stretch_log H.
      all: inversion H; subst; cbn in *; try discriminate.
      all: exists i; eexists; exists now, settled.
      all: split; [reflexivity|]; split; [exact Ht|]; split; [reflexivity|].
      all: use_tests; repeat split; try reflexivity; try assumption.
    + destruct k'; cbn.
      all: run_stretch; intros H; stretch_log H.
Qed.

(** X26. A resolution that no other request for the same resource
    overlaps (no handler of the resource is suspended when it comes in, no
    request for the resource comes in before it has ended) leaves the flag,
    cache, counter and deadline of the resource exactly as its handler run
    from the first line to the last leaves them, and sends the same answer,
    whatever requests for the other resource and the other endpoints come
    in, and in whatever order the suspended handlers are resumed. *)
Theorem resolution_overlapped_by_others_only
  (rq : Request) (k : Kind) (e : Env) (evs : list Event) (sys : System) :
  resource rq = Some k ->
  suspended k (waiting sys) = [] ->
  (forall rq' e', In (Arrive rq' e') evs -> resolves k rq' = false) ->
  let run := run_events cfg (Arrive rq e :: evs) sys in
  let s := serve cfg rq e (shared sys) in
  suspended k (waiting (fst run)) = [] ->
  fallbackOf k (shared (fst run)) = fallbackOf k (after s)
  /\ cacheOf k (shared (fst run)) = cacheOf k (after s)
  /\ failCountOf k (shared (fst run)) = failCountOf k (after s)
  /\ nextTryAtOf k (shared (fst run)) = nextTryAtOf k (after s)
  /\ answers (filter (about k) (snd run)) = [answer s].
Proof.
  intros Hk Hnone Hall run s Hend. subst run s.
  destruct (resolution_among_others cfg rq k e evs sys Hk Hnone Hall Hend) as [Hv Ha].
  unfold view in Hv. inversion Hv. repeat split; assumption.
Qed.

End Overlapping.

(** ** The client's HTML escaper *)

Lemma occurs_app (c : ascii) (a b : string) :
  occurs c (a ++ b) = (occurs c a || occurs c b)%bool.
Proof. induction a as [|x a IH]; cbn; [reflexivity|]. rewrite IH. now rewrite orb_assoc. Qed.

Ltac ascii_cases a :=
  destruct (Ascii.eqb_spec a "&"); [subst a|];
  [|destruct (Ascii.eqb_spec a "<"); [subst a|];
    [|destruct (Ascii.eqb_spec a ">"); [subst a|];
      [|destruct (Ascii.eqb_spec a dquote); [subst a|];
        [|destruct (Ascii.eqb_spec a "'"); [subst a|]]]]].

(** The five replacements in a row escape each character once. *)
Lemma escapeHTML_cons (a : ascii) (s : string) :
  escapeHTML (String a s) = (escape_char a ++ escapeHTML s)%string.
Proof.
  unfold escapeHTML, escape_char. cbn [replaceAll].
  ascii_cases a; try reflexivity.
  repeat match goal with
         | H : a <> _ |- _ => apply Ascii.eqb_neq in H
         end.
  repeat (cbn [replaceAll];
          match goal with
          | |- context [Ascii.eqb a ?c] =>
              match goal with
              | H : Ascii.eqb a c = false |- _ => rewrite H
              end
          end).
  reflexivity.
Qed.

Lemma escape_char_clean (a c : ascii) :
  c = "<"%char \/ c = ">"%char \/ c = dquote \/ c = "'"%char ->
  occurs c (escape_char a) = false.
Proof.
  intros Hc. unfold escape_char.
  ascii_cases a.
  1-5: destruct Hc as [-> | [-> | [-> | ->]]]; reflexivity.
  repeat match goal with
         | H : a <> _ |- _ => apply Ascii.eqb_neq in H; rewrite ?H
         end.
  cbn. rewrite orb_false_r.
  destruct Hc as [-> | [-> | [-> | ->]]]; assumption.
Qed.

Lemma escape_char_inj (a b : ascii) (x y : string) :
  (escape_char a ++ x)%string = (escape_char b ++ y)%string -> a = b /\ x = y.
Proof.
  unfold escape_char.
  ascii_cases a; ascii_cases b; cbn.
  all: repeat match goal with
         | H : _ <> _ |- _ => apply Ascii.eqb_neq in H
         end.
  all: repeat match goal with
         | H : Ascii.eqb _ _ = false |- _ => rewrite ?H; apply Ascii.eqb_neq in H; revert H
         end.
  all: intros; try discriminate.
  all: try match goal with
           | H : _ = _ |- _ => inversion H; subst; clear H
           end.
  all: try (split; reflexivity).
  all: try congruence.
Qed.

(** X21. [escapeHTML] leaves none of the characters <, >, double quote and
    apostrophe in its result; it escapes every character exactly once (an
    ampersand it has written is not escaped again); it is injective; and a
    string without the five characters comes back unchanged. *)
Theorem escapeHTML_is_safe_and_injective (s : string) :
  (forall c, c = "<"%char \/ c = ">"%char \/ c = dquote \/ c = "'"%char ->
             occurs c (escapeHTML s) = false)
  /\ (forall a rest, s = String a rest ->
                     escapeHTML s = (escape_char a ++ escapeHTML rest)%string)
  /\ (forall t, escapeHTML s = escapeHTML t -> s = t)
  /\ (occurs "&" s = false -> occurs "<" s = false -> occurs ">" s = false ->
      occurs dquote s = false -> occurs "'" s = false -> escapeHTML s = s).
Proof.
  split; [|split; [|split]].
  - intros c Hc. induction s as [|a s IH]; [reflexivity|].
    rewrite escapeHTML_cons, occurs_app, IH, (escape_char_clean a c Hc). reflexivity.
  - intros a rest ->. apply escapeHTML_cons.
  - induction s as [|a s IH]; intros t H.
    + destruct t as [|b t]; [reflexivity|].
      rewrite escapeHTML_cons in H. exfalso.
      revert H. unfold escape_char.
      repeat match goal with
             | |- context [if ?c then _ else _] => destruct c
             end; discriminate.
    + destruct t as [|b t].
      * rewrite escapeHTML_cons in H. exfalso.
        revert H. unfold escape_char.
        repeat match goal with
               | |- context [if ?c then _ else _] => destruct c
               end; discriminate.
      * rewrite !escapeHTML_cons in H.
        destruct (escape_char_inj a b _ _ H) as [-> Hrest].
        f_equal. apply IH. exact Hrest.
  - induction s as [|a s IH]; [reflexivity|].
    cbn [occurs]. intros H1 H2 H3 H4 H5.
    apply orb_false_iff in H1, H2, H3, H4, H5.
    destruct H1 as [A1 B1], H2 as [A2 B2], H3 as [A3 B3], H4 as [A4 B4], H5 as [A5 B5].
    rewrite escapeHTML_cons, (IH B1 B2 B3 B4 B5).
    unfold escape_char. rewrite A1, A2, A3, A4, A5. reflexivity.
Qed.

(** ** The further properties on the sample deployments *)

Import Sample2.

Lemma toAbs_relative_join_witness :
  is_http_url "/locations" = false
  /\ toAbs Sample.cfg "/locations" = Some "https://feed.example/locations"%string
  /\ toAbs Sample.cfg (slashes 3 ++ "/locations") = Some "https://feed.example/locations"%string.
Proof.
  split; [reflexivity|]. split; [reflexivity|].
  destruct (toAbs_relative_join Sample.cfg "/locations" "https://feed.example/locations"
              eq_refl eq_refl) as (_ & _ & _ & H).
  exact (H 3%nat).
Defined.

Lemma tryRemote_succeeds_exactly_witness :
  truthy_str "https://feed.example/states" = true
  /\ outcome_at Sample.cfg (env_at 1000 (Ok broken_json)) 0
       (Some "https://feed.example/states"%string) States
     = Failed 502 "SyntaxError: Unexpected token <" None.
Proof.
  split; [reflexivity|].
  destruct (tryRemote_succeeds_exactly Sample.cfg (env_at 1000 (Ok broken_json)) 0
              "https://feed.example/states" States eq_refl) as (_ & H & _).
  exact (H broken_json _ eq_refl eq_refl eq_refl eq_refl).
Defined.

Lemma live_call_made_exactly_witness :
  resource GetLocations = Some Locations
  /\ toAbs Sample.cfg (configured Sample.cfg Locations) <> None
  /\ nextTryAtOf Locations initial <= time_at_gate (env_at 1000 (Ok unavailable))
  /\ fetches (log (serve Sample.cfg GetLocations (env_at 1000 (Ok unavailable)) initial))
     = 1%nat.
Proof.
  split; [reflexivity|]. split; [discriminate|]. split; [vm_compute; discriminate|].
  destruct (live_call_made_exactly Sample.cfg GetLocations Locations
              (env_at 1000 (Ok unavailable)) initial eq_refl) as (H & _).
  apply H. split; [discriminate|vm_compute; discriminate].
Defined.

Lemma resolution_transition_witness :
  resource GetLocations = Some Locations
  /\ fetches (log (serve Sample.cfg GetLocations (env_at 1000 (Ok unavailable)) backing_off))
     = 0%nat
  /\ nextTryAtOf Locations
       (after (serve Sample.cfg GetLocations (env_at 1000 (Ok unavailable)) backing_off))
     = 40000.
Proof.
  split; [reflexivity|]. split; [reflexivity|].
  destruct (resolution_transition Sample.cfg GetLocations Locations
              (env_at 1000 (Ok unavailable)) backing_off eq_refl) as (_ & _ & H).
  destruct (H eq_refl) as [_ Hd]. exact Hd.
Defined.

Lemma other_requests_keep_resource_witness :
  Locations <> Proxy
  /\ resolves Locations GetStates = false
  /\ failCountOf Locations
       (after (serve Sample.cfg GetStates (env_at 1000 (Ok unavailable)) backing_off))
     = 0.
Proof.
  split; [discriminate|]. split; [reflexivity|].
  destruct (other_requests_keep_resource Sample.cfg GetStates Locations
              (env_at 1000 (Ok unavailable)) backing_off) as (_ & _ & H & _).
  - discriminate.
  - reflexivity.
  - exact H.
Defined.

Lemma counters_stay_below_threshold_witness :
  reachable Sample.cfg (fst (serve_all Sample.cfg four_polls initial))
  /\ 0 <= statesFailCount (fst (serve_all Sample.cfg four_polls initial))
     < Z.max 1 (BACKOFF_AFTER_FAILS Sample.cfg).
Proof.
  assert (Hr : reachable Sample.cfg (fst (serve_all Sample.cfg four_polls initial))).
  { repeat apply reach_serve. apply reach_initial. }
  split; [exact Hr|].
  exact (proj2 (counters_stay_below_threshold Sample.cfg _ Hr)).
Defined.

Lemma flag_implies_empty_cache_apart_witness :
  Locations <> Proxy
  /\ reachable_apart Sample.cfg Locations
       (fst (sys_step Sample.cfg (Resume 0)
          (fst (sys_step Sample.cfg (Arrive GetLocations (env_at 1000 (Ok unavailable))) idle))))
  /\ fallbackOf Locations
       (shared (fst (sys_step Sample.cfg (Resume 0)
          (fst (sys_step Sample.cfg (Arrive GetLocations (env_at 1000 (Ok unavailable)))
                  idle)))))
     = true
  /\ truthy (data (cacheOf Locations
       (shared (fst (sys_step Sample.cfg (Resume 0)
          (fst (sys_step Sample.cfg (Arrive GetLocations (env_at 1000 (Ok unavailable)))
                  idle)))))))
     = false.
Proof.
  assert (Hr : reachable_apart Sample.cfg Locations
                 (fst (sys_step Sample.cfg (Resume 0)
                    (fst (sys_step Sample.cfg
                            (Arrive GetLocations (env_at 1000 (Ok unavailable))) idle))))).
  { apply apart_step; [apply apart_step; [apply apart_idle|]|].
    - intros rq e _ _. reflexivity.
    - intros rq e H. discriminate H. }
  split; [discriminate|]. split; [exact Hr|]. split; [vm_compute; reflexivity|].
  destruct (flag_implies_empty_cache_apart Sample.cfg Locations _ ltac:(discriminate) Hr)
    as (_ & _ & H).
  exact (proj2 (H eq_refl)).
Defined.

Lemma cache_fits_its_type_witness :
  reachable Sample.cfg
    (after (serve Sample.cfg GetLocations (env_at 1000 (Ok csv_text)) initial))
  /\ cache_coherent (cacheLocations
       (after (serve Sample.cfg GetLocations (env_at 1000 (Ok csv_text)) initial))).
Proof.
  assert (Hr : reachable Sample.cfg
                 (after (serve Sample.cfg GetLocations (env_at 1000 (Ok csv_text)) initial))).
  { apply reach_serve, reach_initial. }
  split; [exact Hr|].
  exact (proj1 (cache_fits_its_type Sample.cfg _ Hr)).
Defined.

Lemma demo_mode_always_answers_witness :
  DEMO_CONFIGURED Sample.cfg = true
  /\ files (env_at 1000 (Ok unavailable)) "sample-data/locations.geojson"
     = Ok "contents of sample-data/locations.geojson"%string
  /\ exists r,
       answer (serve Sample.cfg GetLocations (env_at 1000 (Ok unavailable)) backing_off) = Ok r
       /\ status r = 200.
Proof.
  split; [reflexivity|]. split; [reflexivity|].
  destruct (demo_mode_always_answers Sample.cfg (env_at 1000 (Ok unavailable)) backing_off
              eq_refl) as (H & _).
  exact (H _ eq_refl).
Defined.

Lemma unreadable_sample_throws_with_flag_set_witness :
  resource GetLocations = Some Locations
  /\ demo_path Sample.cfg (env_no_files 1000 (Ok unavailable)) Locations GetLocations initial
     = true
  /\ answer (serve Sample.cfg GetLocations (env_no_files 1000 (Ok unavailable)) initial)
     = Throw {| err_name := "Error"; err_message := "ENOENT" |}
  /\ fallbackOf Locations
       (after (serve Sample.cfg GetLocations (env_no_files 1000 (Ok unavailable)) initial))
     = true.
Proof.
  split; [reflexivity|]. split; [reflexivity|].
  destruct (unreadable_sample_throws_with_flag_set Sample.cfg GetLocations Locations
              (env_no_files 1000 (Ok unavailable)) initial eq_refl eq_refl) as (H & _).
  exact (H _ eq_refl).
Defined.

Lemma cache_serves_what_was_fetched_witness :
  resource GetStates = Some States
  /\ live_ok Sample.cfg (env_at 1000 (Ok json_states)) States
       (serve Sample.cfg GetStates (env_at 1000 (Ok json_states)) initial) = true
  /\ truthy (data (cacheOf States states_cached)) = true
  /\ live_ok Sample.cfg (env_at 5000 (Ok unavailable)) States
       (serve Sample.cfg GetStates (env_at 5000 (Ok unavailable)) states_cached) = false
  /\ exists r1 r2,
       answer (serve Sample.cfg GetStates (env_at 1000 (Ok json_states)) initial) = Ok r1
       /\ answer (serve Sample.cfg GetStates (env_at 5000 (Ok unavailable)) states_cached)
          = Ok r2
       /\ body r2 = body r1.
Proof.
  split; [reflexivity|]. split; [reflexivity|]. split; [reflexivity|]. split; [reflexivity|].
  destruct (cache_serves_what_was_fetched Sample.cfg GetStates States
              (env_at 1000 (Ok json_states)) (env_at 5000 (Ok unavailable)) initial
              eq_refl eq_refl eq_refl eq_refl) as (r1 & r2 & H1 & H2 & Hb & _).
  exists r1, r2. split; [exact H1|]. split; [exact H2|exact Hb].
Defined.

Lemma usingRemote_does_not_mean_reachable_witness :
  BASE cfg_no_base = ""
  /\ LOCATIONS_URL cfg_no_base <> "" /\ STATES_URL cfg_no_base <> ""
  /\ is_http_url (LOCATIONS_URL cfg_no_base) = false
  /\ is_http_url (STATES_URL cfg_no_base) = false
  /\ fetches (log (serve cfg_no_base GetStates (env_at 1000 (Ok json_states)) initial))
     = 0%nat.
Proof.
  split; [reflexivity|]. split; [discriminate|]. split; [discriminate|].
  split; [reflexivity|]. split; [reflexivity|].
  destruct (usingRemote_does_not_mean_reachable cfg_no_base) as (_ & H).
  - reflexivity.
  - discriminate.
  - discriminate.
  - reflexivity.
  - reflexivity.
  - exact (H GetStates States _ _ eq_refl).
Defined.

Lemma proxy_relays_upstream_witness :
  toAbs Sample.cfg "//api/v1" = Some "https://feed.example/api/v1"%string
  /\ fetches (log (serve Sample.cfg (GetProxy "//api/v1") (env_at 1000 (Ok unavailable))
                     initial))
     = 1%nat.
Proof.
  split; [reflexivity|].
  destruct (proxy_relays_upstream Sample.cfg (env_at 1000 (Ok unavailable)) initial
              "//api/v1" "https://feed.example/api/v1" eq_refl) as (_ & H & _).
  exact H.
Defined.

Lemma three_failing_polls :
  Forall (failing_poll Sample.cfg States (nextTryAtOf States initial))
    ([(GetStates, env_at 1000 (Ok unavailable)); (GetStates, env_at 3000 (Ok unavailable))]
       ++ [(GetStates, env_at 5000 (Ok unavailable))]).
Proof.
  repeat constructor; vm_compute; discriminate.
Defined.

Lemma threshold_failing_polls_trip_witness :
  toAbs Sample.cfg (configured Sample.cfg States) <> None
  /\ failCountOf States initial = 0
  /\ Z.of_nat 2 + 1 = BACKOFF_AFTER_FAILS Sample.cfg
  /\ nextTryAtOf States
       (fst (serve_all Sample.cfg
               ([(GetStates, env_at 1000 (Ok unavailable));
                 (GetStates, env_at 3000 (Ok unavailable))]
                  ++ [(GetStates, env_at 5000 (Ok unavailable))]) initial))
     = 35002.
Proof.
  split; [discriminate|]. split; [reflexivity|]. split; [reflexivity|].
  destruct (threshold_failing_polls_trip Sample.cfg States
              [(GetStates, env_at 1000 (Ok unavailable));
               (GetStates, env_at 3000 (Ok unavailable))]
              GetStates (env_at 5000 (Ok unavailable)) initial) as (_ & H & _).
  - discriminate.
  - reflexivity.
  - reflexivity.
  - exact three_failing_polls.
  - exact H.
Defined.

Lemma toAbs_absolute_fixed_witness :
  is_http_url (BASE Sample.cfg) = true
  /\ toAbs Sample.cfg "/locations" = Some "https://feed.example/locations"%string
  /\ toAbs Sample.cfg "https://feed.example/locations"
     = Some "https://feed.example/locations"%string.
Proof.
  split; [reflexivity|]. split; [reflexivity|].
  destruct (toAbs_absolute_fixed Sample.cfg "/locations") as (_ & H).
  exact (proj2 (H eq_refl _ eq_refl)).
Defined.

Lemma counters_stay_in_range_overlapping_witness :
  reachable_sys Sample.cfg Overlap.tripped
  /\ 0 <= locFailCount (shared Overlap.tripped) < Z.max 1 (BACKOFF_AFTER_FAILS Sample.cfg).
Proof.
  assert (Hr : reachable_sys Sample.cfg Overlap.tripped)
    by (apply reachable_run, reach_idle).
  split; [exact Hr|].
  exact (proj1 (counters_stay_in_range_overlapping Sample.cfg _ Hr)).
Defined.

Lemma cache_written_when_call_settles_witness :
  In (SetCache Locations {| data := two_states; contentType := "application/json"; at_ := 5000 |})
     (step_log (snd (sys_step Sample.cfg (Resume 0) Overlap.tripped)))
  /\ cacheOf Locations (shared Overlap.late_success)
     = {| data := two_states; contentType := "application/json"; at_ := 5000 |}.
Proof.
  assert (Hin : In (SetCache Locations
                      {| data := two_states; contentType := "application/json"; at_ := 5000 |})
                   (step_log (snd (sys_step Sample.cfg (Resume 0) Overlap.tripped))))
    by (vm_compute; tauto).
  split; [exact Hin|].
  destruct (cache_written_when_call_settles Sample.cfg Locations (Resume 0) Overlap.tripped
              _ Hin)
    as (i & t & now & settled & _ & _ & _ & _ & _ & _ & _ & H).
  exact H.
Defined.

Lemma resolution_overlapped_by_others_only_witness :
  resource GetLocations = Some Locations
  /\ suspended Locations (waiting idle) = []
  /\ (forall rq' e', In (Arrive rq' e') Overlap.meanwhile -> resolves Locations rq' = false)
  /\ suspended Locations
       (waiting (fst (run_events Sample.cfg
                        (Arrive GetLocations (env_at 1000 (Ok unavailable))
                         :: Overlap.meanwhile) idle)))
     = []
  /\ fallbackOf Locations
       (shared (fst (run_events Sample.cfg
                       (Arrive GetLocations (env_at 1000 (Ok unavailable))
                        :: Overlap.meanwhile) idle)))
     = true.
Proof.
  assert (Hall : forall rq' e',
             In (Arrive rq' e') Overlap.meanwhile -> resolves Locations rq' = false).
  { intros rq' e' H. repeat (destruct H as [H | H]; [inversion H; reflexivity|]).
    destruct H. }
  split; [reflexivity|]. split; [reflexivity|]. split; [exact Hall|].
  split; [vm_compute; reflexivity|].
  destruct (resolution_overlapped_by_others_only Sample.cfg GetLocations Locations
              (env_at 1000 (Ok unavailable)) Overlap.meanwhile idle eq_refl eq_refl Hall)
    as (H & _).
  - vm_compute. reflexivity.
  - rewrite H. vm_compute. reflexivity.
Defined.
